(** * Action-execution subsystem of the superwizard browser agent

    A shallow embedding of the TypeScript sources under
    [src/general/dom/Operation] (click, setValue, waiting, scroll, coordinates,
    stability, element, cursor, pageUtils, errorBuilder), of
    [actionStateManager.ts], of [ScriptingMode.ts], of [browser/pageRPC.ts]
    and of [pages/Content/getAnnotatedDOM.ts], together with the properties
    the specification states about them and further properties the code
    shows.

    Conventions.
    - A JavaScript [number] is an IEEE-754 binary64 value: Rocq's primitive
      [float].  [Date.now()] values and timer delays in milliseconds are [Z].
    - An [await]ed call into the page or the browser is an observation
      supplied by the environment: each call site reads its outcome from a
      record (or a list, one entry per loop iteration) describing what the
      page answered, and [Rejected e] stands for a rejected promise / a
      thrown exception carrying [e].
    - [console.*] calls are kept in a log only where a property mentions
      them.
    - A string is a string of bytes: a character outside ASCII in a message
      stands as its UTF-8 bytes. *)

From Stdlib Require Import ZArith List String Ascii Bool Lia DecimalString.
From Stdlib Require Import Permutation Sorted.
From Stdlib Require Import Floats.
Import ListNotations.

(* ------------------------------------------------------------------ *)
(** * JavaScript numbers *)

Module JS.

Definition number := float.

(** [isNaN(x)] for a value that is already a number. *)
Definition isNaN (x : number) : bool := PrimFloat.is_nan x.

(** [Math.abs]. *)
Definition abs (x : number) : number := PrimFloat.abs x.

(** [Math.min(a, b)]: NaN if either is NaN, otherwise the smaller one,
    where [-0] counts as smaller than [+0]. *)
Definition min (a b : number) : number :=
  if isNaN a || isNaN b then PrimFloat.nan
  else if (a <? b)%float then a
  else if (b <? a)%float then b
  else if PrimFloat.get_sign a then a else b.

(** [Math.max(a, b)], with [+0] larger than [-0]. *)
Definition max (a b : number) : number :=
  if isNaN a || isNaN b then PrimFloat.nan
  else if (a <? b)%float then b
  else if (b <? a)%float then a
  else if PrimFloat.get_sign a then b else a.

(** [haystack.includes(needle)]. *)
Fixpoint includes (needle haystack : string) : bool :=
  if String.prefix needle haystack then true
  else match haystack with
       | EmptyString => false
       | String _ rest => includes needle rest
       end.

(** Truthiness of a string: everything but the empty string. *)
Definition nonEmpty (s : string) : bool :=
  match s with EmptyString => false | _ => true end.

End JS.

(** Outcome of an awaited promise: resolved with a value, or rejected
    (thrown) with an error. *)
Inductive outcome (E A : Type) : Type :=
| Resolved (a : A)
| Rejected (e : E).
Arguments Resolved {E A} a.
Arguments Rejected {E A} e.

(* ------------------------------------------------------------------ *)
(** * The waiting executor ([actions/waiting.ts]) *)

Module Waiting.

(** [throw new Error(`Invalid wait duration: ${seconds}. ...`)]. *)
Inductive error : Type :=
| InvalidWaitDuration (seconds : JS.number).

(** What a call that passes validation does: the duration it settles on,
    whether the cap warning is logged, and the delay handed to
    [setTimeout], after which the promise resolves. *)
Record wait : Type := {
  actualWaitSeconds : JS.number;
  capWarning : bool;
  waitMs : JS.number
}.

Definition maxWaitSeconds : JS.number := 300%float.

Definition waiting (seconds : JS.number) : outcome error wait :=
  if (seconds <? 0)%float then Rejected (InvalidWaitDuration seconds)
  else
    let actual := JS.min seconds maxWaitSeconds in
    Resolved {| actualWaitSeconds := actual;
                capWarning := (maxWaitSeconds <? seconds)%float;
                waitMs := (actual * 1000)%float |}.

(** [x] lies in the closed interval [[0, 300]]. *)
Definition within_limits (x : JS.number) : bool :=
  ((0 <=? x) && (x <=? maxWaitSeconds))%float.

(** The claim as the specification words it: whatever the number, the
    call resolves with a duration clamped into [[0, 300]]. *)
Definition clamps_and_resolves (seconds : JS.number) : Prop :=
  exists w, waiting seconds = Resolved w
            /\ within_limits (actualWaitSeconds w) = true.

End Waiting.

(* ------------------------------------------------------------------ *)
(** * The action state tracker ([actionStateManager.ts]) *)

Module ActionStateManager.

Inductive Status : Type := pending | in_progress | completed | failed.

Record ActionState : Type := {
  id : string;
  type : string;
  status : Status;
  startTime : Z;
  endTime : option Z;
  error : option string
}.

(** A JavaScript [Map] with string keys: entries stay in insertion order
    and [set] on a key that is present replaces the value in place. *)
Section JSMap.
Context {V : Type}.

Definition jsmap : Type := list (string * V).

Fixpoint get (k : string) (m : jsmap) : option V :=
  match m with
  | [] => None
  | (k', v) :: m' => if String.eqb k k' then Some v else get k m'
  end.

Fixpoint set (k : string) (v : V) (m : jsmap) : jsmap :=
  match m with
  | [] => [(k, v)]
  | (k', v') :: m' =>
      if String.eqb k k' then (k, v) :: m' else (k', v') :: set k v m'
  end.

Fixpoint delete (k : string) (m : jsmap) : jsmap :=
  match m with
  | [] => []
  | (k', v') :: m' =>
      if String.eqb k k' then m' else (k', v') :: delete k m'
  end.
End JSMap.
Arguments jsmap : clear implicits.

(** A completion callback is known by the promise it settles; calling it
    is recorded as a notification. *)
Definition callback : Type := nat.

Record notification : Type := {
  notified : callback;
  notifiedSuccess : bool;
  notifiedError : option string
}.

Record manager : Type := {
  actionStates : jsmap ActionState;
  completionCallbacks : jsmap (list callback);
  activeAction : option string
}.

(** [new ActionStateManager()]. *)
Definition empty : manager :=
  {| actionStates := []; completionCallbacks := []; activeAction := None |}.

Definition startAction (now : Z) (actionId type : string) (m : manager)
  : manager :=
  let actionState :=
    {| id := actionId; type := type; status := pending;
       startTime := now; endTime := None; error := None |} in
  {| actionStates := set actionId actionState (actionStates m);
     completionCallbacks := completionCallbacks m;
     activeAction := Some actionId |}.

Definition setActionInProgress (actionId : string) (m : manager) : manager :=
  match get actionId (actionStates m) with
  | Some state =>
      let state' :=
        {| id := id state; type := type state; status := in_progress;
           startTime := startTime state; endTime := endTime state;
           error := error state |} in
      {| actionStates := set actionId state' (actionStates m);
         completionCallbacks := completionCallbacks m;
         activeAction := activeAction m |}
  | None => m
  end.

Definition notifyCallbacks (actionId : string) (success : bool)
    (err : option string) (m : manager) : manager * list notification :=
  match get actionId (completionCallbacks m) with
  | Some callbacks =>
      ({| actionStates := actionStates m;
          completionCallbacks := delete actionId (completionCallbacks m);
          activeAction := activeAction m |},
       map (fun cb => {| notified := cb; notifiedSuccess := success;
                         notifiedError := err |}) callbacks)
  | None => (m, [])
  end.

(** [if (this.activeAction === actionId) this.activeAction = null]. *)
Definition clearActive (actionId : string) (active : option string)
  : option string :=
  match active with
  | Some a => if String.eqb a actionId then None else Some a
  | None => None
  end.

Definition completeAction (now : Z) (actionId : string) (m : manager)
  : manager * list notification :=
  match get actionId (actionStates m) with
  | Some state =>
      let state' :=
        {| id := id state; type := type state; status := completed;
           startTime := startTime state; endTime := Some now;
           error := error state |} in
      notifyCallbacks actionId true None
        {| actionStates := set actionId state' (actionStates m);
           completionCallbacks := completionCallbacks m;
           activeAction := clearActive actionId (activeAction m) |}
  | None => (m, [])
  end.

Definition failAction (now : Z) (actionId : string) (err : string)
    (m : manager) : manager * list notification :=
  match get actionId (actionStates m) with
  | Some state =>
      let state' :=
        {| id := id state; type := type state; status := failed;
           startTime := startTime state; endTime := Some now;
           error := Some err |} in
      notifyCallbacks actionId false (Some err)
        {| actionStates := set actionId state' (actionStates m);
           completionCallbacks := completionCallbacks m;
           activeAction := clearActive actionId (activeAction m) |}
  | None => (m, [])
  end.

Definition onActionComplete (actionId : string) (cb : callback)
    (m : manager) : manager :=
  let registered :=
    match get actionId (completionCallbacks m) with
    | Some cbs => cbs
    | None => []
    end in
  {| actionStates := actionStates m;
     completionCallbacks :=
       set actionId (registered ++ [cb]) (completionCallbacks m);
     activeAction := activeAction m |}.

Definition terminal (s : Status) : bool :=
  match s with completed | failed => true | _ => false end.

(** [waitForAction]: [Some b] when the promise resolves at once with [b];
    otherwise the promise [cb] is parked until the action finishes. *)
Definition waitForAction (actionId : string) (cb : callback) (m : manager)
  : manager * option bool :=
  match get actionId (actionStates m) with
  | Some state =>
      if terminal (status state)
      then (m, Some match status state with completed => true | _ => false end)
      else (onActionComplete actionId cb m, None)
  | None => (onActionComplete actionId cb m, None)
  end.

Definition hasActiveAction (m : manager) : bool :=
  match activeAction m with Some _ => true | None => false end.

Definition getActiveActionId (m : manager) : option string := activeAction m.

Definition getActionState (actionId : string) (m : manager)
  : option ActionState := get actionId (actionStates m).

(** [waitForAllActions]: [checkComplete] runs at once and then every 50 ms;
    [polls] is the manager as each successive run finds it.  The result is
    the number of 50 ms timers armed before the promise resolved ([None]:
    still waiting after the last poll given). *)
Fixpoint waitForAllActions (polls : list manager) : option nat :=
  match polls with
  | [] => None
  | m :: later =>
      if hasActiveAction m
      then option_map S (waitForAllActions later)
      else Some 0%nat
  end.

(** [a.endTime || 0]. *)
Definition endTimeOrZero (st : ActionState) : Z :=
  match endTime st with Some t => t | None => 0 end.

(** [Array.prototype.sort] with comparator [a.endTime - b.endTime]:
    ascending and stable. *)
Fixpoint insertByEndTime (x : string * ActionState)
    (l : list (string * ActionState)) : list (string * ActionState) :=
  match l with
  | [] => [x]
  | y :: l' =>
      if (endTimeOrZero (snd x) <? endTimeOrZero (snd y))%Z
      then x :: l
      else y :: insertByEndTime x l'
  end.

Definition sortByEndTime (l : list (string * ActionState))
  : list (string * ActionState) :=
  fold_left (fun acc x => insertByEndTime x acc) l [].

Definition cleanup (m : manager) : manager :=
  let finished :=
    filter (fun e => terminal (status (snd e))) (actionStates m) in
  if (10 <? List.length finished)%nat then
    let toRemove :=
      firstn (List.length finished - 10) (sortByEndTime finished) in
    fold_left
      (fun acc e =>
         {| actionStates := delete (fst e) (actionStates acc);
            completionCallbacks := delete (fst e) (completionCallbacks acc);
            activeAction := activeAction acc |})
      toRemove m
  else m.

(** ** Sequences of calls *)

Inductive call : Type :=
| StartAction (now : Z) (actionId type : string)
| SetActionInProgress (actionId : string)
| CompleteAction (now : Z) (actionId : string)
| FailAction (now : Z) (actionId err : string)
| OnActionComplete (actionId : string) (cb : callback)
| WaitForAction (actionId : string) (cb : callback)
| Cleanup.

Definition step (m : manager) (c : call) : manager :=
  match c with
  | StartAction now a t => startAction now a t m
  | SetActionInProgress a => setActionInProgress a m
  | CompleteAction now a => fst (completeAction now a m)
  | FailAction now a e => fst (failAction now a e m)
  | OnActionComplete a cb => onActionComplete a cb m
  | WaitForAction a cb => fst (waitForAction a cb m)
  | Cleanup => cleanup m
  end.

(** The manager after a history of calls on a fresh instance. *)
Definition run (calls : list call) : manager := fold_left step calls empty.

(** ** The window of an action, read off the history

    [in_window calls a]: [startAction a] has been called and neither
    [completeAction a] nor [failAction a] has been called since the last
    such start. *)
Definition window_step (a : string) (open : bool) (c : call) : bool :=
  match c with
  | StartAction _ a' _ => if String.eqb a' a then true else open
  | CompleteAction _ a' | FailAction _ a' _ =>
      if String.eqb a' a then false else open
  | _ => open
  end.

Definition in_window (calls : list call) (a : string) : bool :=
  fold_left (window_step a) calls false.

Definition started (calls : list call) : list string :=
  flat_map (fun c => match c with StartAction _ a _ => [a] | _ => [] end)
           calls.

(** Some action is inside its window. *)
Definition any_in_window (calls : list call) : bool :=
  existsb (in_window calls) (started calls).

(** The action started last, if any. *)
Definition last_started (calls : list call) : option string :=
  last (map Some (started calls)) None.

(** Actions do not overlap: every [startAction] finds no action inside
    its window. *)
Definition start_allowed (before : list call) (c : call) : bool :=
  match c with
  | StartAction _ _ _ => negb (any_in_window before)
  | _ => true
  end.

Fixpoint single_flight_from (before calls : list call) : bool :=
  match calls with
  | [] => true
  | c :: later =>
      start_allowed before c && single_flight_from (before ++ [c]) later
  end.

Definition single_flight (calls : list call) : bool :=
  single_flight_from [] calls.

(** The action started last, provided it is still inside its window. *)
Definition latest_open (calls : list call) : option string :=
  match last_started calls with
  | Some a => if in_window calls a then Some a else None
  | None => None
  end.


(** The specification's wording of the tracker property: for every history
    of calls, [hasActiveAction()] answers whether some action is between
    its [startAction] and the matching [completeAction]/[failAction]. *)
Definition tracks_every_window (calls : list call) : Prop :=
  hasActiveAction (run calls) = any_in_window calls.

(** Twelve actions run one after the other, action [i] (named by the
    letter of that rank) finishing at time [100 - i]. *)
Definition twelveActions : list call :=
  flat_map (fun i =>
              let a := String (ascii_of_nat (97 + i)) EmptyString in
              [StartAction (Z.of_nat i) a "click";
               CompleteAction (100 - Z.of_nat i) a])
           (seq 0 12).

(** The entry belongs to an action that is over. *)
Definition finished (e : string * ActionState) : bool :=
  terminal (status (snd e)).

End ActionStateManager.

(* ------------------------------------------------------------------ *)
(** * The action gateway ([ScriptingMode.ts]) *)

Module ScriptingMode.
Import ActionStateManager.
Local Open Scope string_scope.

Inductive ActionName : Type := click | setValue | navigate | waiting.

Definition nameOf (t : ActionName) : string :=
  match t with
  | click => "click" | setValue => "setValue"
  | navigate => "navigate" | waiting => "waiting"
  end.

(** [type.toUpperCase()]. *)
Definition upperNameOf (t : ActionName) : string :=
  match t with
  | click => "CLICK" | setValue => "SETVALUE"
  | navigate => "NAVIGATE" | waiting => "WAITING"
  end.

(** The payload object, by the properties it owns. *)
Inductive payload : Type :=
| ElementPayload (elementId : JS.number)
| ElementValuePayload (elementId : JS.number) (value : string)
| UrlPayload (url : string)
| SecondsPayload (seconds : JS.number).

(** A thrown value, by the text the handler extracts from it:
    [error instanceof Error ? error.message : String(error)]. *)
Inductive thrown : Type :=
| ErrorObject (message : string)
| OtherValue (asString : string).

Definition errorText (e : thrown) : string :=
  match e with ErrorObject s | OtherValue s => s end.

(** Decimal rendering of an integer in a template literal. *)
Definition decimal (z : Z) : string := NilZero.string_of_int (Z.to_int z).

(** The one-character string holding a double quote. *)
Definition doubleQuote : string := String "034"%char EmptyString.

Record ActionContext : Type := {
  ctxType : ActionName;
  ctxPayload : string;
  ctxStartTime : Z;
  ctxDuration : Z;
  ctxTabId : Z;
  ctxUserAgent : string;
  ctxUrl : string
}.

Record Details : Type := {
  detType : ActionName;
  detPayload : payload;
  detContext : ActionContext;
  detOriginalError : option string
}.

Record ActionResult : Type := {
  success : bool;
  actionId : string;
  duration : Z;
  error : option string;
  details : Details
}.

(** What the browser, the page and the clock answer during one call. *)
Record world : Type := {
  clockForId : Z;                 (* Date.now() inside the action id *)
  randomSuffix : string;          (* Math.random().toString(36).substr(2, 9) *)
  clockAtStart : Z;               (* const startTime = Date.now() *)
  clockInStartAction : Z;         (* Date.now() inside startAction *)
  tabId : Z;                      (* useAppState.getState().currentTask.tabId *)
  tabsQuery : outcome thrown (option (option string));
                                  (* chrome.tabs.query: tabs[0] and its url *)
  userAgentScript : outcome thrown (option string);
                                  (* executeScript(() => navigator.userAgent) *)
  domActions : ActionName -> payload -> outcome thrown unit;
                                  (* await domActions[type](payload) *)
  clockAtEnd : Z;                 (* Date.now() once the executor settled *)
  clockInFinish : Z               (* Date.now() inside completeAction/failAction *)
}.

Section Gateway.
(** Built-ins left abstract: [JSON.stringify] on a payload, the rendering
    of a number in a template literal, and [new URL(u).hostname]
    ([None] when the constructor throws). *)
Variable jsonStringify : payload -> string.
Variable numberToString : JS.number -> string.
Variable urlHostname : string -> option string.

Definition makeActionId (type : ActionName) (w : world) : string :=
  nameOf type ++ "_" ++ decimal (clockForId w) ++ "_" ++ randomSuffix w.

(** The context-gathering block: its own [try]/[catch] swallows every
    failure.  Returns [(url, userAgent)]. *)
Definition gatherContext (w : world) : string * string :=
  match tabsQuery w with
  | Resolved tab =>
      let url :=
        match tab with
        | Some (Some u) => if JS.nonEmpty u then u else "unknown"
        | Some None => "unknown"
        | None => EmptyString
        end in
      let ua :=
        match userAgentScript w with
        | Resolved (Some s) => s
        | Resolved None => EmptyString
        | Rejected _ => EmptyString
        end in
      (url, ua)
  | Rejected _ => (EmptyString, EmptyString)
  end.

Definition elementIdOf (p : payload) : option JS.number :=
  match p with
  | ElementPayload i | ElementValuePayload i _ => Some i
  | _ => None
  end.

Definition buildErrorMessage (type : ActionName) (p : payload)
    (ctx : ActionContext) (err : thrown) : string :=
  let m0 := "DOM Action failed: " ++ upperNameOf type
            ++ " operation unsuccessful. " in
  let m1 := m0 ++ "Duration: " ++ decimal (ctxDuration ctx) ++ "ms. " in
  let m2 := if (ctxTabId ctx =? 0)%Z then m1
            else m1 ++ "Tab ID: " ++ decimal (ctxTabId ctx) ++ ". " in
  let m3 :=
    if JS.nonEmpty (ctxUrl ctx) && negb (String.eqb (ctxUrl ctx) "unknown")
    then match urlHostname (ctxUrl ctx) with
         | Some host => m2 ++ "Domain: " ++ host ++ ". "
         | None => m2 ++ "URL: " ++ ctxUrl ctx ++ ". "
         end
    else m2 in
  let m4 :=
    match type, elementIdOf p, p with
    | click, Some i, _ => m3 ++ "Element ID: " ++ numberToString i ++ ". "
    | setValue, Some i, ElementValuePayload _ v =>
        let m := m3 ++ "Element ID: " ++ numberToString i ++ ". " in
        if JS.nonEmpty v then
          let preview :=
            if (50 <? String.length v)%nat
            then String.substring 0 50 v ++ "..." else v in
          m ++ "Value length: " ++ decimal (Z.of_nat (String.length v))
            ++ " chars, Preview: " ++ doubleQuote ++ preview
            ++ doubleQuote ++ ". "
        else m
    | setValue, Some i, _ => m3 ++ "Element ID: " ++ numberToString i ++ ". "
    | navigate, _, UrlPayload u => m3 ++ "Target URL: " ++ u ++ ". "
    | _, _, _ => m3
    end in
  let m5 :=
    if JS.nonEmpty (ctxUserAgent ctx) then
      m4 ++ "Browser: "
         ++ (if JS.includes "Chrome" (ctxUserAgent ctx) then "Chrome"
             else if JS.includes "Firefox" (ctxUserAgent ctx) then "Firefox"
             else if JS.includes "Safari" (ctxUserAgent ctx) then "Safari"
             else "Unknown") ++ ". "
    else m4 in
  let originalError := errorText err in
  if JS.includes "operation failed for element" originalError
     || JS.includes "Navigation operation failed" originalError
  then m5 ++ "Details: " ++ originalError
  else m5 ++ "Underlying error: " ++ originalError.

(** The body of the outer [try], after context gathering: everything up
    to and including the [return] of the success result.  The only
    statement that can throw is the awaited executor. *)
Definition tryBody (type : ActionName) (p : payload) (w : world)
    (ctx : ActionContext) (m : manager)
  : manager * outcome thrown ActionResult :=
  let id := makeActionId type w in
  let m1 := setActionInProgress id m in
  match domActions w type p with
  | Rejected err => (m1, Rejected err)
  | Resolved tt =>
      let ctx' :=
        {| ctxType := ctxType ctx; ctxPayload := ctxPayload ctx;
           ctxStartTime := ctxStartTime ctx;
           ctxDuration := clockAtEnd w - clockAtStart w;
           ctxTabId := ctxTabId ctx; ctxUserAgent := ctxUserAgent ctx;
           ctxUrl := ctxUrl ctx |} in
      let m2 := fst (completeAction (clockInFinish w) id m1) in
      (m2, Resolved {| success := true;
                       actionId := id;
                       duration := ctxDuration ctx';
                       error := None;
                       details := {| detType := type; detPayload := p;
                                     detContext := ctx';
                                     detOriginalError := None |} |})
  end.

(** The [catch] block. *)
Definition catchBlock (type : ActionName) (p : payload) (w : world)
    (ctx : ActionContext) (m : manager) (err : thrown)
  : manager * ActionResult :=
  let id := makeActionId type w in
  let ctx' :=
    {| ctxType := ctxType ctx; ctxPayload := ctxPayload ctx;
       ctxStartTime := ctxStartTime ctx;
       ctxDuration := clockAtEnd w - clockAtStart w;
       ctxTabId := ctxTabId ctx; ctxUserAgent := ctxUserAgent ctx;
       ctxUrl := ctxUrl ctx |} in
  let errorMessage := buildErrorMessage type p ctx' err in
  let m' := fst (failAction (clockInFinish w) id errorMessage m) in
  (m', {| success := false;
          actionId := id;
          duration := ctxDuration ctx';
          error := Some errorMessage;
          details := {| detType := type; detPayload := p;
                        detContext := ctx';
                        detOriginalError := Some (errorText err) |} |}).

(** [callDOMAction(type, payload)] against the singleton tracker [m]:
    the promise it returns, and the tracker once it has settled. *)
Definition callDOMAction (type : ActionName) (p : payload) (w : world)
    (m : manager) : manager * outcome thrown ActionResult :=
  let id := makeActionId type w in
  let m0 := startAction (clockInStartAction w) id (nameOf type) m in
  let '(url, ua) := gatherContext w in
  let ctx :=
    {| ctxType := type; ctxPayload := jsonStringify p;
       ctxStartTime := clockAtStart w; ctxDuration := 0;
       ctxTabId := tabId w; ctxUserAgent := ua; ctxUrl := url |} in
  match tryBody type p w ctx m0 with
  | (m1, Resolved r) => (m1, Resolved r)
  | (m1, Rejected err) =>
      let '(m2, r) := catchBlock type p w ctx m1 err in
      (m2, Resolved r)
  end.

End Gateway.

End ScriptingMode.

(* ------------------------------------------------------------------ *)
(** * Element identities in the content script
      ([pages/Content/getAnnotatedDOM.ts]) *)

Module GetAnnotatedDOM.

(** A live element of the page, by reference. *)
Definition element : Type := nat.

Local Unset Elimination Schemes.
Inductive node : Type :=
| ElementNode (e : element) (childNodes : list node)
| OtherNode.
Local Set Elimination Schemes.

(** The content script's state: the module variable [currentElements], and
    on the page side the value each element holds for the identity
    attribute [NODE_ID_SELECTOR] ([None]: attribute absent). *)
Record content : Type := {
  currentElements : list element;
  identity : element -> option string
}.

(** [traverseDOM], the [pageElements] it builds (the clone it returns is
    not needed here): elements are pushed in document order. *)
Fixpoint traverseDOM (n : node) (pageElements : list element)
  : list element :=
  match n with
  | ElementNode e childNodes =>
      fold_left (fun acc child => traverseDOM child acc) childNodes
                (pageElements ++ [e])
  | OtherNode => pageElements
  end.

Definition getAnnotatedDOM (documentElement : node) (c : content) : content :=
  {| currentElements := traverseDOM documentElement [];
     identity := identity c |}.

(** [element.setAttribute(NODE_ID_SELECTOR, uniqueId)]. *)
Definition setIdentity (e : element) (uniqueId : string) (c : content)
  : content :=
  {| currentElements := currentElements c;
     identity := fun e' => if Nat.eqb e' e then Some uniqueId
                           else identity c e' |}.

(** [s.substring(2, 10)]. *)
Definition substring_2_10 (s : string) : string := String.substring 2 8 s.

Inductive error : Type :=
| TypeError.   (* currentElements[id] is undefined *)

(** [getUniqueElementSelectorId(id)].  [random36] is what
    [Math.random().toString(36)] evaluates to if this call reaches it. *)
Definition getUniqueElementSelectorId (id : nat) (random36 : string)
    (c : content) : content * outcome error string :=
  match nth_error (currentElements c) id with
  | None => (c, Rejected TypeError)
  | Some e =>
      let assign :=
        let uniqueId := substring_2_10 random36 in
        (setIdentity e uniqueId c, Resolved uniqueId) in
      match identity c e with
      | Some uniqueId => if JS.nonEmpty uniqueId then (c, Resolved uniqueId)
                         else assign
      | None => assign
      end
  end.

(** Two calls in a row for the same index, with no [getAnnotatedDOM] in
    between. *)
Definition resolveTwice (id : nat) (random1 random2 : string) (c : content)
  : outcome error string * outcome error string :=
  let '(c1, r1) := getUniqueElementSelectorId id random1 c in
  let '(_, r2) := getUniqueElementSelectorId id random2 c1 in
  (r1, r2).

(** The elements of a tree in document order. *)
Fixpoint elementsOf (n : node) : list element :=
  match n with
  | ElementNode e childNodes => e :: flat_map elementsOf childNodes
  | OtherNode => []
  end.

(** The content script after the page has been annotated again, once for
    each of [documents]. *)
Definition reannotated (documents : list node) (c : content) : content :=
  fold_left (fun acc d => getAnnotatedDOM d acc) documents c.

End GetAnnotatedDOM.

(* ------------------------------------------------------------------ *)
(** * Geometry read from the page *)

Module DOM.

(** A [DOMRect] as [getBoundingClientRect()] returns it. *)
Record Rect : Type := {
  top : JS.number;
  right : JS.number;
  bottom : JS.number;
  left : JS.number;
  width : JS.number;
  height : JS.number
}.

(** [window.innerWidth] and [window.innerHeight]. *)
Record Viewport : Type := {
  innerWidth : JS.number;
  innerHeight : JS.number
}.

(** The element has no area: [rect.width <= 0 || rect.height <= 0]. *)
Definition noDimensions (r : Rect) : bool :=
  ((width r <=? 0) || (height r <=? 0))%float.

End DOM.

(* ------------------------------------------------------------------ *)
(** * The coordinate engine ([core/coordinates.ts]) *)

Module Coordinates.
Import DOM.

Definition MAX_RETRIES : nat := 3.
Definition RETRY_DELAY : Z := 75.
Definition VIEWPORT_MARGIN : JS.number := 50%float.
Definition MAX_COORDINATE_VALUE : JS.number := 10000%float.

Record ElementCoordinates : Type := { x : JS.number; y : JS.number }.

Record ComputedStyle : Type := {
  display : string;
  visibility : string;
  opacity : string
}.

(** The page as the injected script finds it: the element carrying the
    identity attribute, if any, with its rectangle and computed style, and
    the window size. *)
Record page : Type := {
  target : option (Rect * ComputedStyle);
  window : Viewport
}.

(** The object the injected script returns. *)
Inductive scriptAnswer : Type :=
| AnswerError (error : string) (elementExists : bool) (rect : option Rect)
              (computedStyle : option ComputedStyle)
| AnswerCoordinates (cx cy : JS.number) (isVisible : bool) (rect : Rect)
                    (viewport : Viewport).

Definition coordinateScript (margin : JS.number) (pg : page) : scriptAnswer :=
  match target pg with
  | None => AnswerError "Element not found in DOM" false None None
  | Some (rect, style) =>
      if noDimensions rect
      then AnswerError "Element has no dimensions" true (Some rect) (Some style)
      else
        let inViewport :=
          ((- margin <? bottom rect)
           && (- margin <? right rect)
           && (top rect <? innerHeight (window pg) + margin)
           && (left rect <? innerWidth (window pg) + margin))%float in
        AnswerCoordinates (left rect + width rect / 2)%float
                          (top rect + height rect / 2)%float
                          inViewport rect (window pg)
  end.

(** What one iteration of the retry loop observes: the element lookup, the
    coordinate script ([Resolved None]: [executeScript] produced no result),
    and the in-page [scrollIntoView] script that runs only for an element
    outside the viewport. *)
Record attempt : Type := {
  lookup : outcome string string;
  script : outcome string (option page);
  scrollScript : outcome string bool
}.

(** Messages of the errors thrown inside the [try]. *)
Inductive thrownMessage : Type :=
| ExternalFailure (message : string)
| FailedToGet (answer : scriptAnswer)
| ReturnedNull
| ComputedInvalid (cx cy : JS.number) (rect : Rect) (viewport : Viewport).

(** Values of [lastError]. *)
Inductive reason : Type :=
| NoReason
| ScriptError (error : string)
| NullCoordinates
| NotInViewport (rect : Rect) (viewport : Viewport)
| InvalidCoordinates (cx cy : JS.number)
| Caught (message : thrownMessage).

Record state : Type := {
  lastError : reason;
  lastRect : option Rect;
  elementFound : bool
}.

(** The errors [getCenterCoordinates] rejects with: the one built in the
    [catch] block on the last attempt, and the one after the loop. *)
Inductive error : Type :=
| FailedAfterAttempts (lastRect : option Rect) (elementFound : bool)
                      (lastError : reason)
| FailedAfterMultipleAttempts (lastError : reason).

Inductive flow : Type :=
| Returned (c : ElementCoordinates)
| ContinueAfter (ms : Z).

Definition isLastAttempt (attempts : nat) : bool :=
  Nat.eqb attempts (MAX_RETRIES - 1).

Definition backoff (attempts : nat) : Z :=
  RETRY_DELAY * (Z.of_nat attempts + 1).

(** The validation before returning. *)
Definition invalid (cx cy : JS.number) : bool :=
  (JS.isNaN cx || JS.isNaN cy
   || (cx <? 0) || (cy <? 0)
   || (MAX_COORDINATE_VALUE <? cx) || (MAX_COORDINATE_VALUE <? cy))%float.

(** The body of the [try] in iteration [attempts]. *)
Definition tryBody (attempts : nat) (a : attempt) (st : state)
  : state * outcome thrownMessage flow :=
  let retry st' (msg : thrownMessage) :=
    if isLastAttempt attempts then (st', Rejected msg)
    else (st', Resolved (ContinueAfter (backoff attempts))) in
  match lookup a with
  | Rejected msg => (st, Rejected (ExternalFailure msg))
  | Resolved uniqueId =>
      match script a with
      | Rejected msg => (st, Rejected (ExternalFailure msg))
      | Resolved None =>
          retry {| lastError := NullCoordinates; lastRect := lastRect st;
                   elementFound := elementFound st |} ReturnedNull
      | Resolved (Some pg) =>
          match coordinateScript VIEWPORT_MARGIN pg with
          | AnswerError err elementExists rect style =>
              retry {| lastError := ScriptError err; lastRect := rect;
                       elementFound := elementExists |}
                    (FailedToGet (AnswerError err elementExists rect style))
          | AnswerCoordinates cx cy isVisible rect viewport =>
              if negb isVisible then
                let st' := {| lastError := NotInViewport rect viewport;
                              lastRect := Some rect;
                              elementFound := elementFound st |} in
                match scrollScript a with
                | Rejected msg => (st', Rejected (ExternalFailure msg))
                | Resolved _ => (st', Resolved (ContinueAfter RETRY_DELAY))
                end
              else if invalid cx cy then
                retry {| lastError := InvalidCoordinates cx cy;
                         lastRect := Some rect;
                         elementFound := elementFound st |}
                      (ComputedInvalid cx cy rect viewport)
              else (st, Resolved (Returned {| x := cx; y := cy |}))
          end
      end
  end.

(** A finished call: how the promise settled, how many iterations of the
    loop were entered, and the delays slept in between. *)
Record run : Type := {
  result : outcome error ElementCoordinates;
  attemptsMade : nat;
  slept : list Z
}.

(** [for (attempts = 0; attempts < MAX_RETRIES; attempts++)], with
    [remaining = MAX_RETRIES - attempts]. *)
Fixpoint loop (remaining attempts : nat) (observe : nat -> attempt)
    (st : state) (sleeps : list Z) : run :=
  match remaining with
  | O => {| result := Rejected (FailedAfterMultipleAttempts (lastError st));
            attemptsMade := attempts; slept := sleeps |}
  | S remaining' =>
      match tryBody attempts (observe attempts) st with
      | (_, Resolved (Returned c)) =>
          {| result := Resolved c; attemptsMade := S attempts;
             slept := sleeps |}
      | (st', Resolved (ContinueAfter ms)) =>
          loop remaining' (S attempts) observe st' (sleeps ++ [ms])
      | (st', Rejected msg) =>
          if isLastAttempt attempts
          then {| result := Rejected (FailedAfterAttempts
                                        (lastRect st') (elementFound st')
                                        (Caught msg));
                  attemptsMade := S attempts; slept := sleeps |}
          else loop remaining' (S attempts) observe
                    {| lastError := Caught msg; lastRect := lastRect st';
                       elementFound := elementFound st' |}
                    (sleeps ++ [backoff attempts])
      end
  end.

Definition getCenterCoordinates (observe : nat -> attempt) : run :=
  loop MAX_RETRIES 0 observe
       {| lastError := NoReason; lastRect := None; elementFound := false |} [].

(** A coordinate the contract accepts: not NaN and within
    [[0, MAX_COORDINATE_VALUE]]. *)
Definition withinBounds (v : JS.number) : bool :=
  (negb (JS.isNaN v) && (0 <=? v) && (v <=? MAX_COORDINATE_VALUE))%float.

(** The shape of a settled call that has entered the loop more than
    [attempts] times. *)
Definition settles_within (attempts : nat) (r : run) : Prop :=
  match result r with
  | Resolved c =>
      withinBounds (x c) = true /\ withinBounds (y c) = true
      /\ (attempts < attemptsMade r <= MAX_RETRIES)%nat
  | Rejected _ => attemptsMade r = MAX_RETRIES
  end.

(** Sample pages: a button of 20 x 30 at (10, 10), the same button far
    below the fold, and a collapsed element, in an 800 x 600 window. *)
Definition buttonRect : Rect :=
  {| top := 10; right := 30; bottom := 40; left := 10;
     width := 20; height := 30 |}%float.

Definition farBelowRect : Rect :=
  {| top := 5000; right := 30; bottom := 5030; left := 10;
     width := 20; height := 30 |}%float.

Definition emptyRect : Rect :=
  {| top := 10; right := 10; bottom := 10; left := 10;
     width := 0; height := 0 |}%float.

Definition shows (r : Rect) : attempt :=
  {| lookup := Resolved "k3x9q2ab"%string;
     script := Resolved (Some
       {| target := Some (r, {| display := "block"; visibility := "visible";
                                opacity := "1" |});
          window := {| innerWidth := 800; innerHeight := 600 |}%float |});
     scrollScript := Resolved true |}.

(** What the script of an attempt found: an element with area whose
    rectangle lies within the margin around the window. *)
Definition sawInViewport (a : attempt) (rect : Rect) : Prop :=
  exists uniqueId pg style,
    lookup a = Resolved uniqueId
    /\ script a = Resolved (Some pg)
    /\ target pg = Some (rect, style)
    /\ noDimensions rect = false
    /\ ((- VIEWPORT_MARGIN <? bottom rect)
        && (- VIEWPORT_MARGIN <? right rect)
        && (top rect <? innerHeight (window pg) + VIEWPORT_MARGIN)
        && (left rect <? innerWidth (window pg) + VIEWPORT_MARGIN))%float
       = true.


End Coordinates.

(* ------------------------------------------------------------------ *)
(** * The scroll engine ([actions/scroll.ts]) *)

Module Scroll.
Import DOM.

Definition MAX_RETRIES : nat := 3.
Definition VIEWPORT_TOLERANCE : JS.number := 10%float.

(** The delays the function sleeps: [WAIT_TIME] (300 ms) before a successful
    return, and [RETRY_DELAY_BASE * Math.pow(1.2, attempt)] between
    attempts. *)
Inductive delay : Type :=
| WaitTime
| RetryDelay (attempt : nat).

Record Position : Type := {
  px : JS.number; py : JS.number; pwidth : JS.number; pheight : JS.number
}.

Definition positionOf (r : Rect) : Position :=
  {| px := left r; py := top r; pwidth := width r; pheight := height r |}.

(** The [ScrollResult] object of the injected script; [None] is a property
    the object does not have. *)
Record ScrollResult : Type := {
  success : bool;
  reason : option string;
  position : option Position;
  isFullyVisible : option bool;
  isPartiallyVisible : option bool;
  madeProgress : option bool
}.

(** Truthiness of an optional boolean property. *)
Definition isTrue (b : option bool) : bool :=
  match b with Some true => true | _ => false end.

(** An ancestor met while looking for a scrollable container: whether its
    computed overflow makes it scrollable, whether its content overflows
    ([scrollHeight > clientHeight]) and whether its [scrollTo] throws. *)
Record ancestor : Type := {
  scrollable : bool;
  overflowing : bool;
  scrollToThrows : bool
}.

(** The target element as the script finds it. *)
Record scrollTarget : Type := {
  initialRect : Rect;
  ancestors : list ancestor;       (* parents, up to [document.body] *)
  centerThrows : bool;             (* scrollIntoView, block 'center' *)
  nearestThrows : bool;            (* scrollIntoView, block 'nearest' *)
  windowScrollThrows : bool;       (* window.scroll *)
  windowScrollToThrows : bool;     (* window.scrollTo *)
  newRect : Rect                   (* the rectangle when the timer fires *)
}.

Record scrollPage : Type := {
  target : option scrollTarget;
  window : Viewport
}.

(** Method 1: the first scrollable, overflowing ancestor whose [scrollTo]
    does not throw. *)
Fixpoint foundScrollableParent (l : list ancestor) : bool :=
  match l with
  | [] => false
  | a :: l' =>
      if scrollable a && overflowing a && negb (scrollToThrows a) then true
      else foundScrollableParent l'
  end.

(** Methods 1 to 5: whether some scroll call went through. *)
Definition scrollAttempted (t : scrollTarget) : bool :=
  if foundScrollableParent (ancestors t) then true
  else if negb (centerThrows t) then true
  else if negb (nearestThrows t) then true
  else if negb (windowScrollThrows t) then true
  else negb (windowScrollToThrows t).

(** The verification run by the timer. *)
Definition verify (tolerance : JS.number) (vp : Viewport)
    (initial new : Rect) : ScrollResult :=
  let viewportHeight := innerHeight vp in
  let viewportWidth := innerWidth vp in
  let expandedTolerance := (tolerance * 3)%float in
  let fully :=
    ((- expandedTolerance <=? top new)
     && (- expandedTolerance <=? left new)
     && (bottom new <=? viewportHeight + expandedTolerance)
     && (right new <=? viewportWidth + expandedTolerance))%float in
  let partially :=
    ((top new <? viewportHeight + expandedTolerance)
     && (- expandedTolerance <? bottom new)
     && (left new <? viewportWidth + expandedTolerance)
     && (- expandedTolerance <? right new))%float in
  let progress :=
    ((5 <? JS.abs (top new - top initial))
     || (5 <? JS.abs (left new - left initial)))%float in
  let centerNear :=
    ((- expandedTolerance <=? left new + width new / 2)
     && (left new + width new / 2 <=? viewportWidth + expandedTolerance)
     && (- expandedTolerance <=? top new + height new / 2)
     && (top new + height new / 2 <=? viewportHeight + expandedTolerance))%float in
  let tenPercent :=
    (width new * height new * 0x1.999999999999ap-4   (* 0.1 *)
     <=? JS.max 0 (JS.min (right new) viewportWidth - JS.max (left new) 0)
         * JS.max 0 (JS.min (bottom new) viewportHeight - JS.max (top new) 0))%float in
  let acceptably := partially && (centerNear || tenPercent || progress) in
  {| success := fully || acceptably;
     reason := Some (if fully then "Fully visible"
                     else if acceptably then "Acceptably visible"
                     else if progress then "Made progress but not visible"
                     else "Still not visible")%string;
     position := Some (positionOf new);
     isFullyVisible := Some fully;
     isPartiallyVisible := Some partially;
     madeProgress := Some progress |}.

(** The injected script of the main path. *)
Definition scrollScript (tolerance : JS.number) (pg : scrollPage)
  : ScrollResult :=
  let plain ok why pos :=
    {| success := ok; reason := Some why; position := pos;
       isFullyVisible := None; isPartiallyVisible := None;
       madeProgress := None |} in
  match target pg with
  | None => plain false "Element not found"%string None
  | Some t =>
      let r := initialRect t in
      if noDimensions r
      then plain false "Element has no dimensions"%string (Some (positionOf r))
      else
        let alreadyVisible :=
          ((- (tolerance * 2) <=? top r)
           && (- (tolerance * 2) <=? left r)
           && (bottom r <=? innerHeight (window pg) + tolerance * 2)
           && (right r <=? innerWidth (window pg) + tolerance * 2))%float in
        if alreadyVisible then
          {| success := true; reason := Some "Already visible"%string;
             position := Some (positionOf r);
             isFullyVisible := Some true; isPartiallyVisible := Some true;
             madeProgress := Some false |}
        else if negb (scrollAttempted t)
        then plain false "No scroll method succeeded"%string None
        else verify tolerance (window pg) r (newRect t)
  end.

(** The page as the last-resort script leaves it: the element's rectangle
    after the forced scroll and the focus attempt. *)
Record lastResortPage : Type := {
  lrTarget : option Rect;
  lrWindow : Viewport
}.

(** The injected script of the last-resort path. *)
Definition lastResortScript (pg : lastResortPage) : bool :=
  match lrTarget pg with
  | None => false
  | Some rect =>
      ((top rect <? innerHeight (lrWindow pg) + 100)
       && (-100 <? bottom rect)
       && (left rect <? innerWidth (lrWindow pg) + 100)
       && (-100 <? right rect))%float
  end.

(** What one iteration observes ([Resolved None]: [executeScript] gave no
    result object). *)
Record attempt : Type := {
  lookup : outcome string string;
  script : outcome string (option scrollPage)
}.

(** What the last-resort block observes, if it runs. *)
Record lastResort : Type := {
  lrLookup : outcome string string;
  lrScript : outcome string (option lastResortPage)
}.

(** The object [scrollIntoView] resolves with. *)
Module Returned.
Record t : Type := {
  success : bool;
  partialSuccess : bool;
  reason : option string
}.
End Returned.

(** Where the returned object was built. *)
Inductive origin : Type :=
| ByAttempt (attempt : nat)         (* [return] inside the [try] *)
| ByLastResort                      (* [return] inside the [catch] *)
| Exhausted.                        (* [return] after the loop *)

Record run : Type := {
  returned : Returned.t;
  via : origin;
  slept : list delay
}.

Record state : Type := {
  bestResult : option ScrollResult;
  anyProgressMade : bool
}.

(** The bookkeeping on a script result that is an object with a [success]
    property. *)
Definition remember (res : ScrollResult) (st : state) : state :=
  {| bestResult :=
       match bestResult st with
       | None => Some res
       | Some best =>
           if success res || isTrue (madeProgress res) then Some res
           else Some best
       end;
     anyProgressMade := anyProgressMade st || isTrue (madeProgress res) |}.

(** The last-resort block: [true] when it returns success. *)
Definition lastResortSucceeds (lr : lastResort) : bool :=
  match lrLookup lr with
  | Rejected _ => false
  | Resolved _ =>
      match lrScript lr with
      | Resolved (Some pg) => lastResortScript pg
      | Resolved None => false
      | Rejected _ => false
      end
  end.

Definition exhausted (st : state) (sleeps : list delay) : run :=
  let partialSuccess :=
    anyProgressMade st
    || match bestResult st with
       | Some best => isTrue (isPartiallyVisible best)
                      || isTrue (madeProgress best)
       | None => false
       end in
  {| returned :=
       {| Returned.success := false;
          Returned.partialSuccess := partialSuccess;
          Returned.reason := match bestResult st with
                 | Some {| reason := Some r |} =>
                     if JS.nonEmpty r then Some r
                     else Some "Failed to scroll element into view after all attempts"%string
                 | _ => Some "Failed to scroll element into view after all attempts"%string
                 end |};
     via := Exhausted; slept := sleeps |}.

Definition succeeded (o : origin) (sleeps : list delay) : run :=
  {| returned := {| Returned.success := true;
                    Returned.partialSuccess := true;
                    Returned.reason := None |};
     via := o; slept := sleeps ++ [WaitTime] |}.

(** [for (attempt = 0; attempt < MAX_RETRIES; attempt++)], with [i] for
    [attempt] and [remaining = MAX_RETRIES - i]. *)
Fixpoint loop (remaining i : nat) (observe : nat -> attempt)
    (lr : lastResort) (st : state) (sleeps : list delay) : run :=
  match remaining with
  | O => exhausted st sleeps
  | S remaining' =>
      let next st' :=
        loop remaining' (S i) observe lr st' (sleeps ++ [RetryDelay i]) in
      let caught :=
        if Nat.eqb i (MAX_RETRIES - 1) && lastResortSucceeds lr
        then succeeded ByLastResort sleeps
        else next st in
      match lookup (observe i) with
      | Rejected _ => caught
      | Resolved _ =>
          match script (observe i) with
          | Rejected _ => caught
          | Resolved None => next st
          | Resolved (Some pg) =>
              let res := scrollScript VIEWPORT_TOLERANCE pg in
              if success res then succeeded (ByAttempt i) sleeps
              else next (remember res st)
          end
      end
  end.

Definition scrollIntoView (observe : nat -> attempt) (lr : lastResort) : run :=
  loop MAX_RETRIES 0 observe lr
       {| bestResult := None; anyProgressMade := false |} [].

(** The rectangle the returning path read for the target element before it
    decided: [initialRect] in the main path, the rectangle checked by the
    last-resort script otherwise. *)
Definition rectAtAttempt (observe : nat -> attempt) (lr : lastResort)
    (o : origin) : option Rect :=
  match o with
  | ByAttempt n =>
      match script (observe n) with
      | Resolved (Some pg) => option_map initialRect (target pg)
      | _ => None
      end
  | ByLastResort =>
      match lrScript lr with
      | Resolved (Some pg) => lrTarget pg
      | _ => None
      end
  | Exhausted => None
  end.

(** The specification's property: a call that returns [success: true] read
    a rectangle with positive width and height. *)
Definition success_needs_dimensions (observe : nat -> attempt)
    (lr : lastResort) : Prop :=
  let r := scrollIntoView observe lr in
  Returned.success (returned r) = true ->
  exists rect, rectAtAttempt observe lr (via r) = Some rect
               /\ noDimensions rect = false.

(** A page on which the target is collapsed ([display: none] gives an
    all-zero rectangle), seen through a 1280 x 720 window. *)
Definition collapsedRect : Rect :=
  {| top := 0; right := 0; bottom := 0; left := 0; width := 0; height := 0 |}%float.

Definition desktop : Viewport :=
  {| innerWidth := 1280; innerHeight := 720 |}%float.

Definition collapsedPage : scrollPage :=
  {| target := Some {| initialRect := collapsedRect; ancestors := [];
                       centerThrows := false; nearestThrows := false;
                       windowScrollThrows := false;
                       windowScrollToThrows := false;
                       newRect := collapsedRect |};
     window := desktop |}.

(** Two attempts in which the script finds the collapsed element, a third
    whose element lookup is rejected, and a last-resort block that goes
    through against the same collapsed element. *)
Definition collapsedThenLookupFails (i : nat) : attempt :=
  if Nat.eqb i 2
  then {| lookup := Rejected "RPC failed"%string; script := Resolved None |}
  else {| lookup := Resolved "k3x9q2ab"%string;
          script := Resolved (Some collapsedPage) |}.

Definition lastResortOnCollapsed : lastResort :=
  {| lrLookup := Resolved "k3x9q2ab"%string;
     lrScript := Resolved (Some {| lrTarget := Some collapsedRect;
                                   lrWindow := desktop |}) |}.


(** A button that is in view, and one below the fold that the scroll
    brings up to (10, 300). *)
Definition inViewPage : scrollPage :=
  {| target := Some {| initialRect :=
                         {| top := 10; right := 30; bottom := 40; left := 10;
                            width := 20; height := 30 |}%float;
                       ancestors := [];
                       centerThrows := false; nearestThrows := false;
                       windowScrollThrows := false;
                       windowScrollToThrows := false;
                       newRect :=
                         {| top := 10; right := 30; bottom := 40; left := 10;
                            width := 20; height := 30 |}%float |};
     window := desktop |}.

Definition belowFoldPage (stuck : bool) : scrollPage :=
  let below := {| top := 5000; right := 30; bottom := 5030; left := 10;
                  width := 20; height := 30 |}%float in
  {| target := Some {| initialRect := below;
                       ancestors := [];
                       centerThrows := false; nearestThrows := false;
                       windowScrollThrows := false;
                       windowScrollToThrows := false;
                       newRect :=
                         if stuck then below
                         else {| top := 300; right := 30; bottom := 330;
                                 left := 10; width := 20;
                                 height := 30 |}%float |};
     window := desktop |}.

Definition finds (pg : scrollPage) : attempt :=
  {| lookup := Resolved "k3x9q2ab"%string; script := Resolved (Some pg) |}.

(** The attempt ended in the [catch] block: the element lookup or the
    injected script was rejected. *)
Definition threw (a : attempt) : bool :=
  match lookup a with
  | Rejected _ => true
  | Resolved _ =>
      match script a with
      | Rejected _ => true
      | Resolved _ => false
      end
  end.

(** The script of the attempt ran and reported success. *)
Definition reportedSuccess (a : attempt) : bool :=
  match lookup a, script a with
  | Resolved _, Resolved (Some pg) => success (scrollScript VIEWPORT_TOLERANCE pg)
  | _, _ => false
  end.

Definition retryDelays (n : nat) : list delay := map RetryDelay (seq 0 n).

Definition succeededResult : Returned.t :=
  {| Returned.success := true; Returned.partialSuccess := true;
     Returned.reason := None |}.

End Scroll.

(* ------------------------------------------------------------------ *)
(** * The stability monitor ([core/stability.ts]) *)

Module Stability.

Definition TIMEOUT : Z := 2000.
Definition POLL_INTERVAL : Z := 25.
Definition CONSISTENT_CHECKS_REQUIRED : Z := 2.
Definition MIN_STABLE_TIME : Z := 100.
Definition MAX_MUTATION_COUNT : Z := 3.
Definition SKIP_STABILITY_THRESHOLD : Z := 500.

(** What the injected script reads from the page. *)
Record pageState : Type := {
  readyStateComplete : bool;
  pendingFetchCount : Z;
  pendingXHRCount : Z;
  loadingImages : nat;
  loadingStylesheets : nat;
  loadingIndicators : nat;
  mutationCount : Z;
  reactDefined : bool;
  reactLoadingElements : nat;
  vueDefined : bool;
  vueLoadingElements : nat;
  emptyContainers : nat;
  pendingTimerCount : Z
}.

Inductive cause : Type :=
| document_not_ready | pending_fetch_requests | pending_xhr_requests
| images_loading | stylesheets_loading | loading_indicators
| high_mutation_count | react_loading_state | vue_loading_state
| empty_content_containers | many_pending_timers.

(** The object the script returns ([details] left out). *)
Record snapshot : Type := {
  isStable : bool;
  reason : option cause
}.

Definition unstable (r : cause) : snapshot :=
  {| isStable := false; reason := Some r |}.

Definition stabilityScript (maxMutations : Z) (p : pageState) : snapshot :=
  if negb (readyStateComplete p) then unstable document_not_ready
  else if (0 <? pendingFetchCount p)%Z then unstable pending_fetch_requests
  else if (0 <? pendingXHRCount p)%Z then unstable pending_xhr_requests
  else if (0 <? loadingImages p)%nat then unstable images_loading
  else if (0 <? loadingStylesheets p)%nat then unstable stylesheets_loading
  else if (0 <? loadingIndicators p)%nat then unstable loading_indicators
  else if (maxMutations <? mutationCount p)%Z then unstable high_mutation_count
  else if reactDefined p && (0 <? reactLoadingElements p)%nat
       then unstable react_loading_state
  else if vueDefined p && (0 <? vueLoadingElements p)%nat
       then unstable vue_loading_state
  else if (0 <? emptyContainers p)%nat then unstable empty_content_containers
  else if (2 <? pendingTimerCount p)%Z then unstable many_pending_timers
  else {| isStable := true; reason := None |}.

(** One run of [checkStability]: what [executeScript] gave ([Resolved None]:
    no result in the answer) and what [Date.now()] read afterwards. *)
Record poll : Type := {
  domSnapshot : outcome string (option pageState);
  currentTime : Z
}.

Inductive logEntry : Type :=
| StabilityAchieved
| NotStable (r : option cause)
| TimeoutExceeded (r : option cause)
| ErrorChecking.

(** State of a promise. *)
Inductive settlement : Type :=
| Unsettled
| Fulfilled
| Failed (e : string).

Record run : Type := {
  promise : settlement;
  log : list logEntry;
  timersArmed : nat          (* setTimeout(checkStability, POLL_INTERVAL) *)
}.

Record state : Type := {
  lastStableTime : Z;
  consistentStableChecks : Z;
  lastStabilityResult : option snapshot
}.

Definition wasStable (st : state) : bool :=
  match lastStabilityResult st with
  | Some s => isStable s
  | None => false
  end.

(** [checkStability], re-armed by its timer as long as [polls] lasts. *)
Fixpoint checkStability (startTime : Z) (polls : list poll) (st : state)
    (lg : list logEntry) (timers : nat) : run :=
  match polls with
  | [] => {| promise := Unsettled; log := lg; timersArmed := timers |}
  | p :: later =>
      match domSnapshot p with
      | Resolved (Some pg) =>
          let result := stabilityScript MAX_MUTATION_COUNT pg in
          let now := currentTime p in
          let checks :=
            if isStable result
            then if wasStable st then consistentStableChecks st + 1 else 1
            else 0 in
          let stableSince :=
            if isStable result && negb (wasStable st) then now
            else lastStableTime st in
          if isStable result
             && (CONSISTENT_CHECKS_REQUIRED <=? checks)
             && (MIN_STABLE_TIME <=? now - stableSince)
          then {| promise := Fulfilled; log := lg ++ [StabilityAchieved];
                  timersArmed := timers |}
          else
            let lg' := if isStable result then lg
                       else lg ++ [NotStable (reason result)] in
            if TIMEOUT <? now - startTime
            then {| promise := Fulfilled;
                    log := lg' ++ [TimeoutExceeded (reason result)];
                    timersArmed := timers |}
            else checkStability startTime later
                   {| lastStableTime := stableSince;
                      consistentStableChecks := checks;
                      lastStabilityResult := Some result |}
                   lg' (S timers)
      | Resolved None | Rejected _ =>
          (* the catch block: log, re-arm the timer *)
          checkStability startTime later st (lg ++ [ErrorChecking]) (S timers)
      end
  end%Z.

Definition checkPageLoadingAndStability (startTime : Z) (polls : list poll)
  : run :=
  checkStability startTime polls
    {| lastStableTime := 0; consistentStableChecks := 0;
       lastStabilityResult := None |} [] 0.

(** The module-level cache. *)
Record cache : Type := {
  lastStabilityCheck : Z;
  lastStabilityOk : bool        (* the module variable lastStabilityResult *)
}.

Definition initialCache : cache :=
  {| lastStabilityCheck := 0; lastStabilityOk := true |}.

(** [ensurePageStability]: [now] is its first [Date.now()], [setup] the
    outcome of injecting the monitors, [startTime] the clock when the
    polling promise is created. *)
Definition ensurePageStability (c : cache) (now : Z)
    (setup : outcome string unit) (startTime : Z) (polls : list poll)
  : cache * run :=
  if lastStabilityOk c && (now - lastStabilityCheck c <? SKIP_STABILITY_THRESHOLD)%Z
  then (c, {| promise := Fulfilled; log := []; timersArmed := 0 |})
  else
    let r := checkPageLoadingAndStability startTime polls in
    match promise r with
    | Fulfilled => ({| lastStabilityCheck := now; lastStabilityOk := true |}, r)
    | Failed e =>
        ({| lastStabilityCheck := lastStabilityCheck c;
            lastStabilityOk := false |}, r)
    | Unsettled => (c, r)
    end.

(** The clock has passed the timeout at one of the polls. *)
Definition timeoutElapsed (startTime : Z) (polls : list poll) : bool :=
  existsb (fun p => (TIMEOUT <? currentTime p - startTime)%Z) polls.

(** The specification's property: whatever the polls answer, once the
    2-second timeout has elapsed the wait is over. *)
Definition resolves_by_timeout (startTime : Z) (polls : list poll) : Prop :=
  timeoutElapsed startTime polls = true ->
  promise (checkPageLoadingAndStability startTime polls) = Fulfilled.

(** Every poll answers, and poll [i] runs no earlier than [i] poll
    intervals after the start (each poll is armed by a 25 ms timer). *)
Definition answering (startTime : Z) (polls : list poll) : Prop :=
  forall i p, nth_error polls i = Some p ->
    (exists pg, domSnapshot p = Resolved (Some pg))
    /\ (startTime + POLL_INTERVAL * Z.of_nat i <= currentTime p)%Z.

(** Polls on a tab that refuses script injection: every [executeScript]
    is rejected; the clock reads [times]. *)
Definition rejectedPolls (times : list Z) : list poll :=
  map (fun t => {| domSnapshot :=
                     Rejected "Cannot access contents of the page"%string;
                   currentTime := t |}) times.

(** A page at rest and a page with two fetches in flight. *)
Definition calmPage : pageState :=
  {| readyStateComplete := true; pendingFetchCount := 0;
     pendingXHRCount := 0; loadingImages := 0; loadingStylesheets := 0;
     loadingIndicators := 0; mutationCount := 1; reactDefined := false;
     reactLoadingElements := 0; vueDefined := true; vueLoadingElements := 0;
     emptyContainers := 0; pendingTimerCount := 2 |}.

Definition fetchingPage : pageState :=
  {| readyStateComplete := true; pendingFetchCount := 2;
     pendingXHRCount := 0; loadingImages := 0; loadingStylesheets := 0;
     loadingIndicators := 0; mutationCount := 1; reactDefined := false;
     reactLoadingElements := 0; vueDefined := true; vueLoadingElements := 0;
     emptyContainers := 0; pendingTimerCount := 2 |}.

Definition answers (pg : pageState) (t : Z) : poll :=
  {| domSnapshot := Resolved (Some pg); currentTime := t |}.

(** The poll was answered, by a page the script finds stable. *)
Definition stableAnswer (p : poll) : bool :=
  match domSnapshot p with
  | Resolved (Some pg) => isStable (stabilityScript MAX_MUTATION_COUNT pg)
  | _ => false
  end.

End Stability.

(* ------------------------------------------------------------------ *)
(** * The click executor ([actions/click.ts]) *)

Module Click.

Definition ElementCoordinates : Type := Coordinates.ElementCoordinates.

(** Values of [operationContext.lastError]. *)
Inductive errorNote : Type :=
| ScrollFailed (reason : option string)
| CoordinateDetectionFailed (message : string)
| NotVisibleAtCoordinates
| ReScrollCoordinateFailed (message : string)
| ScrollPhaseFailed (message : string)
| PrimaryClickFailed (message : string)
| ElementLookupFailed (message : string)
| BackupClickFailed (reason : option string)
| OtherError (message : string).

Record OperationContext : Type := {
  scrollAttempted : bool;
  scrollSuccess : bool;
  scrollPartialSuccess : bool;
  coordinatesObtained : bool;
  coordinates : option ElementCoordinates;
  cursorMoved : bool;
  primaryClickAttempted : bool;
  backupClickAttempted : bool;
  lastError : option errorNote
}.

Definition initialContext : OperationContext :=
  {| scrollAttempted := false; scrollSuccess := false;
     scrollPartialSuccess := false; coordinatesObtained := false;
     coordinates := None; cursorMoved := false;
     primaryClickAttempted := false; backupClickAttempted := false;
     lastError := None |}.

Definition noteError (e : errorNote) (c : OperationContext) : OperationContext :=
  {| scrollAttempted := scrollAttempted c; scrollSuccess := scrollSuccess c;
     scrollPartialSuccess := scrollPartialSuccess c;
     coordinatesObtained := coordinatesObtained c;
     coordinates := coordinates c; cursorMoved := cursorMoved c;
     primaryClickAttempted := primaryClickAttempted c;
     backupClickAttempted := backupClickAttempted c;
     lastError := Some e |}.

Definition noteScroll (attempted ok partial : bool) (c : OperationContext)
  : OperationContext :=
  {| scrollAttempted := attempted; scrollSuccess := ok;
     scrollPartialSuccess := partial;
     coordinatesObtained := coordinatesObtained c;
     coordinates := coordinates c; cursorMoved := cursorMoved c;
     primaryClickAttempted := primaryClickAttempted c;
     backupClickAttempted := backupClickAttempted c;
     lastError := lastError c |}.

Definition noteCoordinates (obtained : bool) (xy : option ElementCoordinates)
    (c : OperationContext) : OperationContext :=
  {| scrollAttempted := scrollAttempted c; scrollSuccess := scrollSuccess c;
     scrollPartialSuccess := scrollPartialSuccess c;
     coordinatesObtained := obtained;
     coordinates := xy; cursorMoved := cursorMoved c;
     primaryClickAttempted := primaryClickAttempted c;
     backupClickAttempted := backupClickAttempted c;
     lastError := lastError c |}.

Definition noteMethods (moved primary backup : bool) (c : OperationContext)
  : OperationContext :=
  {| scrollAttempted := scrollAttempted c; scrollSuccess := scrollSuccess c;
     scrollPartialSuccess := scrollPartialSuccess c;
     coordinatesObtained := coordinatesObtained c;
     coordinates := coordinates c; cursorMoved := moved;
     primaryClickAttempted := primary;
     backupClickAttempted := backup;
     lastError := lastError c |}.

(** What [document.elementFromPoint(x, y)] gives, relative to the target. *)
Inductive atPoint : Type :=
| Nothing                       (* null *)
| TheTarget                     (* element === elementAtPoint *)
| InsideTarget                  (* element.contains(elementAtPoint) *)
| AroundTarget                  (* elementAtPoint.contains(element) *)
| DifferentElement.             (* unrelated to the target *)

(** The page as the element-at-point check finds it. *)
Record hitPage : Type := {
  targetFound : bool;           (* querySelector('[data-node-id=...]') *)
  elementFromPoint : atPoint
}.

Definition visibilityScript (pg : hitPage) : bool :=
  if negb (targetFound pg) then false
  else match elementFromPoint pg with
       | Nothing | DifferentElement => false
       | TheTarget | InsideTarget | AroundTarget => true
       end.

(** The primary click script: dispatches mousedown, click, mouseup on
    whatever element is at the point. *)
Definition primaryClickScript (hit : atPoint) : bool :=
  match hit with Nothing => false | _ => true end.

(** The live element as the backup script finds it. *)
Record backupTarget : Type := {
  role : option string;
  tagName : string;                  (* lower-cased *)
  ariaLabelHasOption : bool;         (* aria-label includes 'option:' *)
  ariaExpanded : option string;
  ariaHasPopup : bool;               (* aria-haspopup is truthy *)
  parentIsSelect : bool;
  isHTMLElement : bool;
  domThrows : option string          (* a DOM call in the script throws *)
}.

Record ClickResult : Type := {
  success : bool;
  reason : option string;
  method : option string
}.

Definition clicked (m : string) : ClickResult :=
  {| success := true; reason := None; method := Some m |}.

Definition isString (s : string) (o : option string) : bool :=
  match o with Some s' => String.eqb s s' | None => false end.

Definition truthyAttr (o : option string) : bool :=
  match o with Some s => JS.nonEmpty s | None => false end.

Definition backupClickScript (pg : option backupTarget) : ClickResult :=
  match pg with
  | None => {| success := false; reason := Some "Element not found"%string;
               method := None |}
  | Some t =>
      match domThrows t with
      | Some message =>
          {| success := false; reason := Some message;
             method := Some "failed"%string |}
      | None =>
          let special :=
            isString "option" (role t) || String.eqb (tagName t) "option"
            || (isString "combobox" (role t) && truthyAttr (ariaExpanded t))
            || ariaLabelHasOption t in
          if special && String.eqb (tagName t) "option" && parentIsSelect t
          then clicked "select-option"
          else if special && isString "option" (role t)
          then clicked "aria-option"
          else if special
                  && (isString "combobox" (role t) || ariaHasPopup t)
                  && negb (isString "true" (ariaExpanded t))
          then clicked "combobox-open"
          else if isHTMLElement t then clicked "native"
          else clicked "fallback"
      end
  end.

(** What the page and the helpers answer during one [click] call.  The
    element-at-point check and the primary click receive the coordinates
    they are run with. *)
Record world : Type := {
  initializeCursor : outcome string unit;
  scroll : outcome string Scroll.Returned.t;
  coordinatesAt : nat -> outcome string ElementCoordinates;
  visibilityCheck : ElementCoordinates -> outcome string (option hitPage);
  rescroll : outcome string Scroll.Returned.t;
  coordinatesAfterRescroll : outcome string ElementCoordinates;
  moveCursor : ElementCoordinates -> outcome string bool;
  primaryClick : ElementCoordinates -> outcome string (option atPoint);
  hideCursorAfterPrimary : outcome string unit;
  elementLookup : outcome string string;
  backupClick : outcome string (option (option backupTarget));
  hideCursorAfterBackup : outcome string unit;
  hideCursorOnError : outcome string unit
}.

Definition MAX_COORDINATE_RETRIES : nat := 3.
Definition COORDINATE_STABILITY_THRESHOLD : JS.number := 2%float.

Definition isStableAt (old new : ElementCoordinates) : bool :=
  ((JS.abs (Coordinates.x old - Coordinates.x new)
    <=? COORDINATE_STABILITY_THRESHOLD)
   && (JS.abs (Coordinates.y old - Coordinates.y new)
       <=? COORDINATE_STABILITY_THRESHOLD))%float.

(** [while (!stableCoordinates && retryCount < MAX_COORDINATE_RETRIES)],
    with [remaining = MAX_COORDINATE_RETRIES - retryCount]. *)
Fixpoint coordinateRetries (remaining retryCount : nat) (partial : bool)
    (get : nat -> outcome string ElementCoordinates) (c : OperationContext)
  : OperationContext :=
  match remaining with
  | O => c
  | S remaining' =>
      match get retryCount with
      | Resolved new =>
          match coordinates c with
          | None =>
              coordinateRetries remaining' (S retryCount) partial get
                (noteCoordinates true (Some new) c)
          | Some old =>
              if isStableAt old new
              then noteCoordinates true (Some new) c
              else coordinateRetries remaining' (S retryCount) partial get
                     (noteCoordinates true (Some new) c)
          end
      | Rejected message =>
          let c' := noteError (CoordinateDetectionFailed message) c in
          if partial then c'
          else coordinateRetries remaining' (S retryCount) partial get c'
      end
  end.

(** The outcome of the scroll-and-coordinates phase. *)
Record phase : Type := {
  context : OperationContext;
  useBackupMethod : bool;
  reScrolled : bool
}.

Definition scrollPhase (w : world) (c0 : OperationContext) : phase :=
  let c1 := noteScroll true (scrollSuccess c0) (scrollPartialSuccess c0) c0 in
  match scroll w with
  | Rejected message =>
      {| context := noteError (ScrollPhaseFailed message) c1;
         useBackupMethod := true; reScrolled := false |}
  | Resolved sr =>
      let partial := Scroll.Returned.partialSuccess sr in
      let c2 := noteScroll true (Scroll.Returned.success sr) partial c1 in
      let c3 := if negb (Scroll.Returned.success sr) && negb partial
                then noteError (ScrollFailed (Scroll.Returned.reason sr)) c2 else c2 in
      let c4 := coordinateRetries MAX_COORDINATE_RETRIES 0 partial
                                  (coordinatesAt w) c3 in
      match coordinates c4 with
      | Some xy =>
          match visibilityCheck w xy with
          | Rejected message =>
              {| context := noteError (ScrollPhaseFailed message) c4;
                 useBackupMethod := true; reScrolled := false |}
          | Resolved answer =>
              let isVisible :=
                match answer with
                | Some pg => visibilityScript pg
                | None => false
                end in
              if isVisible then
                {| context := c4; useBackupMethod := false;
                   reScrolled := false |}
              else if partial then
                {| context := noteError NotVisibleAtCoordinates c4;
                   useBackupMethod := false; reScrolled := false |}
              else
                match rescroll w with
                | Rejected message =>
                    {| context := noteError (ScrollPhaseFailed message) c4;
                       useBackupMethod := true; reScrolled := true |}
                | Resolved _ =>
                    match coordinatesAfterRescroll w with
                    | Resolved xy' =>
                        {| context :=
                             noteCoordinates (coordinatesObtained c4)
                                             (Some xy') c4;
                           useBackupMethod := false; reScrolled := true |}
                    | Rejected message =>
                        {| context :=
                             noteError (ReScrollCoordinateFailed message) c4;
                           useBackupMethod := true; reScrolled := true |}
                    end
                end
          end
      | None =>
          {| context := c4; useBackupMethod := partial; reScrolled := false |}
      end
  end.

(** The primary method: [Resolved] when it returns from [click],
    [Rejected] with the message its [catch] block receives. *)
Definition primaryPhase (w : world) (xy : ElementCoordinates)
    (c : OperationContext) : OperationContext * outcome string atPoint :=
  let c1 := noteMethods (cursorMoved c) true (backupClickAttempted c) c in
  match moveCursor w xy with
  | Rejected message => (c1, Rejected message)
  | Resolved moved =>
      let c2 := noteMethods moved true (backupClickAttempted c) c1 in
      match primaryClick w xy with
      | Rejected message => (c2, Rejected message)
      | Resolved (Some hit) =>
          if primaryClickScript hit then
            match hideCursorAfterPrimary w with
            | Resolved _ => (c2, Resolved hit)
            | Rejected message => (c2, Rejected message)
            end
          else (c2, Rejected "No element found at the specified coordinates"%string)
      | Resolved None =>
          (c2, Rejected "No element found at the specified coordinates"%string)
      end
  end.

(** What [click] rejects with: the detailed error built from the operation
    context by [buildClickErrorMessage], or an error passed through. *)
Inductive clickError : Type :=
| Detailed (c : OperationContext)
| PassedThrough (message : string).

(** The outer [catch] block. *)
Definition outerCatch (w : world) (c : OperationContext)
    (thrown : clickError) : OperationContext * outcome clickError unit :=
  match hideCursorOnError w with
  | Rejected message => (c, Rejected (PassedThrough message))
  | Resolved _ =>
      match thrown with
      | Detailed c' => (c, Rejected (Detailed c'))
      | PassedThrough message =>
          if JS.includes "Click operation failed for element" message
          then (c, Rejected (PassedThrough message))
          else let c' := noteError (OtherError message) c in
               (c', Rejected (Detailed c'))
      end
  end.

(** The backup method, run when the primary one was skipped or failed. *)
Definition backupPhase (w : world) (c : OperationContext)
  : OperationContext * outcome clickError unit :=
  let c1 := noteMethods (cursorMoved c) (primaryClickAttempted c) true c in
  match elementLookup w with
  | Rejected message =>
      let c2 := noteError (ElementLookupFailed message) c1 in
      outerCatch w c2 (Detailed c2)
  | Resolved uniqueId =>
      match backupClick w with
      | Rejected message => outerCatch w c1 (PassedThrough message)
      | Resolved None =>
          outerCatch w c1
            (PassedThrough "Cannot read properties of undefined"%string)
      | Resolved (Some pg) =>
          let clickResult := backupClickScript pg in
          if success clickResult then
            match hideCursorAfterBackup w with
            | Resolved _ => (c1, Resolved tt)
            | Rejected message => outerCatch w c1 (PassedThrough message)
            end
          else
            let c2 := noteError (BackupClickFailed (reason clickResult)) c1 in
            outerCatch w c2 (Detailed c2)
      end
  end.

(** A finished [click]: how the promise settled, the operation context at
    that point, whether the re-scroll ran, and the element the primary
    method dispatched its mouse events to, if it did. *)
Record run : Type := {
  result : outcome clickError unit;
  final : OperationContext;
  didReScroll : bool;
  primaryLandedOn : option atPoint
}.

Definition click (w : world) : run :=
  match initializeCursor w with
  | Rejected message =>
      let '(c, r) := outerCatch w initialContext (PassedThrough message) in
      {| result := r; final := c; didReScroll := false;
         primaryLandedOn := None |}
  | Resolved _ =>
      let ph := scrollPhase w initialContext in
      let backup c :=
        let '(c', r) := backupPhase w c in
        {| result := r; final := c'; didReScroll := reScrolled ph;
           primaryLandedOn := None |} in
      match coordinates (context ph), useBackupMethod ph with
      | Some xy, false =>
          match primaryPhase w xy (context ph) with
          | (c, Resolved hit) =>
              {| result := Resolved tt; final := c;
                 didReScroll := reScrolled ph;
                 primaryLandedOn := Some hit |}
          | (c, Rejected message) =>
              backup (noteError (PrimaryClickFailed message) c)
          end
      | _, _ => backup (context ph)
      end
  end.

(** The situation of the specification: the scroll reported partial
    success, coordinates were obtained, and the element-at-point check at
    those coordinates found an element that is not the target. *)
Definition differentElementAfterPartialScroll (w : world) : Prop :=
  exists sr xy pg,
    initializeCursor w = Resolved tt
    /\ scroll w = Resolved sr
    /\ Scroll.Returned.partialSuccess sr = true
    /\ coordinates
         (coordinateRetries MAX_COORDINATE_RETRIES 0 true (coordinatesAt w)
            (noteScroll true (Scroll.Returned.success sr) true initialContext))
       = Some xy
    /\ visibilityCheck w xy = Resolved (Some pg)
    /\ targetFound pg = true
    /\ elementFromPoint pg = DifferentElement.

(** The primary method goes through at [xy]. *)
Definition primarySucceedsAt (w : world) (xy : ElementCoordinates) : bool :=
  match moveCursor w xy, primaryClick w xy, hideCursorAfterPrimary w with
  | Resolved _, Resolved (Some hit), Resolved _ => primaryClickScript hit
  | _, _, _ => false
  end.

(** The specification's reading: in that situation the backup method is
    what runs next. *)
Definition proceeds_to_backup (w : world) : Prop :=
  differentElementAfterPartialScroll w ->
  backupClickAttempted (final (click w)) = true.

(** A page on which an overlay covers the target: the scroll made progress
    only, the coordinates are steady at (120, 340), and the element at that
    point is not the target, for the check and for the click alike. *)
Definition coveredTarget : world :=
  let xy := {| Coordinates.x := 120; Coordinates.y := 340 |}%float in
  {| initializeCursor := Resolved tt;
     scroll := Resolved {| Scroll.Returned.success := false; Scroll.Returned.partialSuccess := true;
                           Scroll.Returned.reason := Some "Made progress but not visible"%string |};
     coordinatesAt := fun _ => Resolved xy;
     visibilityCheck := fun _ =>
       Resolved (Some {| targetFound := true;
                         elementFromPoint := DifferentElement |});
     rescroll := Resolved {| Scroll.Returned.success := false; Scroll.Returned.partialSuccess := false;
                             Scroll.Returned.reason := None |};
     coordinatesAfterRescroll := Resolved xy;
     moveCursor := fun _ => Resolved true;
     primaryClick := fun _ => Resolved (Some DifferentElement);
     hideCursorAfterPrimary := Resolved tt;
     elementLookup := Resolved "k3x9q2ab"%string;
     backupClick := Resolved (Some None);
     hideCursorAfterBackup := Resolved tt;
     hideCursorOnError := Resolved tt |}.


(** The same page when nothing is at the point any more by the time the
    primary click runs, and the live element is a plain button. *)
Definition coveredThenGone : world :=
  {| initializeCursor := initializeCursor coveredTarget;
     scroll := scroll coveredTarget;
     coordinatesAt := coordinatesAt coveredTarget;
     visibilityCheck := visibilityCheck coveredTarget;
     rescroll := rescroll coveredTarget;
     coordinatesAfterRescroll := coordinatesAfterRescroll coveredTarget;
     moveCursor := moveCursor coveredTarget;
     primaryClick := fun _ => Resolved (Some Nothing);
     hideCursorAfterPrimary := Resolved tt;
     elementLookup := Resolved "k3x9q2ab"%string;
     backupClick := Resolved (Some (Some
       {| role := None; tagName := "button"; ariaLabelHasOption := false;
          ariaExpanded := None; ariaHasPopup := false;
          parentIsSelect := false; isHTMLElement := true;
          domThrows := None |}));
     hideCursorAfterBackup := Resolved tt;
     hideCursorOnError := Resolved tt |}.

(** The backup script reported success on the live element. *)
Definition backupClicked (w : world) : Prop :=
  exists pg, backupClick w = Resolved (Some pg)
             /\ success (backupClickScript pg) = true.

(** A page where the target has vanished: no coordinates, and the backup
    lookup fails too. *)
Definition vanished : world :=
  {| initializeCursor := Resolved tt;
     scroll := Resolved {| Scroll.Returned.success := false;
                           Scroll.Returned.partialSuccess := false;
                           Scroll.Returned.reason := Some "Element not found"%string |};
     coordinatesAt := fun _ => Rejected "Failed to get coordinates"%string;
     visibilityCheck := fun _ => Resolved None;
     rescroll := Resolved {| Scroll.Returned.success := false;
                             Scroll.Returned.partialSuccess := false;
                             Scroll.Returned.reason := None |};
     coordinatesAfterRescroll := Rejected "Failed to get coordinates"%string;
     moveCursor := fun _ => Resolved false;
     primaryClick := fun _ => Resolved None;
     hideCursorAfterPrimary := Resolved tt;
     elementLookup := Rejected "Element with ID 7 not found in DOM"%string;
     backupClick := Resolved None;
     hideCursorAfterBackup := Resolved tt;
     hideCursorOnError := Resolved tt |}.

End Click.

(* ------------------------------------------------------------------ *)
(** * The setValue executor ([actions/setValue.ts]) *)

Module SetValue.

(** The character ['\n']. *)
Definition newline : ascii := "010"%char.

Definition isNewline (c : ascii) : bool := Ascii.eqb c newline.

(** ** The page side: the typing script *)

Inductive elementKind : Type :=
| TextArea                      (* instanceof HTMLTextAreaElement *)
| InputElement                  (* instanceof HTMLInputElement *)
| OtherElement.

(** How the enclosing form answers a submission attempt. *)
Record formState : Type := {
  submitNotCancelled : bool;    (* form.dispatchEvent(submitEvent) *)
  submitCallThrows : bool;      (* form.submit() throws *)
  hasSubmitButton : bool        (* button[type=submit], input[type=submit] *)
}.

(** The element being typed into, with what its listeners and the editing
    commands answer. *)
Record element : Type := {
  kind : elementKind;
  isContentEditable : bool;
  value : string;
  selectionStart : nat;
  selectionEnd : nat;
  enclosingForm : option formState;     (* element.closest('form') *)
  keydownPrevented : bool;              (* a listener cancels Enter keydown *)
  insertLineBreakWorks : bool;          (* execCommand('insertLineBreak') *)
  insertHTMLWorks : bool;               (* execCommand('insertHTML', ...) *)
  hasSelectionRange : bool              (* getSelection()?.rangeCount *)
}.

Inductive eventTarget : Type := OnElement | OnForm.

(** What a keystroke does to the page, in order. *)
Inductive effect : Type :=
| DispatchEvent (on : eventTarget) (type : string)
| FormSubmit                            (* form.submit() went through *)
| ClickSubmitButton                     (* the submit button is clicked *)
| ExecCommand (command : string)
| InsertBreakAtSelection                (* range.insertNode(br) *)
| AppendBreak.                          (* element.innerHTML += '<br>' *)

(** The element with its text replaced and the caret collapsed at
    [caret]. *)
Definition setText (v : string) (caret : nat) (el : element) : element :=
  {| kind := kind el; isContentEditable := isContentEditable el;
     value := v; selectionStart := caret; selectionEnd := caret;
     enclosingForm := enclosingForm el;
     keydownPrevented := keydownPrevented el;
     insertLineBreakWorks := insertLineBreakWorks el;
     insertHTMLWorks := insertHTMLWorks el;
     hasSelectionRange := hasSelectionRange el |}.

(** [s.substring(from)]. *)
Definition substringFrom (from : nat) (s : string) : string :=
  String.substring from (String.length s - from) s.

(** [s.substring(0, pos) + '\n' + s.substring(pos')]. *)
Definition spliceNewline (pos pos' : nat) (s : string) : string :=
  (String.substring 0 pos s ++ String newline (substringFrom pos' s))%string.

(** [n || fallback] on numbers. *)
Definition orElse (n fallback : nat) : nat :=
  if Nat.eqb n 0 then fallback else n.

(** The submission attempt on the enclosing form:
    [try { if (form.dispatchEvent(submitEvent)) form.submit() }
     catch (e) { submitButton?.click() }]. *)
Definition submitForm (f : formState) : list effect :=
  DispatchEvent OnForm "submit"
  :: if submitNotCancelled f then
       if submitCallThrows f
       then if hasSubmitButton f then [ClickSubmitButton] else []
       else [FormSubmit]
     else [].

(** The Enter key events: keydown, keypress unless keydown was cancelled,
    keyup. *)
Definition enterKeyEvents (el : element) : list effect :=
  DispatchEvent OnElement "keydown"
  :: (if keydownPrevented el then []
      else [DispatchEvent OnElement "keypress"])
  ++ [DispatchEvent OnElement "keyup"].

(** The ['\n'] branch of the timer callback in [enhancedSetValueScript]. *)
Definition typeNewline (el : element) : element * list effect :=
  let after (el' : element) (fx : list effect) :=
    (el', enterKeyEvents el ++ fx ++ [DispatchEvent OnElement "input"]) in
  match kind el with
  | TextArea =>
      let pos := orElse (selectionStart el) (String.length (value el)) in
      after (setText (spliceNewline pos pos (value el)) (pos + 1) el) []
  | k =>
      if isContentEditable el then
        after el (ExecCommand "insertLineBreak"
                  :: if insertLineBreakWorks el then []
                     else [ExecCommand "insertHTML"])
      else
        match k, keydownPrevented el, enclosingForm el with
        | InputElement, false, Some f => after el (submitForm f)
        | _, _, _ => after el []
        end
  end.

(** The branch for any other character.  Assigning [element.value] leaves
    the caret at the end of the new text. *)
Definition typeRegular (c : ascii) (el : element) : element * list effect :=
  let keys := [DispatchEvent OnElement "keydown";
               DispatchEvent OnElement "keypress";
               DispatchEvent OnElement "keyup"] in
  match kind el with
  | TextArea | InputElement =>
      let v := (value el ++ String c EmptyString)%string in
      (setText v (String.length v) el,
       keys ++ [DispatchEvent OnElement "input"])
  | OtherElement =>
      (el, keys
           ++ (if isContentEditable el then [ExecCommand "insertText"] else [])
           ++ [DispatchEvent OnElement "input"])
  end.

Definition keystroke (c : ascii) (el : element) : element * list effect :=
  if isNewline c then typeNewline el else typeRegular c el.

(** [insertLineBreak(element)]: the editing commands, then the selection
    API, then appending to [innerHTML]. *)
Definition insertLineBreak (el : element) : list effect :=
  ExecCommand "insertLineBreak"
  :: if insertLineBreakWorks el then []
     else ExecCommand "insertHTML"
          :: if insertHTMLWorks el then []
             else if hasSelectionRange el then [InsertBreakAtSelection]
                  else [AppendBreak].

(** [handleEnterKey(element)], the module-level helper: the text area
    branch replaces the selection.  [inDraftEditor] is
    [element.closest('.DraftEditor-root')]; the [change] event that
    [dispatchInputEvents] sends from a 50 ms timer is left out. *)
Definition handleEnterKey (inDraftEditor : bool) (el : element)
  : element * list effect :=
  match kind el with
  | TextArea =>
      let len := String.length (value el) in
      let selStart := orElse (selectionStart el) len in
      let selEnd := orElse (selectionEnd el) len in
      (setText (spliceNewline selStart selEnd (value el)) (selStart + 1) el,
       enterKeyEvents el ++ [DispatchEvent OnElement "input"])
  | k =>
      if isContentEditable el && negb inDraftEditor then
        (el, enterKeyEvents el ++ insertLineBreak el
             ++ [DispatchEvent OnElement "input"])
      else
        match k, keydownPrevented el, enclosingForm el with
        | InputElement, false, Some f => (el, enterKeyEvents el ++ submitForm f)
        | _, _, _ => (el, enterKeyEvents el)
        end
  end.

(** A submission of the form, in any of its three shapes. *)
Definition isSubmission (e : effect) : bool :=
  match e with
  | DispatchEvent OnForm _ | FormSubmit | ClickSubmitButton => true
  | _ => false
  end.

(** The timers the script arms: character [index] is typed [index * 50] ms
    after the script ran, and the [change] event follows the last
    character by 50 ms.  The result pairs each effect with its time. *)
Fixpoint typing (index total : nat) (chars : list ascii) (el : element)
  : element * list (Z * effect) :=
  match chars with
  | [] => (el, [])
  | c :: later =>
      let at_ := (Z.of_nat index * 50)%Z in
      let '(el1, fx) := keystroke c el in
      let change :=
        if Nat.eqb index (total - 1)
        then [((at_ + 50)%Z, DispatchEvent OnElement "change")] else [] in
      let '(el2, rest) := typing (S index) total later el1 in
      (el2, map (fun e => (at_, e)) fx ++ change ++ rest)
  end.

(** The non-Draft.js part of [enhancedSetValueScript] on a focusable
    element: clear the content, arm the timers. *)
Definition enhancedSetValueScript (text : string) (el : element)
  : element * list (Z * effect) :=
  let cleared :=
    match kind el with
    | TextArea | InputElement => setText EmptyString 0 el
    | OtherElement => el
    end in
  typing 0 (String.length text) (list_ascii_of_string text) cleared.

(** ** The extension side: completion tracking *)

Record scriptResult : Type := {
  success : bool;
  elementType : string
}.

(** What the page and the helpers answer to
    [executeSetValueWithCompletion]. *)
Record world : Type := {
  elementLookup : outcome string string;          (* getElementByNodeId *)
  typingScript : outcome string (option scriptResult);
  hideCursor : outcome string unit;               (* in the timer's try *)
  hideCursorAgain : outcome string unit           (* in the timer's catch *)
}.

(** [value.length * 50], 50 ms per character. *)
Definition typingDuration (text : string) : Z :=
  (Z.of_nat (String.length text) * 50)%Z.

(** [typingDuration + 100], the buffer for the final events. *)
Definition totalDuration (text : string) : Z := (typingDuration text + 100)%Z.

(** How the promise of [executeSetValueWithCompletion] settles: at once,
    or by the callback of a timer armed with [delay] when the typing script
    returned ([None]: the callback itself fails before it settles the
    promise). *)
Inductive completion : Type :=
| SettlesAtOnce (how : outcome string unit)
| SettlesByTimer (delay : Z) (how : option (outcome string unit)).

Definition executeSetValueWithCompletion (text : string) (w : world)
  : completion :=
  match elementLookup w with
  | Rejected message => SettlesAtOnce (Rejected message)
  | Resolved uniqueId =>
      match typingScript w with
      | Rejected message => SettlesAtOnce (Rejected message)
      | Resolved None =>
          SettlesAtOnce (Rejected "Primary setValue failed: Unknown error"%string)
      | Resolved (Some result) =>
          if success result then
            SettlesByTimer (totalDuration text)
              match hideCursor w with
              | Resolved _ => Some (Resolved tt)
              | Rejected message =>
                  match hideCursorAgain w with
                  | Resolved _ => Some (Rejected message)
                  | Rejected _ => None
                  end
              end
          else SettlesAtOnce (Rejected "Primary setValue failed"%string)
      end
  end.

(** Non-failing conditions: the element is found, the typing script
    reports success and the cursor can be hidden. *)
Definition nonFailing (w : world) : Prop :=
  (exists uniqueId, elementLookup w = Resolved uniqueId)
  /\ (exists result, typingScript w = Resolved (Some result)
                     /\ success result = true)
  /\ hideCursor w = Resolved tt.

(** Wall-clock behaviour of one run, in milliseconds: when the typing script
    starts in the page, how long until its result is back in the extension,
    how late the timer fires, and how long hiding the cursor takes. *)
Record clock : Type := {
  scriptStart : Z;
  scriptRoundTrip : Z;
  timerLateness : Z;
  hideCursorTime : Z
}.

(** Time passes forward: no latency is negative. *)
Definition forward (k : clock) : Prop :=
  (0 <= scriptRoundTrip k /\ 0 <= timerLateness k /\ 0 <= hideCursorTime k)%Z.

(** What the run adds to the delay of the timer. *)
Definition overhead (k : clock) : Z :=
  (scriptRoundTrip k + timerLateness k + hideCursorTime k)%Z.

(** When a promise that settles by timer settles: the timer is armed when
    the script result arrives, fires [delay] ms later or later still, and
    its callback first hides the cursor. *)
Definition settledAt (k : clock) (c : completion) : option Z :=
  match c with
  | SettlesByTimer delay _ =>
      Some (scriptStart k + scriptRoundTrip k + delay + timerLateness k
            + hideCursorTime k)%Z
  | SettlesAtOnce _ => None
  end.

(** The value the specification expects of a text area after Enter: the
    line break sits where the caret was. *)
Definition lineBreakAtCaret (el : element) : string :=
  spliceNewline (selectionStart el) (selectionStart el) (value el).

(** A text area holding [ab] with the caret in front of the text. *)
Definition caretAtStart : element :=
  {| kind := TextArea; isContentEditable := false; value := "ab";
     selectionStart := 0; selectionEnd := 0; enclosingForm := None;
     keydownPrevented := false; insertLineBreakWorks := true;
     insertHTMLWorks := true; hasSelectionRange := true |}.

(** A run in which everything answers at once. *)
Definition promptWorld : world :=
  {| elementLookup := Resolved "k3x9q2ab"%string;
     typingScript := Resolved (Some {| success := true;
                                       elementType := "input" |});
     hideCursor := Resolved tt;
     hideCursorAgain := Resolved tt |}.

Definition promptClock : clock :=
  {| scriptStart := 1000; scriptRoundTrip := 3; timerLateness := 1;
     hideCursorTime := 2 |}.

(** [rawValue.replace(/\\n/g, '\n')] in [setValue]: a backslash followed by
    [n] becomes one line break; the result is the text handed to the typing
    script. *)
Fixpoint processValue (raw : string) : string :=
  match raw with
  | String c rest =>
      match rest with
      | String c' rest' =>
          if Ascii.eqb c "092"%char && Ascii.eqb c' "n"%char
          then String newline (processValue rest')
          else String c (processValue rest)
      | EmptyString => raw
      end
  | EmptyString => EmptyString
  end.

(** The specification's reading of the completion window: for a [setValue]
    call with a value of [L] characters, none of them a line break, under
    non-failing conditions and with time running forward, the promise
    settles no earlier than [L * 50] ms and earlier than [L * 50 + 500] ms
    after the typing script started. *)
Definition completes_in_window (rawValue : string) (w : world) (k : clock)
  : Prop :=
  let L := Z.of_nat (String.length rawValue) in
  existsb isNewline (list_ascii_of_string rawValue) = false ->
  nonFailing w -> forward k ->
  exists t : Z,
    settledAt k (executeSetValueWithCompletion (processValue rawValue) w)
    = Some t
    /\ (scriptStart k + L * 50 <= t < scriptStart k + L * 50 + 500)%Z.

(** The six characters of three backslash-[n] pairs; no line break is among
    them. *)
Definition threeEscapes : string :=
  String "092" (String "n" (String "092" (String "n"
    (String "092" (String "n" EmptyString))))).

(** A run in which the result of the typing script takes 400 ms to come
    back to the extension. *)
Definition slowClock : clock :=
  {| scriptStart := 1000; scriptRoundTrip := 400; timerLateness := 0;
     hideCursorTime := 0 |}.

(** An input holding [old], inside a form that lets itself be submitted. *)
Definition searchBox : element :=
  {| kind := InputElement; isContentEditable := false; value := "old";
     selectionStart := 3; selectionEnd := 3;
     enclosingForm := Some {| submitNotCancelled := true;
                              submitCallThrows := false;
                              hasSubmitButton := true |};
     keydownPrevented := false; insertLineBreakWorks := true;
     insertHTMLWorks := true; hasSelectionRange := true |}.


End SetValue.

(* ------------------------------------------------------------------ *)
(** * Polling and retrying helpers ([utils/pageUtils.ts]) *)

Module PageUtils.
Import ScriptingMode.
Local Open Scope string_scope.

(** [lastError instanceof Error ? lastError.message : String(lastError)];
    [lastError] is still [undefined] when no attempt was made. *)
Definition lastErrorText (lastError : option thrown) : string :=
  match lastError with
  | Some e => errorText e
  | None => "undefined"
  end.

(** A finished [retryWithBackoff]: how the promise settled ([Rejected]
    carries the message of the error thrown after the loop), how often [fn]
    was called, and the attempts after which the delay
    [baseDelay * Math.pow(multiplier, attempt)] was slept. *)
Record retried (T : Type) : Type := {
  settled : outcome string T;
  callsMade : nat;
  backoffs : list nat
}.
Arguments settled {T} r.
Arguments callsMade {T} r.
Arguments backoffs {T} r.

(** [for (attempt = 0; attempt < maxRetries; attempt++)], with [remaining]
    the iterations left; [fn attempt] is what the call made in iteration
    [attempt] settles with. *)
Fixpoint retryLoop {T : Type} (remaining attempt : nat) (maxRetries : Z)
    (description : string) (fn : nat -> outcome thrown T)
    (lastError : option thrown) (slept : list nat) : retried T :=
  match remaining with
  | O =>
      {| settled := Rejected (description ++ " failed after "
                              ++ decimal maxRetries
                              ++ " attempts. Last error: "
                              ++ lastErrorText lastError);
         callsMade := attempt; backoffs := slept |}
  | S remaining' =>
      match fn attempt with
      | Resolved v =>
          {| settled := Resolved v; callsMade := S attempt;
             backoffs := slept |}
      | Rejected e =>
          retryLoop remaining' (S attempt) maxRetries description fn (Some e)
            (if (Z.of_nat attempt <? maxRetries - 1)%Z
             then slept ++ [attempt] else slept)
      end
  end.

(** [retryWithBackoff(fn, maxRetries, baseDelay, multiplier, description)]
    for an integer [maxRetries]. *)
Definition retryWithBackoff {T : Type} (fn : nat -> outcome thrown T)
    (maxRetries : Z) (description : string) : retried T :=
  retryLoop (Z.to_nat maxRetries) 0 maxRetries description fn None [].

(** A [waitForCondition] as far as the clock readings at hand take it: the
    value returned ([None]: still polling), the number of times
    [conditionFn] was called and the number of [sleep(pollInterval)]. *)
Record waited : Type := {
  answer : option bool;
  checks : nat;
  naps : nat
}.

(** [while (Date.now() - startTime < timeout)]: [clock] lists what
    [Date.now()] reads at each test of the loop condition, [conditionFn i]
    is what check [i] settles with. *)
Fixpoint waitLoop (startTime timeout : Z) (clock : list Z)
    (conditionFn : nat -> outcome thrown bool) (i : nat) : waited :=
  match clock with
  | [] => {| answer := None; checks := i; naps := i |}
  | now :: later =>
      if (now - startTime <? timeout)%Z then
        match conditionFn i with
        | Resolved true =>
            {| answer := Some true; checks := S i; naps := i |}
        | Resolved false | Rejected _ =>
            waitLoop startTime timeout later conditionFn (S i)
        end
      else {| answer := Some false; checks := i; naps := i |}
  end.

Definition waitForCondition (conditionFn : nat -> outcome thrown bool)
    (timeout startTime : Z) (clock : list Z) : waited :=
  waitLoop startTime timeout clock conditionFn 0.

(** The clock as [sleep(pollInterval)] drives it: the test of iteration [i]
    reads a time at least [i] poll intervals after the start. *)
Definition paced (startTime pollInterval : Z) (clock : list Z) : Prop :=
  forall i now, nth_error clock i = Some now ->
    (startTime + pollInterval * Z.of_nat i <= now)%Z.

End PageUtils.

(* ------------------------------------------------------------------ *)
(** * Messages to the content script ([browser/pageRPC.ts]) *)

Module PageRPC.
Import ScriptingMode.
Local Open Scope string_scope.

(** A tab as [chrome.tabs.query] reports it. *)
Record tab : Type := {
  url : option string;
  id : option Z
}.

(** [activeTab.url?.startsWith('chrome')]. *)
Definition onChromePage (t : tab) : bool :=
  match url t with
  | Some u => String.prefix "chrome" u
  | None => false
  end.

Inductive error : Type :=
| Thrown (e : thrown)          (* a rejection passed on as it is *)
| UndefinedTab                 (* TypeError: [activeTab.url] on [undefined] *)
| NoActiveTabFound             (* new Error('No active tab found') *)
| ThrownUndefined.             (* [throw err] with [err] never assigned *)

(** What the browser answers: the first tab of the query for the active
    tab and of the query for the others ([None]: no tab), and the
    settlement of [chrome.tabs.sendMessage(tabId, ...)] at each try. *)
Record world (R : Type) : Type := {
  activeQuery : outcome thrown (option tab);
  otherQuery : outcome thrown (option tab);
  sendMessage : Z -> nat -> outcome thrown R
}.
Arguments activeQuery {R} w.
Arguments otherQuery {R} w.
Arguments sendMessage {R} w.

(** A finished [callRPC]: the settlement, the tabs messaged (one entry per
    [sendMessage]) and the number of [sleep(300)]. *)
Record run (R : Type) : Type := {
  result : outcome error R;
  sent : list Z;
  sleeps : nat
}.
Arguments result {R} r.
Arguments sent {R} r.
Arguments sleeps {R} r.

(** [for (let i = 0; i < maxTries; i++)], with [remaining] the iterations
    left. *)
Fixpoint tries {R : Type} (remaining i : nat) (maxTries : Z) (tabId : Z)
    (send : nat -> outcome thrown R) (err : option thrown)
    (messaged : list Z) (slept : nat) : run R :=
  match remaining with
  | O =>
      {| result := Rejected match err with
                            | Some e => Thrown e
                            | None => ThrownUndefined
                            end;
         sent := messaged; sleeps := slept |}
  | S remaining' =>
      match send i with
      | Resolved response =>
          {| result := Resolved response; sent := messaged ++ [tabId];
             sleeps := slept |}
      | Rejected e =>
          if (Z.of_nat i =? maxTries - 1)%Z
          then tries remaining' (S i) maxTries tabId send (Some e)
                     (messaged ++ [tabId]) slept
          else tries remaining' (S i) maxTries tabId send err
                     (messaged ++ [tabId]) (S slept)
      end
  end.

Definition failed {R : Type} (e : error) : run R :=
  {| result := Rejected e; sent := []; sleeps := 0 |}.

(** From [if (!activeTab?.id) throw ...] on: the loop over the tries. *)
Definition messageTab {R : Type} (maxTries : Z) (w : world R)
    (activeTab : option tab) : run R :=
  match activeTab with
  | Some {| id := Some tabId |} =>
      if (tabId =? 0)%Z then failed NoActiveTabFound
      else tries (Z.to_nat maxTries) 0 maxTries tabId
                 (sendMessage w tabId) None [] 0
  | _ => failed NoActiveTabFound
  end.

(** [callRPC(type, payload, maxTries)] for an integer [maxTries]. *)
Definition callRPC {R : Type} (maxTries : Z) (w : world R) : run R :=
  match activeQuery w with
  | Rejected e => failed (Thrown e)
  | Resolved None => failed UndefinedTab
  | Resolved (Some t) =>
      if onChromePage t then
        match otherQuery w with
        | Rejected e => failed (Thrown e)
        | Resolved other => messageTab maxTries w other
        end
      else messageTab maxTries w (Some t)
  end.

(** The tab [callRPC] settles on, if it gets that far. *)
Definition chosenTab {R : Type} (w : world R) : option tab :=
  match activeQuery w with
  | Resolved (Some t) =>
      if onChromePage t then
        match otherQuery w with
        | Resolved other => other
        | Rejected _ => None
        end
      else Some t
  | _ => None
  end.

(** ** The content-script side: [watchForRPCRequests] *)

Inductive request : Type :=
| GetAnnotatedDOM
| GetUniqueElementSelectorId (elementId : nat)
| UnknownMethod.                 (* [type in rpcMethods] is false *)

(** What [sendResponse] is called with. *)
Inductive response : Type :=
| Value (s : string)
| ErrorResponse (error : string).   (* { error: String(error) } *)

(** [String(error)] for the [TypeError] of [currentElements[id]] being
    [undefined]. *)
Definition typeErrorText : string :=
  "TypeError: Cannot read properties of undefined (reading 'getAttribute')".

(** The listener on one message, against the content script's state
    ([None]: [sendResponse] is not called).  [outerHTML] is the
    serialisation of the annotated clone, [random36] what
    [Math.random().toString(36)] gives if it is reached. *)
Definition onMessage (req : request) (documentElement : GetAnnotatedDOM.node)
    (outerHTML random36 : string) (c : GetAnnotatedDOM.content)
  : GetAnnotatedDOM.content * option response :=
  match req with
  | GetAnnotatedDOM =>
      (GetAnnotatedDOM.getAnnotatedDOM documentElement c,
       Some (Value outerHTML))
  | GetUniqueElementSelectorId elementId =>
      match GetAnnotatedDOM.getUniqueElementSelectorId elementId random36 c with
      | (c', Resolved uniqueId) => (c', Some (Value uniqueId))
      | (c', Rejected GetAnnotatedDOM.TypeError) =>
          (c', Some (ErrorResponse typeErrorText))
      end
  | UnknownMethod => (c, None)
  end.

End PageRPC.

(* ------------------------------------------------------------------ *)
(** * Element discovery ([core/element.ts]) *)

Module Element.
Import ScriptingMode.
Local Open Scope string_scope.

(** What [callRPC('getUniqueElementSelectorId', [elementId])] resolves
    with: nothing, the identity, or the error object of the content
    script. *)
Inductive rpcAnswer : Type :=
| Undefined
| Text (s : string)
| ErrorObject (error : string).

Definition ofResponse (r : option PageRPC.response) : rpcAnswer :=
  match r with
  | None => Undefined
  | Some (PageRPC.Value s) => Text s
  | Some (PageRPC.ErrorResponse e) => ErrorObject e
  end.

(** Truthiness, for [if (!uniqueId)]. *)
Definition truthy (a : rpcAnswer) : bool :=
  match a with
  | Undefined => false
  | Text s => JS.nonEmpty s
  | ErrorObject _ => true
  end.

(** The answer inside a template literal. *)
Definition render (a : rpcAnswer) : string :=
  match a with
  | Undefined => "undefined"
  | Text s => s
  | ErrorObject _ => "[object Object]"
  end.

Record debugInfo : Type := {
  totalElementsWithSelector : nat;
  existingIds : list string;
  documentReadyState : string;
  bodyChildCount : nat
}.

(** The object returned by the lookup script. *)
Inductive lookedUp : Type :=
| FoundElement                       (* { element: foundElement, debugInfo: null } *)
| NoElement (debug : option debugInfo).  (* { element: null, debugInfo } *)

(** [existingIds.join(', ')]. *)
Fixpoint joinIds (ids : list string) : string :=
  match ids with
  | [] => EmptyString
  | [s] => s
  | s :: rest => s ++ ", " ++ joinIds rest
  end.

Section Lookup.
(** [NODE_ID_SELECTOR] comes from [constants.ts]; numbers are rendered by
    the template literal. *)
Variable NODE_ID_SELECTOR : string.
Variable numberToString : JS.number -> string.

(** [executeScript]: a rejection of [chrome.scripting.executeScript] is
    re-thrown with a prefix. *)
Definition executeScript {T : Type} (injected : outcome thrown (option T))
  : outcome string (option T) :=
  match injected with
  | Resolved r => Resolved r
  | Rejected e => Rejected ("Script execution failed: " ++ errorText e)
  end.

Definition selectorOf (uniqueId : rpcAnswer) : string :=
  "[" ++ NODE_ID_SELECTOR ++ "=" ++ doubleQuote ++ render uniqueId
      ++ doubleQuote ++ "]".

Definition notFoundMessage (elementId : JS.number) (uniqueId : rpcAnswer)
    (debug : option debugInfo) : string :=
  let errorMessage :=
    "Element with ID " ++ numberToString elementId
    ++ " not found in DOM using selector " ++ selectorOf uniqueId ++ "." in
  match debug with
  | None => errorMessage
  | Some d =>
      errorMessage
      ++ " Debug info: Document ready state: " ++ documentReadyState d ++ ", "
      ++ "Total elements with selector: "
      ++ decimal (Z.of_nat (totalElementsWithSelector d)) ++ ", "
      ++ "Body children: " ++ decimal (Z.of_nat (bodyChildCount d))
      ++ match existingIds d with
         | [] => ", No elements found with the selector attribute"
         | ids => ", Existing IDs: " ++ joinIds ids
         end
  end.

(** The body of the [try]: the message of what it throws, or the identity
    it returns.  The lookup script receives the identity as the page will
    render it. *)
Definition tryBody (elementId : JS.number) (rpc : outcome thrown rpcAnswer)
    (script : string -> outcome thrown (option lookedUp))
  : outcome string rpcAnswer :=
  match rpc with
  | Rejected e => Rejected (errorText e)
  | Resolved uniqueId =>
      if negb (truthy uniqueId) then
        Rejected ("Failed to get unique element selector ID for element "
                  ++ numberToString elementId
                  ++ ". The element may have been removed from the page or the RPC call failed.")
      else
        match executeScript (script (render uniqueId)) with
        | Rejected message => Rejected message
        | Resolved None => Rejected (notFoundMessage elementId uniqueId None)
        | Resolved (Some (NoElement debug)) =>
            Rejected (notFoundMessage elementId uniqueId debug)
        | Resolved (Some FoundElement) => Resolved uniqueId
        end
  end.

(** [getElementByNodeId(elementId)]: the [catch] passes on an error that
    mentions ['not found in DOM'] and wraps any other. *)
Definition getElementByNodeId (elementId : JS.number)
    (rpc : outcome thrown rpcAnswer)
    (script : string -> outcome thrown (option lookedUp))
  : outcome string rpcAnswer :=
  match tryBody elementId rpc script with
  | Resolved uniqueId => Resolved uniqueId
  | Rejected errorMessage =>
      if JS.includes "not found in DOM" errorMessage
      then Rejected errorMessage
      else Rejected ("Failed to get element by ID "
                     ++ numberToString elementId ++ ": " ++ errorMessage
                     ++ ". This could be due to network issues, page navigation, or the element being dynamically removed.")
  end.

(** [getHTMLElementById(elementId)]: a second script fetches the element;
    [Resolved true] stands for the element handed back. *)
Definition getHTMLElementById (elementId : JS.number)
    (rpc : outcome thrown rpcAnswer)
    (script : string -> outcome thrown (option lookedUp))
    (fetch : outcome thrown (option bool)) : outcome string unit :=
  match getElementByNodeId elementId rpc script with
  | Rejected message => Rejected message
  | Resolved _ =>
      match executeScript fetch with
      | Rejected message => Rejected message
      | Resolved (Some true) => Resolved tt
      | Resolved _ => Rejected "Could not find HTML element"
      end
  end.

End Lookup.

End Element.

(* ------------------------------------------------------------------ *)
(** * The simulated cursor ([core/cursor.ts]) *)

Module Cursor.
Import ScriptingMode.

(** The module variable [cursorEnabled]: [None] is [null]. *)
Definition state : Type := option bool.

Inductive script : Type := InjectCursor | MoveCursor | HideCursor.

(** What a call did: the value it resolves with (none of the three
    functions rejects) and the scripts it ran in the page. *)
Record did (A : Type) : Type := {
  after : state;
  value : A;
  ran : list script
}.
Arguments after {A} d.
Arguments value {A} d.
Arguments ran {A} d.

(** [initializeCursor()]: [settingEnabled] is the user's setting,
    [injected] what the injection script gives if it runs. *)
Definition initializeCursor (settingEnabled : bool)
    (injected : outcome thrown (option bool)) (cursorEnabled : state)
  : did bool :=
  match cursorEnabled with
  | Some enabled => {| after := cursorEnabled; value := enabled; ran := [] |}
  | None =>
      if negb settingEnabled
      then {| after := Some false; value := false; ran := [] |}
      else
        let cursorInjected :=
          match injected with
          | Resolved (Some b) => b
          | Resolved None | Rejected _ => false
          end in
        {| after := Some cursorInjected; value := cursorInjected;
           ran := [InjectCursor] |}
  end.

(** [moveCursor(x, y, action)]: [moved] is what the movement script gives
    if it runs. *)
Definition moveCursor (settingEnabled : bool)
    (injected moved : outcome thrown (option bool)) (cursorEnabled : state)
  : did bool :=
  let init := initializeCursor settingEnabled injected cursorEnabled in
  if negb (value init)
  then {| after := after init; value := false; ran := ran init |}
  else {| after := after init;
          value := match moved with
                   | Resolved (Some b) => b
                   | Resolved None | Rejected _ => false
                   end;
          ran := ran init ++ [MoveCursor] |}.

(** [hideCursor()]. *)
Definition hideCursor (hidden : outcome thrown unit) (cursorEnabled : state)
  : did unit :=
  match cursorEnabled with
  | Some true => {| after := cursorEnabled; value := tt; ran := [HideCursor] |}
  | _ => {| after := cursorEnabled; value := tt; ran := [] |}
  end.

(** A session: calls in the order they are made, each with what the
    settings and the page would answer. *)
Inductive call : Type :=
| Initialize (settingEnabled : bool) (injected : outcome thrown (option bool))
| Move (settingEnabled : bool) (injected moved : outcome thrown (option bool))
| Hide (hidden : outcome thrown unit).

Definition step (cursorEnabled : state) (c : call) : state * list script :=
  match c with
  | Initialize s i =>
      let d := initializeCursor s i cursorEnabled in (after d, ran d)
  | Move s i m =>
      let d := moveCursor s i m cursorEnabled in (after d, ran d)
  | Hide h =>
      let d := hideCursor h cursorEnabled in (after d, ran d)
  end.

Definition isInjection (s : script) : bool :=
  match s with InjectCursor => true | _ => false end.

Fixpoint session (cursorEnabled : state) (calls : list call)
  : state * list script :=
  match calls with
  | [] => (cursorEnabled, [])
  | c :: later =>
      let '(s1, ran1) := step cursorEnabled c in
      let '(s2, ran2) := session s1 later in
      (s2, ran1 ++ ran2)
  end.

End Cursor.

(* ------------------------------------------------------------------ *)
(** * Error messages of the executors
      ([utils/errorBuilder.ts], [buildClickErrorMessage] in [click.ts]) *)

Module ErrorBuilder.
Local Open Scope string_scope.

(** The fields of the context object the builders read; [None] is a
    property the object does not have. *)
Record context : Type := {
  elementType : option string;
  scrollAttempted : bool;
  scrollSuccess : bool;
  scrollPartialSuccess : bool;
  coordinatesObtained : bool;
  coordinates : option (string * string);   (* x and y as rendered *)
  cursorMoved : bool;
  lastError : option string
}.

Section Builders.
Variable numberToString : JS.number -> string.

Definition buildOperationContext (operation : string) (elementId : JS.number)
    (c : context) : string :=
  let message := operation ++ " operation failed for element "
                 ++ numberToString elementId ++ ". " in
  match elementType c with
  | Some t =>
      if JS.nonEmpty t && negb (String.eqb t "unknown")
      then message ++ "Element type: " ++ t ++ ". "
      else message
  | None => message
  end.

Definition buildScrollStatus (c : context) : string :=
  if negb (scrollAttempted c) then "Scroll: Not attempted. "
  else if scrollSuccess c then "Scroll: ✓ Successful. "
  else if scrollPartialSuccess c then "Scroll: ⚠ Partially successful. "
  else "Scroll: ✗ Failed. ".

Definition buildCoordinateStatus (c : context) : string :=
  if coordinatesObtained c then
    "Coordinates: ✓ Obtained"
    ++ match coordinates c with
       | Some (x, y) => " (" ++ x ++ ", " ++ y ++ ")"
       | None => EmptyString
       end
    ++ ". "
  else "Coordinates: ✗ Failed to obtain. ".

Definition buildCursorStatus (c : context) : string :=
  if cursorMoved c then "Cursor: ✓ Moved. " else "Cursor: ✗ Not moved. ".

Definition addLastError (c : context) : string :=
  match lastError c with
  | Some e => if JS.nonEmpty e then "Last error: " ++ e else EmptyString
  | None => EmptyString
  end.

End Builders.
End ErrorBuilder.

Module ClickMessage.
Import Click.
Local Open Scope string_scope.

(** [${value}] for a property that may be [undefined]. *)
Definition orUndefined (o : option string) : string :=
  match o with Some s => s | None => "undefined" end.

(** The string [operationContext.lastError] holds.  The message of
    [OtherError] is [error.message || String(error)]. *)
Definition noteText (e : errorNote) : string :=
  match e with
  | ScrollFailed reason => "Scroll failed: " ++ orUndefined reason
  | CoordinateDetectionFailed message =>
      "Coordinate detection failed: " ++ message
  | NotVisibleAtCoordinates =>
      "Element not visible at computed coordinates after scroll"
  | ReScrollCoordinateFailed message =>
      "Re-scroll coordinate detection failed: " ++ message
  | ScrollPhaseFailed message => "Scroll/coordinate phase failed: " ++ message
  | PrimaryClickFailed message => "Primary click failed: " ++ message
  | ElementLookupFailed message =>
      "Element lookup failed in backup method: " ++ message
  | BackupClickFailed reason =>
      "Backup click method failed: " ++ orUndefined reason
  | OtherError message => message
  end.

Section Build.
Variable numberToString : JS.number -> string.

(** The part of the message on the two click methods. *)
Definition methodsText (c : OperationContext) : string :=
  if primaryClickAttempted c && backupClickAttempted c
  then "Methods: Both primary and backup failed. "
  else if primaryClickAttempted c
  then "Methods: Primary failed, backup not attempted. "
  else if backupClickAttempted c
  then "Methods: Primary skipped, backup failed. "
  else "Methods: Neither primary nor backup attempted. ".

Definition buildClickErrorMessage (elementId : JS.number)
    (c : OperationContext) : string :=
  let m0 := "Click operation failed for element "
            ++ numberToString elementId ++ ". " in
  let m1 :=
    m0 ++ (if scrollAttempted c then
             if scrollSuccess c then "Scroll: ✓ Successful. "
             else if scrollPartialSuccess c
             then "Scroll: ⚠ Partially successful. "
             else "Scroll: ✗ Failed. "
           else "Scroll: Not attempted. ") in
  let m2 :=
    m1 ++ (if coordinatesObtained c then
             "Coordinates: ✓ Obtained ("
             ++ orUndefined
                  (option_map (fun xy => numberToString (Coordinates.x xy))
                              (coordinates c))
             ++ ", "
             ++ orUndefined
                  (option_map (fun xy => numberToString (Coordinates.y xy))
                              (coordinates c))
             ++ "). "
           else "Coordinates: ✗ Failed to obtain. ") in
  let m3 :=
    m2 ++ (if cursorMoved c then "Cursor: ✓ Moved. "
           else "Cursor: ✗ Not moved. ") in
  let m4 := m3 ++ methodsText c in
  match lastError c with
  | Some e =>
      if JS.nonEmpty (noteText e) then m4 ++ "Last error: " ++ noteText e
      else m4
  | None => m4
  end.

(** The error [click] rejects with, as a message. *)
Definition messageOf (elementId : JS.number) (e : clickError) : string :=
  match e with
  | Detailed c => buildClickErrorMessage elementId c
  | PassedThrough message => message
  end.

(** The operation context as the helpers of [errorBuilder.ts] read it. *)
Definition asBuilderContext (c : OperationContext) : ErrorBuilder.context :=
  {| ErrorBuilder.elementType := None;
     ErrorBuilder.scrollAttempted := scrollAttempted c;
     ErrorBuilder.scrollSuccess := scrollSuccess c;
     ErrorBuilder.scrollPartialSuccess := scrollPartialSuccess c;
     ErrorBuilder.coordinatesObtained := coordinatesObtained c;
     ErrorBuilder.coordinates :=
       option_map (fun xy => (numberToString (Coordinates.x xy),
                              numberToString (Coordinates.y xy)))
                  (coordinates c);
     ErrorBuilder.cursorMoved := cursorMoved c;
     ErrorBuilder.lastError := option_map noteText (lastError c) |}.

End Build.
End ClickMessage.

(* ------------------------------------------------------------------ *)
(** ** What the typing script leaves behind *)

Module TypedText.
Import SetValue.




End TypedText.

(* ------------------------------------------------------------------ *)
(** * The setValue executor as a whole ([actions/setValue.ts]) *)

Module SetValueFlow.
Local Open Scope string_scope.

Definition ElementCoordinates : Type := Coordinates.ElementCoordinates.

Record OperationContext : Type := {
  scrollAttempted : bool;
  scrollSuccess : bool;
  scrollPartialSuccess : bool;
  clickAttempted : bool;
  clickSuccess : bool;
  coordinatesObtained : bool;
  cursorMoved : bool;
  primarySetValueAttempted : bool;
  fallbackSetValueAttempted : bool;
  elementType : string;
  lastError : option string
}.

Definition initialContext : OperationContext :=
  {| scrollAttempted := false; scrollSuccess := false;
     scrollPartialSuccess := false; clickAttempted := false;
     clickSuccess := false; coordinatesObtained := false;
     cursorMoved := false; primarySetValueAttempted := false;
     fallbackSetValueAttempted := false; elementType := "unknown";
     lastError := None |}.

(** Assignments to the fields of the context. *)
Definition noteScroll (attempted ok partial : bool) (c : OperationContext)
  : OperationContext :=
  {| scrollAttempted := attempted; scrollSuccess := ok;
     scrollPartialSuccess := partial; clickAttempted := clickAttempted c;
     clickSuccess := clickSuccess c;
     coordinatesObtained := coordinatesObtained c;
     cursorMoved := cursorMoved c;
     primarySetValueAttempted := primarySetValueAttempted c;
     fallbackSetValueAttempted := fallbackSetValueAttempted c;
     elementType := elementType c; lastError := lastError c |}.

Definition noteClick (attempted ok : bool) (c : OperationContext)
  : OperationContext :=
  {| scrollAttempted := scrollAttempted c; scrollSuccess := scrollSuccess c;
     scrollPartialSuccess := scrollPartialSuccess c;
     clickAttempted := attempted; clickSuccess := ok;
     coordinatesObtained := coordinatesObtained c;
     cursorMoved := cursorMoved c;
     primarySetValueAttempted := primarySetValueAttempted c;
     fallbackSetValueAttempted := fallbackSetValueAttempted c;
     elementType := elementType c; lastError := lastError c |}.

Definition noteCursor (obtained moved : bool) (c : OperationContext)
  : OperationContext :=
  {| scrollAttempted := scrollAttempted c; scrollSuccess := scrollSuccess c;
     scrollPartialSuccess := scrollPartialSuccess c;
     clickAttempted := clickAttempted c; clickSuccess := clickSuccess c;
     coordinatesObtained := obtained; cursorMoved := moved;
     primarySetValueAttempted := primarySetValueAttempted c;
     fallbackSetValueAttempted := fallbackSetValueAttempted c;
     elementType := elementType c; lastError := lastError c |}.

Definition noteMethods (primary fallback : bool) (c : OperationContext)
  : OperationContext :=
  {| scrollAttempted := scrollAttempted c; scrollSuccess := scrollSuccess c;
     scrollPartialSuccess := scrollPartialSuccess c;
     clickAttempted := clickAttempted c; clickSuccess := clickSuccess c;
     coordinatesObtained := coordinatesObtained c;
     cursorMoved := cursorMoved c;
     primarySetValueAttempted := primary;
     fallbackSetValueAttempted := fallback;
     elementType := elementType c; lastError := lastError c |}.

Definition noteType (t : string) (c : OperationContext) : OperationContext :=
  {| scrollAttempted := scrollAttempted c; scrollSuccess := scrollSuccess c;
     scrollPartialSuccess := scrollPartialSuccess c;
     clickAttempted := clickAttempted c; clickSuccess := clickSuccess c;
     coordinatesObtained := coordinatesObtained c;
     cursorMoved := cursorMoved c;
     primarySetValueAttempted := primarySetValueAttempted c;
     fallbackSetValueAttempted := fallbackSetValueAttempted c;
     elementType := t; lastError := lastError c |}.

Definition noteError (e : string) (c : OperationContext) : OperationContext :=
  {| scrollAttempted := scrollAttempted c; scrollSuccess := scrollSuccess c;
     scrollPartialSuccess := scrollPartialSuccess c;
     clickAttempted := clickAttempted c; clickSuccess := clickSuccess c;
     coordinatesObtained := coordinatesObtained c;
     cursorMoved := cursorMoved c;
     primarySetValueAttempted := primarySetValueAttempted c;
     fallbackSetValueAttempted := fallbackSetValueAttempted c;
     elementType := elementType c; lastError := Some e |}.

(** What [directFocusScript] returns. *)
Module FocusResult.
Record t : Type := {
  success : bool;
  type : string
}.
End FocusResult.

(** What [fallbackSetValueScript] returns. *)
Module FallbackResult.
Record t : Type := {
  success : bool;
  reason : option string;
  type : string
}.
End FallbackResult.

(** What the awaited calls of one [setValue] answer.  [primary] holds the
    answers to [executeSetValueWithCompletion]; a script result [None] is
    [undefined]. *)
Record world : Type := {
  initializeCursor : outcome string unit;
  scrollIntoView : outcome string Scroll.Returned.t;
  click : outcome string unit;
  focusLookup : outcome string string;            (* getElementByNodeId *)
  directFocus : outcome string (option FocusResult.t);
  getCenterCoordinates : outcome string ElementCoordinates;
  moveCursor : ElementCoordinates -> outcome string bool;
  primary : SetValue.world;
  fallbackLookup : outcome string string;         (* getElementByNodeId *)
  fallbackScript : outcome string (option FallbackResult.t);
  hideCursorAfterFallback : outcome string unit;
  hideCursorOnError : outcome string unit
}.

(** [x || 'unknown'] on strings. *)
Definition orUnknown (s : string) : string :=
  if JS.nonEmpty s then s else "unknown".

(** The interpolation of a value that may be [undefined]. *)
Definition orUndefined (o : option string) : string :=
  match o with Some s => s | None => "undefined" end.

(** The message of the [TypeError] of reading [success] off [undefined]. *)
Definition noSuccessText : string :=
  "Cannot read properties of undefined (reading 'success')".

(** [prepareElement]: rejects only when [scrollIntoView] does. *)
Definition prepareElement (w : world) (c : OperationContext)
  : outcome string OperationContext :=
  let c1 := noteScroll true (scrollSuccess c) (scrollPartialSuccess c) c in
  match scrollIntoView w with
  | Rejected message => Rejected message
  | Resolved scrollResult =>
      let c2 := noteScroll true (Scroll.Returned.success scrollResult)
                           (Scroll.Returned.partialSuccess scrollResult) c1 in
      let c3 :=
        if negb (Scroll.Returned.success scrollResult)
        then noteError ("Scroll: "
                        ++ orUndefined (Scroll.Returned.reason scrollResult)) c2
        else c2 in
      let c4 := noteClick true (clickSuccess c3) c3 in
      Resolved
        match click w with
        | Resolved _ => noteClick true true c4
        | Rejected clickError =>
            let c5 := noteError ("Click failed: " ++ clickError) c4 in
            match focusLookup w with
            | Rejected focusError =>
                noteError ("Focus failed: " ++ focusError) c5
            | Resolved uniqueId =>
                match directFocus w with
                | Rejected focusError =>
                    noteError ("Focus failed: " ++ focusError) c5
                | Resolved None =>
                    noteError ("Focus failed: " ++ noSuccessText) c5
                | Resolved (Some focusResult) =>
                    if FocusResult.success focusResult
                    then noteType (FocusResult.type focusResult) c5
                    else c5
                end
            end
        end
  end.

(** [attemptCursorMovement]: never rejects. *)
Definition attemptCursorMovement (w : world) (c : OperationContext)
  : OperationContext :=
  match getCenterCoordinates w with
  | Rejected coordError => noteError ("Coordinates failed: " ++ coordError) c
  | Resolved coordinates =>
      let c1 := noteCursor true (cursorMoved c) c in
      match moveCursor w coordinates with
      | Resolved moved => noteCursor true moved c1
      | Rejected coordError =>
          noteError ("Coordinates failed: " ++ coordError) c1
      end
  end.

(** What [executeSetValueWithCompletion] leaves in the context: the element
    type, once the typing script has reported success. *)
Definition afterPrimary (w : SetValue.world) (c : OperationContext)
  : OperationContext :=
  match SetValue.elementLookup w, SetValue.typingScript w with
  | Resolved _, Resolved (Some result) =>
      if SetValue.success result
      then noteType (orUnknown (SetValue.elementType result)) c
      else c
  | _, _ => c
  end.

(** How a promise of [executeSetValueWithCompletion] settles, if it does. *)
Definition settlement (c : SetValue.completion)
  : option (outcome string unit) :=
  match c with
  | SetValue.SettlesAtOnce how => Some how
  | SetValue.SettlesByTimer _ how => how
  end.

(** [executeSetValueFallback]. *)
Definition executeSetValueFallback (w : world) (c : OperationContext)
  : OperationContext * outcome string unit :=
  match fallbackLookup w with
  | Rejected message => (c, Rejected message)
  | Resolved uniqueId =>
      match fallbackScript w with
      | Rejected message => (c, Rejected message)
      | Resolved None =>
          (c, Rejected "Fallback setValue failed: Unknown error")
      | Resolved (Some fallbackResult) =>
          if FallbackResult.success fallbackResult then
            let c1 := noteType (orUnknown (FallbackResult.type fallbackResult))
                               c in
            match hideCursorAfterFallback w with
            | Resolved _ => (c1, Resolved tt)
            | Rejected message => (c1, Rejected message)
            end
          else
            (c, Rejected
                  ("Fallback setValue failed: "
                   ++ match FallbackResult.reason fallbackResult with
                      | Some r => if JS.nonEmpty r then r else "Unknown error"
                      | None => "Unknown error"
                      end))
      end
  end.

(** [status(attempted, success, partial)] of [buildSetValueErrorMessage]. *)
Definition status (attempted success partial : bool) : string :=
  if negb attempted then "Not attempted"
  else if success then "✓ Successful"
  else if partial then "⚠ Partially successful"
  else "✗ Failed".

Section Build.
Variable numberToString : JS.number -> string.

Definition buildSetValueErrorMessage (elementId : JS.number)
    (c : OperationContext) : string :=
  let m0 := "SetValue operation failed for element "
            ++ numberToString elementId ++ ". " in
  let m1 := if negb (String.eqb (elementType c) "unknown")
            then m0 ++ "Element type: " ++ elementType c ++ ". "
            else m0 in
  let m2 := m1 ++ "Scroll: "
            ++ status (scrollAttempted c) (scrollSuccess c)
                      (scrollPartialSuccess c) ++ ". " in
  let m3 := m2 ++ "Click/Focus: "
            ++ status (clickAttempted c) (clickSuccess c) false ++ ". " in
  let m4 := m3 ++ "Coordinates: "
            ++ (if coordinatesObtained c then "✓ Obtained"
                else "✗ Failed to obtain") ++ ". " in
  let m5 := m4 ++ "Cursor: "
            ++ (if cursorMoved c then "✓ Moved" else "✗ Not moved") ++ ". " in
  let m6 :=
    m5 ++ (if primarySetValueAttempted c && fallbackSetValueAttempted c
           then "Methods: Both primary and fallback failed. "
           else if primarySetValueAttempted c
           then "Methods: Primary failed, fallback not attempted. "
           else "Methods: Neither primary nor fallback attempted. ") in
  match lastError c with
  | Some e => if JS.nonEmpty e then m6 ++ "Last error: " ++ e else m6
  | None => m6
  end.

(** A finished [setValue]: how its promise settles ([None]: it never
    does), and the operation context at that point. *)
Record run : Type := {
  result : option (outcome string unit);
  final : OperationContext
}.

(** The outer [catch] block: hide the cursor, wrap the error. *)
Definition outerCatch (w : world) (message : string)
  : option (outcome string unit) :=
  match hideCursorOnError w with
  | Resolved _ => Some (Rejected ("Failed to set value: " ++ message))
  | Rejected hideError => Some (Rejected hideError)
  end.

Definition setValue (elementId : JS.number) (rawValue : string) (w : world)
  : run :=
  let processedValue := SetValue.processValue rawValue in
  match initializeCursor w with
  | Rejected message =>
      {| result := outerCatch w message; final := initialContext |}
  | Resolved _ =>
      match prepareElement w initialContext with
      | Rejected message =>
          {| result := outerCatch w message;
             final := noteScroll true false false initialContext |}
      | Resolved c1 =>
          let c2 := attemptCursorMovement w c1 in
          let c3 := noteMethods true (fallbackSetValueAttempted c2) c2 in
          match settlement (SetValue.executeSetValueWithCompletion
                              processedValue (primary w)) with
          | None =>
              {| result := None; final := afterPrimary (primary w) c3 |}
          | Some (Resolved _) =>
              {| result := Some (Resolved tt);
                 final := afterPrimary (primary w) c3 |}
          | Some (Rejected primaryError) =>
              let c4 := afterPrimary (primary w) c3 in
              let c5 := noteMethods (primarySetValueAttempted c4) true c4 in
              match executeSetValueFallback w c5 with
              | (c6, Resolved _) =>
                  {| result := Some (Resolved tt); final := c6 |}
              | (c6, Rejected fallbackError) =>
                  {| result :=
                       Some (Rejected (buildSetValueErrorMessage elementId c6));
                     final := c6 |}
              end
          end
      end
  end.

End Build.

(** The context when the preparation is over: after [prepareElement] and
    [attemptCursorMovement]. *)
Definition prepared (w : world) : option OperationContext :=
  match prepareElement w initialContext with
  | Resolved c1 => Some (attemptCursorMovement w c1)
  | Rejected _ => None
  end.

(** The fallback method went through. *)
Definition fallbackSucceeds (w : world) : bool :=
  match fallbackLookup w, fallbackScript w, hideCursorAfterFallback w with
  | Resolved _, Resolved (Some r), Resolved _ => FallbackResult.success r
  | _, _, _ => false
  end.

(** A field nobody can click or type into by script: the click fails, the
    primary script reports failure and the fallback one too. *)
Definition stubbornField : world :=
  {| initializeCursor := Resolved tt;
     scrollIntoView := Resolved {| Scroll.Returned.success := true;
                                   Scroll.Returned.partialSuccess := false;
                                   Scroll.Returned.reason := None |};
     click := Rejected "Click operation failed for element 4. ";
     focusLookup := Resolved "k3x9q2ab";
     directFocus := Resolved (Some {| FocusResult.success := true;
                                      FocusResult.type := "div" |});
     getCenterCoordinates :=
       Resolved {| Coordinates.x := 10; Coordinates.y := 20 |}%float;
     moveCursor := fun _ => Resolved true;
     primary :=
       {| SetValue.elementLookup := Resolved "k3x9q2ab";
          SetValue.typingScript :=
            Resolved (Some {| SetValue.success := false;
                              SetValue.elementType := "div" |});
          SetValue.hideCursor := Resolved tt;
          SetValue.hideCursorAgain := Resolved tt |};
     fallbackLookup := Resolved "k3x9q2ab";
     fallbackScript :=
       Resolved (Some {| FallbackResult.success := false;
                         FallbackResult.reason :=
                           Some "Element type not supported in fallback";
                         FallbackResult.type := "div" |});
     hideCursorAfterFallback := Resolved tt;
     hideCursorOnError := Resolved tt |}.

(** The same field where the fallback method works. *)
Definition fallbackField : world :=
  {| initializeCursor := initializeCursor stubbornField;
     scrollIntoView := scrollIntoView stubbornField;
     click := click stubbornField;
     focusLookup := focusLookup stubbornField;
     directFocus := directFocus stubbornField;
     getCenterCoordinates := getCenterCoordinates stubbornField;
     moveCursor := moveCursor stubbornField;
     primary := primary stubbornField;
     fallbackLookup := Resolved "k3x9q2ab";
     fallbackScript :=
       Resolved (Some {| FallbackResult.success := true;
                         FallbackResult.reason := None;
                         FallbackResult.type := "input" |});
     hideCursorAfterFallback := Resolved tt;
     hideCursorOnError := Resolved tt |}.

End SetValueFlow.

(* ================================================================== *)
(** * Properties *)

(** ** Order facts on numbers, from the IEEE specification of the primitives *)

Module JSFacts.


Lemma SFcompare_swap (x y : spec_float) (c : comparison) :
  SFcompare x y = Some c -> SFcompare y x = Some (CompOpp c).
Proof.
  destruct x as [sx| sx | | sx mx ex], y as [sy | sy | | sy my ey];
    cbn; try discriminate;
    try (intros [= <-]; repeat match goal with
                               | b : bool |- _ => destruct b
                               end; reflexivity).
  intros [= <-]. f_equal.
  rewrite (Z.compare_antisym ex ey).
  assert (Hm : Pos.compare_cont Eq my mx = CompOpp (Pos.compare_cont Eq mx my))
    by (rewrite Pos.compare_cont_antisym; reflexivity).
  rewrite Hm.
  destruct sx, sy; cbn; try reflexivity;
    destruct (ex ?= ey)%Z; cbn; try reflexivity;
    destruct (Pos.compare_cont Eq mx my); reflexivity.
Qed.

Lemma SFcompare_refl (x : spec_float) :
  x <> S754_nan -> SFcompare x x = Some Eq.
Proof.
  destruct x as [s | s | | s m e]; cbn; try congruence; intros _.
  - destruct s; reflexivity.
  - rewrite Z.compare_refl, Pos.compare_cont_refl. destruct s; reflexivity.
Qed.

Lemma SFcompare_not_nan (x y : spec_float) (c : comparison) :
  SFcompare x y = Some c -> x <> S754_nan /\ y <> S754_nan.
Proof. destruct x, y; cbn; intros H; split; congruence. Qed.

Lemma SFcompare_defined (x y : spec_float) :
  x <> S754_nan -> y <> S754_nan -> exists c, SFcompare x y = Some c.
Proof. destruct x, y; cbn; intros Hx Hy; try congruence; eauto. Qed.

Lemma isNaN_false_iff (x : JS.number) :
  JS.isNaN x = false <-> Prim2SF x <> S754_nan.
Proof.
  unfold JS.isNaN, PrimFloat.is_nan. rewrite eqb_spec. unfold SFeqb. split.
  - intros H E. rewrite E in H. cbn in H. discriminate.
  - intros H. rewrite (SFcompare_refl _ H). reflexivity.
Qed.

(** Not below means above or equal, for two non-NaN numbers. *)
Lemma not_ltb_leb (x y : JS.number) :
  JS.isNaN x = false -> JS.isNaN y = false ->
  (x <? y)%float = false -> (y <=? x)%float = true.
Proof.
  intros Hx Hy. rewrite ltb_spec, leb_spec. unfold SFltb, SFleb.
  apply isNaN_false_iff in Hx, Hy.
  destruct (SFcompare_defined _ _ Hx Hy) as [c Hc].
  rewrite Hc, (SFcompare_swap _ _ _ Hc).
  destruct c; cbn; congruence.
Qed.

Lemma ltb_leb (x y : JS.number) :
  (x <? y)%float = true -> (x <=? y)%float = true.
Proof.
  rewrite ltb_spec, leb_spec. unfold SFltb, SFleb.
  destruct (SFcompare (Prim2SF x) (Prim2SF y)) as [[]|]; congruence.
Qed.

(** A comparison that answers [true] had two non-NaN operands. *)
Lemma leb_not_NaN (x y : JS.number) :
  (x <=? y)%float = true -> JS.isNaN x = false /\ JS.isNaN y = false.
Proof.
  rewrite leb_spec, !isNaN_false_iff. unfold SFleb.
  destruct (SFcompare (Prim2SF x) (Prim2SF y)) as [c|] eqn:E; [|discriminate].
  intros _. exact (SFcompare_not_nan _ _ _ E).
Qed.

Lemma ltb_not_NaN (x y : JS.number) :
  (x <? y)%float = true -> JS.isNaN x = false /\ JS.isNaN y = false.
Proof. intros H. apply leb_not_NaN, ltb_leb, H. Qed.

Lemma leb_refl (x : JS.number) : JS.isNaN x = false -> (x <=? x)%float = true.
Proof.
  rewrite leb_spec, isNaN_false_iff. unfold SFleb. intros H.
  rewrite (SFcompare_refl _ H). reflexivity.
Qed.

Lemma leb_not_ltb (x y : JS.number) :
  (x <=? y)%float = true -> (y <? x)%float = false.
Proof.
  rewrite ltb_spec, leb_spec. unfold SFltb, SFleb.
  destruct (SFcompare (Prim2SF x) (Prim2SF y)) as [c|] eqn:E; [|discriminate].
  rewrite (SFcompare_swap _ _ _ E). destruct c; cbn; congruence.
Qed.

End JSFacts.

Module WaitingProps.
Import Waiting.

Lemma min_within_limits (seconds : JS.number) :
  (0 <=? seconds)%float = true ->
  within_limits (JS.min seconds maxWaitSeconds) = true.
Proof.
  intros H0. destruct (JSFacts.leb_not_NaN _ _ H0) as [_ Hn].
  unfold within_limits, JS.min. rewrite Hn.
  change (JS.isNaN maxWaitSeconds) with false. cbn [orb].
  destruct (seconds <? maxWaitSeconds)%float eqn:Hlt.
  - rewrite H0, (JSFacts.ltb_leb _ _ Hlt). reflexivity.
  - destruct (maxWaitSeconds <? seconds)%float eqn:Hgt.
    + reflexivity.
    + destruct (PrimFloat.get_sign seconds); [|reflexivity].
      rewrite H0. cbn [andb].
      apply JSFacts.not_ltb_leb; [reflexivity | exact Hn | exact Hgt].
Qed.

Lemma min_below_cap (seconds : JS.number) :
  (0 <=? seconds)%float = true ->
  (seconds <=? maxWaitSeconds)%float = true ->
  (JS.min seconds maxWaitSeconds =? seconds)%float = true.
Proof.
  intros H0 Hle. destruct (JSFacts.leb_not_NaN _ _ H0) as [_ Hn].
  unfold JS.min. rewrite Hn.
  change (JS.isNaN maxWaitSeconds) with false. cbn [orb].
  assert (Hrefl : (seconds =? seconds)%float = true).
  { unfold JS.isNaN, PrimFloat.is_nan in Hn.
    destruct (seconds =? seconds)%float; [reflexivity | discriminate]. }
  destruct (seconds <? maxWaitSeconds)%float eqn:Hlt; [exact Hrefl|].
  rewrite (JSFacts.leb_not_ltb _ _ Hle).
  destruct (PrimFloat.get_sign seconds); [exact Hrefl|].
  rewrite eqb_spec. rewrite ltb_spec in Hlt. rewrite leb_spec in Hle.
  unfold SFeqb, SFltb, SFleb in *.
  destruct (SFcompare (Prim2SF seconds) (Prim2SF maxWaitSeconds)) as [c|] eqn:E;
    [|discriminate].
  rewrite (JSFacts.SFcompare_swap _ _ _ E). destruct c; cbn; congruence.
Qed.

(** A negative duration is refused, not clamped to [0]. *)
Lemma waiting_negative (seconds : JS.number) :
  (seconds <? 0)%float = true ->
  waiting seconds = Rejected (InvalidWaitDuration seconds).
Proof. intros H. unfold waiting. rewrite H. reflexivity. Qed.

(** C7, as amended.  For every number [seconds] with [0 <= seconds] the
    waiting executor resolves; the duration it waits is
    [Math.min(seconds, 300)], which lies in [[0, 300]] and equals [seconds]
    whenever [seconds <= 300]; the cap warning is logged exactly when
    [seconds > 300]; the timer delay is that duration times 1000; and for
    [seconds = 1000] the timer is set to 300000 ms.  (A negative [seconds]
    is rejected with the invalid-duration error: [waiting_negative].) *)
Theorem waiting_clamps_nonnegative (seconds : JS.number) :
  (0 <=? seconds)%float = true ->
  exists w,
    waiting seconds = Resolved w
    /\ actualWaitSeconds w = JS.min seconds maxWaitSeconds
    /\ within_limits (actualWaitSeconds w) = true
    /\ ((seconds <=? maxWaitSeconds)%float = true ->
        (actualWaitSeconds w =? seconds)%float = true)
    /\ capWarning w = (maxWaitSeconds <? seconds)%float
    /\ waitMs w = (actualWaitSeconds w * 1000)%float
    /\ waiting 1000%float
       = Resolved {| actualWaitSeconds := 300%float;
                     capWarning := true;
                     waitMs := 300000%float |}.
Proof.
  intros H0. unfold waiting. rewrite (JSFacts.leb_not_ltb _ _ H0).
  eexists. split; [reflexivity|]. cbn [actualWaitSeconds capWarning waitMs].
  repeat split.
  - apply min_within_limits, H0.
  - intros Hle. apply min_below_cap; assumption.
Qed.

Lemma waiting_clamps_nonnegative_witness :
  exists w,
    waiting 1000%float = Resolved w
    /\ actualWaitSeconds w = JS.min 1000%float maxWaitSeconds
    /\ within_limits (actualWaitSeconds w) = true
    /\ ((1000 <=? maxWaitSeconds)%float = true ->
        (actualWaitSeconds w =? 1000)%float = true)
    /\ capWarning w = (maxWaitSeconds <? 1000)%float
    /\ waitMs w = (actualWaitSeconds w * 1000)%float
    /\ waiting 1000%float
       = Resolved {| actualWaitSeconds := 300%float;
                     capWarning := true;
                     waitMs := 300000%float |}.
Proof. apply (waiting_clamps_nonnegative 1000%float). reflexivity. Defined.

(** C7, as stated, fails at [seconds = -1]: the executor throws instead of
    clamping to [0] and resolving. *)
Lemma waiting_negative_not_clamped : ~ clamps_and_resolves (-1)%float.
Proof. intros [w [H _]]. vm_compute in H. discriminate. Qed.

(** *** The model at work *)

Example waits_half_a_second :
  waiting 0.5%float
  = Resolved {| actualWaitSeconds := 0.5%float; capWarning := false;
                waitMs := 500%float |}.
Proof. reflexivity. Qed.

Example waits_at_most_five_minutes :
  waiting PrimFloat.infinity
  = Resolved {| actualWaitSeconds := 300%float; capWarning := true;
                waitMs := 300000%float |}.
Proof. reflexivity. Qed.

End WaitingProps.

(* ------------------------------------------------------------------ *)
(** ** The action state tracker *)

Module ActionStateProps.
Import ActionStateManager.

Section JSMapFacts.
Context {V : Type}.
Implicit Types (m : jsmap V) (k : string) (v : V).

Definition keys m : list string := map fst m.

Lemma get_set_same k v m : get k (set k v m) = Some v.
Proof.
  induction m as [|[k' v'] m IH]; cbn.
  - now rewrite String.eqb_refl.
  - destruct (String.eqb_spec k k'); cbn.
    + now rewrite String.eqb_refl.
    + destruct (String.eqb_spec k k'); [contradiction | exact IH].
Qed.

Lemma get_set_other k k' v m : k <> k' -> get k' (set k v m) = get k' m.
Proof.
  intros Hne. induction m as [|[k0 v0] m IH]; cbn.
  - destruct (String.eqb_spec k' k); congruence.
  - destruct (String.eqb_spec k k0); cbn.
    + subst k0. destruct (String.eqb_spec k' k); congruence.
    + now rewrite IH.
Qed.

Lemma get_delete_other k k' m : k <> k' -> get k' (delete k m) = get k' m.
Proof.
  intros Hne. induction m as [|[k0 v0] m IH]; cbn; [reflexivity|].
  destruct (String.eqb_spec k k0); cbn.
  - subst k0. destruct (String.eqb_spec k' k); congruence.
  - now rewrite IH.
Qed.

Lemma keys_set k k' v m :
  In k' (keys (set k v m)) -> k' = k \/ In k' (keys m).
Proof.
  induction m as [|[k0 v0] m IH]; cbn.
  - intros [<-|[]]. now left.
  - destruct (String.eqb_spec k k0); cbn.
    + intros [<-|H]; auto.
    + intros [<-|H]; auto. destruct (IH H); auto.
Qed.

Lemma keys_delete k k' m : In k' (keys (delete k m)) -> In k' (keys m).
Proof.
  induction m as [|[k0 v0] m IH]; cbn; [tauto|].
  destruct (String.eqb_spec k k0); cbn; intuition.
Qed.

Lemma NoDup_set k v m : NoDup (keys m) -> NoDup (keys (set k v m)).
Proof.
  induction m as [|[k0 v0] m IH]; cbn; intros H.
  - constructor; [intros [] | constructor].
  - inversion H as [|? ? Hnin Hnd]; subst.
    destruct (String.eqb_spec k k0); cbn.
    + subst k0. now constructor.
    + constructor; [|now apply IH].
      intros Hin. destruct (keys_set _ _ _ _ Hin); [congruence | contradiction].
Qed.

Lemma NoDup_delete k m : NoDup (keys m) -> NoDup (keys (delete k m)).
Proof.
  induction m as [|[k0 v0] m IH]; cbn; intros H; [constructor|].
  inversion H as [|? ? Hnin Hnd]; subst.
  destruct (String.eqb_spec k k0); cbn; [assumption|].
  constructor; [|now apply IH].
  intros Hin. apply Hnin. eapply keys_delete, Hin.
Qed.

Lemma In_get k v m : NoDup (keys m) -> In (k, v) m -> get k m = Some v.
Proof.
  induction m as [|[k0 v0] m IH]; cbn; intros Hnd Hin; [contradiction|].
  inversion Hnd as [|? ? Hnin Hnd']; subst.
  destruct Hin as [[= -> ->]|Hin].
  - now rewrite String.eqb_refl.
  - destruct (String.eqb_spec k k0).
    + subst k0. exfalso. apply Hnin.
      change k with (fst (k, v)). now apply in_map.
    + now apply IH.
Qed.
End JSMapFacts.

(** *** What [cleanup] may drop *)

Lemma In_insertByEndTime x y l :
  In y (insertByEndTime x l) -> y = x \/ In y l.
Proof.
  induction l as [|z l IH]; cbn.
  - intros [<-|[]]. now left.
  - destruct (endTimeOrZero (snd x) <? endTimeOrZero (snd z))%Z; cbn.
    + intros [<-|H]; auto.
    + intros [<-|H]; auto. destruct (IH H); auto.
Qed.

Lemma In_sortByEndTime y l : In y (sortByEndTime l) -> In y l.
Proof.
  unfold sortByEndTime.
  assert (G : forall acc, In y (fold_left (fun a x => insertByEndTime x a) l acc)
                          -> In y acc \/ In y l).
  { induction l as [|x l IH]; cbn; intros acc H; [now left|].
    destruct (IH _ H) as [H'|H']; [|now auto].
    destruct (In_insertByEndTime _ _ _ H'); subst; auto. }
  intros H. destruct (G [] H) as [[]|]; assumption.
Qed.

Lemma In_firstn {A : Type} (n : nat) (l : list A) (x : A) :
  In x (firstn n l) -> In x l.
Proof.
  intros H. rewrite <- (firstn_skipn n l). apply in_or_app. now left.
Qed.

Lemma drop_keys_preserves (a : string) (l : list (string * ActionState))
      (m : manager) :
  (forall e, In e l -> fst e <> a) ->
  let m' := fold_left
      (fun acc e =>
         {| actionStates := delete (fst e) (actionStates acc);
            completionCallbacks := delete (fst e) (completionCallbacks acc);
            activeAction := activeAction acc |}) l m in
  get a (actionStates m') = get a (actionStates m).
Proof.
  revert m. induction l as [|e l IH]; cbn; intros m H; [reflexivity|].
  rewrite IH by (intros; apply H; now right). cbn.
  apply get_delete_other, H. now left.
Qed.

Lemma drop_keys_active (l : list (string * ActionState)) (m : manager) :
  activeAction (fold_left
      (fun acc e =>
         {| actionStates := delete (fst e) (actionStates acc);
            completionCallbacks := delete (fst e) (completionCallbacks acc);
            activeAction := activeAction acc |}) l m) = activeAction m.
Proof. revert m. induction l as [|e l IH]; cbn; intros m; [reflexivity|]. now rewrite IH. Qed.

Lemma drop_keys_NoDup (l : list (string * ActionState)) (m : manager) :
  NoDup (keys (actionStates m)) ->
  NoDup (keys (actionStates (fold_left
      (fun acc e =>
         {| actionStates := delete (fst e) (actionStates acc);
            completionCallbacks := delete (fst e) (completionCallbacks acc);
            activeAction := activeAction acc |}) l m))).
Proof.
  revert m. induction l as [|e l IH]; cbn; intros m H; [assumption|].
  apply IH. cbn. now apply NoDup_delete.
Qed.

Lemma cleanup_active m : activeAction (cleanup m) = activeAction m.
Proof.
  unfold cleanup. destruct (10 <? _)%nat; [apply drop_keys_active | reflexivity].
Qed.

Lemma cleanup_NoDup m :
  NoDup (keys (actionStates m)) -> NoDup (keys (actionStates (cleanup m))).
Proof.
  unfold cleanup. intros H.
  destruct (10 <? _)%nat; [now apply drop_keys_NoDup | assumption].
Qed.

(** [cleanup] never drops an action that has not finished. *)
Lemma cleanup_keeps_unfinished m a st :
  NoDup (keys (actionStates m)) ->
  get a (actionStates m) = Some st -> terminal (status st) = false ->
  get a (actionStates (cleanup m)) = Some st.
Proof.
  intros Hnd Hget Hst. unfold cleanup.
  destruct (10 <? _)%nat; [|assumption].
  rewrite drop_keys_preserves; [assumption|].
  intros [k v] Hin Hk. cbn in Hk. subst k.
  apply In_firstn, In_sortByEndTime, filter_In in Hin.
  destruct Hin as [Hin Hterm]. cbn in Hterm.
  rewrite (In_get _ _ _ Hnd Hin) in Hget. congruence.
Qed.

(** *** Histories, one call at a time *)

Lemma run_snoc calls c : run (calls ++ [c]) = step (run calls) c.
Proof. unfold run. now rewrite fold_left_app. Qed.

Lemma in_window_snoc calls c a :
  in_window (calls ++ [c]) a = window_step a (in_window calls a) c.
Proof. unfold in_window. now rewrite fold_left_app. Qed.

Lemma started_snoc calls c :
  started (calls ++ [c])
  = started calls ++ match c with StartAction _ a _ => [a] | _ => [] end.
Proof. unfold started. rewrite flat_map_app. cbn. now rewrite app_nil_r. Qed.

Lemma last_started_snoc calls c :
  last_started (calls ++ [c])
  = match c with StartAction _ a _ => Some a | _ => last_started calls end.
Proof.
  unfold last_started. rewrite started_snoc, map_app.
  destruct c; cbn; rewrite ?app_nil_r; try reflexivity.
  apply last_last.
Qed.

Lemma in_window_started calls a : in_window calls a = true -> In a (started calls).
Proof.
  induction calls as [|c calls IH] using rev_ind; [discriminate|].
  rewrite in_window_snoc, started_snoc, in_app_iff.
  destruct c; cbn; auto;
    destruct (String.eqb_spec actionId a); subst; cbn; auto; discriminate.
Qed.

Lemma notify_states a s e m :
  actionStates (fst (notifyCallbacks a s e m)) = actionStates m.
Proof. unfold notifyCallbacks. now destruct (get a (completionCallbacks m)). Qed.

Lemma notify_active a s e m :
  activeAction (fst (notifyCallbacks a s e m)) = activeAction m.
Proof. unfold notifyCallbacks. now destruct (get a (completionCallbacks m)). Qed.

Lemma waitForAction_states a cb m :
  actionStates (fst (waitForAction a cb m)) = actionStates m.
Proof.
  unfold waitForAction.
  destruct (get a (actionStates m)) as [st|]; [destruct (terminal _)|];
    reflexivity.
Qed.

Lemma waitForAction_active a cb m :
  activeAction (fst (waitForAction a cb m)) = activeAction m.
Proof.
  unfold waitForAction.
  destruct (get a (actionStates m)) as [st|]; [destruct (terminal _)|];
    reflexivity.
Qed.

(** *** The invariant linking the manager to its history *)

Record inv (calls : list call) : Prop := {
  inv_active : activeAction (run calls) = latest_open calls;
  inv_state : forall a, in_window calls a = true ->
      exists st, get a (actionStates (run calls)) = Some st
                 /\ terminal (status st) = false;
  inv_nodup : NoDup (keys (actionStates (run calls)))
}.

Local Ltac eqb_cases :=
  repeat match goal with
    | |- context [String.eqb ?x ?y] => destruct (String.eqb_spec x y); subst
    | H : context [String.eqb ?x ?y] |- _ =>
        destruct (String.eqb_spec x y); subst
    end; try congruence; try discriminate.

(** Finishing [a] when it has a live entry. *)
Lemma inv_finish calls c a st st' m' :
  inv calls ->
  (forall b o, window_step b o c = if String.eqb a b then false else o) ->
  last_started (calls ++ [c]) = last_started calls ->
  get a (actionStates (run calls)) = Some st ->
  terminal (status st') = true ->
  run (calls ++ [c]) = m' ->
  actionStates m' = set a st' (actionStates (run calls)) ->
  activeAction m' = clearActive a (activeAction (run calls)) ->
  inv (calls ++ [c]).
Proof.
  intros [Hact Hst Hnd] Hw Hlast Hget Hterm Hrun Hstates Hactive.
  split; rewrite Hrun.
  - rewrite Hactive, Hact. unfold latest_open. rewrite Hlast.
    destruct (last_started calls) as [L|]; [|reflexivity].
    rewrite in_window_snoc, Hw. unfold clearActive.
    destruct (in_window calls L); eqb_cases; reflexivity.
  - intros b. rewrite in_window_snoc, Hw, Hstates.
    destruct (String.eqb_spec a b); [discriminate|]. intros Hb.
    rewrite get_set_other by assumption. now apply Hst.
  - rewrite Hstates. now apply NoDup_set.
Qed.

(** A call that leaves the windows, the entries that are not finished and
    the active action as they were. *)
Lemma inv_neutral calls c :
  inv calls ->
  (forall b o, window_step b o c = true -> o = true) ->
  (forall b, in_window calls b = false -> window_step b false c = false) ->
  (forall L, last_started calls = Some L -> in_window calls L = true ->
             window_step L true c = true) ->
  last_started (calls ++ [c]) = last_started calls ->
  (forall b st, get b (actionStates (run calls)) = Some st ->
                terminal (status st) = false ->
                window_step b true c = true ->
                exists st', get b (actionStates (run (calls ++ [c]))) = Some st'
                            /\ terminal (status st') = false) ->
  NoDup (keys (actionStates (run (calls ++ [c])))) ->
  activeAction (run (calls ++ [c])) = activeAction (run calls) ->
  inv (calls ++ [c]).
Proof.
  intros [Hact Hst Hnd] Hmono Hclosed Hopen Hlast Hkeep Hnd' Hactive.
  split.
  - rewrite Hactive, Hact. unfold latest_open. rewrite Hlast.
    destruct (last_started calls) as [L|] eqn:EL; [|reflexivity].
    rewrite in_window_snoc.
    destruct (in_window calls L) eqn:EW.
    + now rewrite (Hopen L).
    + now rewrite (Hclosed L).
  - intros b. rewrite in_window_snoc. intros Hb.
    pose proof (Hmono _ _ Hb) as Ho. rewrite Ho in Hb.
    destruct (Hst b Ho) as [st [Hg Ht]]. eauto.
  - assumption.
Qed.

Lemma inv_all calls : inv calls.
Proof.
  induction calls as [|c calls IH] using rev_ind.
  { split; cbn; [reflexivity | discriminate | constructor]. }
  pose proof IH as [Hact Hst Hnd].
  destruct c as [now a t | a | now a | now a e | a cb | a cb | ].
  - (* startAction *)
    split; rewrite run_snoc; cbn.
    + unfold latest_open. rewrite last_started_snoc, in_window_snoc. cbn.
      now rewrite String.eqb_refl.
    + intros b. rewrite in_window_snoc. cbn.
      destruct (String.eqb_spec a b) as [->|Hne].
      * intros _. rewrite get_set_same. eauto.
      * intros Hb. rewrite get_set_other by assumption. now apply Hst.
    + now apply NoDup_set.
  - (* setActionInProgress *)
    apply inv_neutral; try assumption; rewrite ?run_snoc, ?last_started_snoc;
      cbn; auto; unfold setActionInProgress;
      destruct (get a (actionStates (run calls))) as [st|] eqn:Hg; cbn;
      auto; try (apply NoDup_set; assumption).
    + intros b st' Hb Ht _. destruct (String.eqb_spec a b) as [->|Hne].
      * rewrite get_set_same. eauto.
      * rewrite get_set_other by assumption. eauto.
    + intros b st' Hb Ht _. eauto.
  - (* completeAction *)
    destruct (get a (actionStates (run calls))) as [st|] eqn:Hg.
    + eapply inv_finish with (a := a) (st := st);
        [exact IH | | | exact Hg | | reflexivity | | ].
      4: { rewrite run_snoc; cbn; unfold completeAction.
           rewrite Hg, notify_states. reflexivity. }
      * reflexivity.
      * now rewrite last_started_snoc.
      * reflexivity.
      * rewrite run_snoc; cbn; unfold completeAction.
        rewrite Hg, notify_active. reflexivity.
    + apply inv_neutral; try assumption;
        rewrite ?run_snoc, ?last_started_snoc; cbn; unfold completeAction;
        rewrite ?Hg; cbn; auto.
      * intros b o. now eqb_cases.
      * intros b Hb. now eqb_cases.
      * intros L _ HL. destruct (Hst L HL) as [st [Hs _]]. now eqb_cases.
      * intros b st Hb Ht _. eauto.
  - (* failAction *)
    destruct (get a (actionStates (run calls))) as [st|] eqn:Hg.
    + eapply inv_finish with (a := a) (st := st);
        [exact IH | | | exact Hg | | reflexivity | | ].
      4: { rewrite run_snoc; cbn; unfold failAction.
           rewrite Hg, notify_states. reflexivity. }
      * reflexivity.
      * now rewrite last_started_snoc.
      * reflexivity.
      * rewrite run_snoc; cbn; unfold failAction.
        rewrite Hg, notify_active. reflexivity.
    + apply inv_neutral; try assumption;
        rewrite ?run_snoc, ?last_started_snoc; cbn; unfold failAction;
        rewrite ?Hg; cbn; auto.
      * intros b o. now eqb_cases.
      * intros b Hb. now eqb_cases.
      * intros L _ HL. destruct (Hst L HL) as [st [Hs _]]. now eqb_cases.
      * intros b st Hb Ht _. eauto.
  - (* onActionComplete *)
    apply inv_neutral; try assumption; rewrite ?run_snoc, ?last_started_snoc;
      cbn; eauto.
  - (* waitForAction *)
    apply inv_neutral; try assumption; rewrite ?run_snoc, ?last_started_snoc;
      cbn; rewrite ?waitForAction_states, ?waitForAction_active; eauto.
  - (* cleanup *)
    apply inv_neutral; try assumption; rewrite ?run_snoc, ?last_started_snoc;
      cbn; rewrite ?cleanup_active; auto using cleanup_NoDup.
    intros b st Hb Ht _. eauto using cleanup_keeps_unfinished.
Qed.

(** *** Histories without overlap *)

Lemma single_flight_from_snoc before calls c :
  single_flight_from before (calls ++ [c])
  = single_flight_from before calls && start_allowed (before ++ calls) c.
Proof.
  revert before. induction calls as [|d calls IH]; intros before; cbn.
  - now rewrite app_nil_r, andb_true_r.
  - rewrite IH, <- app_assoc. cbn. now rewrite andb_assoc.
Qed.

Lemma single_flight_snoc calls c :
  single_flight (calls ++ [c]) = single_flight calls && start_allowed calls c.
Proof. apply single_flight_from_snoc. Qed.

(** Without overlap only the action started last can be inside its
    window. *)
Lemma single_flight_unique calls :
  single_flight calls = true ->
  forall a, in_window calls a = true -> last_started calls = Some a.
Proof.
  induction calls as [|c calls IH] using rev_ind; [discriminate|].
  rewrite single_flight_snoc. intros [Hsf Hc]%andb_prop a.
  rewrite in_window_snoc, last_started_snoc. specialize (IH Hsf).
  destruct c as [now b t | b | now b | now b e | b cb | b cb | ]; cbn;
    try (now apply IH).
  - destruct (String.eqb_spec b a) as [->|Hne]; [reflexivity|].
    intros Ha. cbn in Hc. apply negb_true_iff in Hc.
    assert (any_in_window calls = true); [|congruence].
    apply existsb_exists. exists a. split; [now apply in_window_started | assumption].
  - destruct (String.eqb_spec b a); [discriminate | now apply IH].
  - destruct (String.eqb_spec b a); [discriminate | now apply IH].
Qed.

Lemma any_in_window_latest calls :
  single_flight calls = true ->
  any_in_window calls
  = match latest_open calls with Some _ => true | None => false end.
Proof.
  intros Hsf. unfold latest_open.
  destruct (any_in_window calls) eqn:Hany.
  - apply existsb_exists in Hany. destruct Hany as [a [_ Ha]].
    now rewrite (single_flight_unique _ Hsf _ Ha), Ha.
  - destruct (last_started calls) as [L|]; [|reflexivity].
    destruct (in_window calls L) eqn:HL; [|reflexivity].
    assert (any_in_window calls = true); [|congruence].
    apply existsb_exists. exists L. split; [now apply in_window_started | assumption].
Qed.

(** C3, as amended.  The tracker keeps one active id.  After any history
    of calls on a fresh manager the active action is the action started
    last, as long as no [completeAction]/[failAction] for it has followed
    that start, and there is none otherwise; so [hasActiveAction()] is true
    exactly inside the window of the action started last.  For histories in
    which actions do not overlap this is the window of the specification:
    [hasActiveAction()] is true exactly when some action is between its
    [startAction] and its matching [completeAction]/[failAction].  And
    [waitForAllActions()] resolves at its first check, arming no timer,
    whenever no action is active. *)
Theorem hasActiveAction_window (calls : list call) :
  activeAction (run calls) = latest_open calls
  /\ hasActiveAction (run calls)
     = match last_started calls with
       | Some a => in_window calls a
       | None => false
       end
  /\ (single_flight calls = true ->
      hasActiveAction (run calls) = any_in_window calls)
  /\ (forall (m : manager) (later : list manager),
        hasActiveAction m = false ->
        waitForAllActions (m :: later) = Some 0%nat).
Proof.
  pose proof (inv_active _ (inv_all calls)) as Hact.
  split; [exact Hact|]. split; [|split].
  - unfold hasActiveAction. rewrite Hact. unfold latest_open.
    destruct (last_started calls) as [L|]; [|reflexivity].
    now destruct (in_window calls L).
  - intros Hsf. rewrite (any_in_window_latest _ Hsf).
    unfold hasActiveAction. now rewrite Hact.
  - intros m later Hm. cbn. now rewrite Hm.
Qed.

(** C3 as stated fails on overlapping actions: after [startAction a],
    [startAction b], [completeAction b] the action [a] is still between its
    start and its completion, yet [hasActiveAction()] answers [false]. *)
Lemma overlapping_actions_not_tracked :
  ~ tracks_every_window
      [StartAction 0 "a" "click"; StartAction 1 "b" "click";
       CompleteAction 2 "b"].
Proof. unfold tracks_every_window. vm_compute. discriminate. Qed.

(** A history without overlap, for which the window property holds. *)
Example single_flight_history :
  single_flight [StartAction 0 "a" "click"; SetActionInProgress "a";
                 CompleteAction 5 "a"; StartAction 6 "b" "navigate"] = true
  /\ hasActiveAction (run [StartAction 0 "a" "click"; SetActionInProgress "a";
                           CompleteAction 5 "a"; StartAction 6 "b" "navigate"])
     = true.
Proof. split; reflexivity. Qed.

(** *** The model at work *)

(** [cleanup] keeps the ten entries that finished last. *)
Example cleanup_keeps_ten :
  map fst (actionStates (run (twelveActions ++ [Cleanup])))
  = ["a"; "b"; "c"; "d"; "e"; "f"; "g"; "h"; "i"; "j"]%string.
Proof. reflexivity. Qed.

(** A promise parked by [waitForAction] is notified once, on completion. *)
Example waiter_is_notified :
  let m := run [StartAction 0 "a" "click"; WaitForAction "a" 7] in
  snd (completeAction 5 "a" m)
  = [{| notified := 7%nat; notifiedSuccess := true; notifiedError := None |}]
  /\ snd (completeAction 6 "a" (fst (completeAction 5 "a" m))) = [].
Proof. split; reflexivity. Qed.

(** [waitForAllActions] polls every 50 ms until the action is over. *)
Example waits_two_polls :
  waitForAllActions [run [StartAction 0 "a" "click"];
                     run [StartAction 0 "a" "click"; SetActionInProgress "a"];
                     run [StartAction 0 "a" "click"; SetActionInProgress "a";
                          FailAction 90 "a" "boom"]]
  = Some 2%nat.
Proof. reflexivity. Qed.

End ActionStateProps.

(* ------------------------------------------------------------------ *)
(** ** The action gateway *)

Module GatewayProps.
Import ActionStateManager.
Import ActionStateProps.

Section Gateway.
Variable jsonStringify : ScriptingMode.payload -> string.
Variable numberToString : JS.number -> string.
Variable urlHostname : string -> option string.

Let callDOMAction :=
  ScriptingMode.callDOMAction jsonStringify numberToString urlHostname.
Let buildErrorMessage :=
  ScriptingMode.buildErrorMessage numberToString urlHostname.

(** The tracker right after [startAction] and [setActionInProgress]. *)
Lemma tracked_in_progress now a t m :
  let m1 := setActionInProgress a (startAction now a t m) in
  activeAction m1 = Some a
  /\ exists st, get a (actionStates m1) = Some st.
Proof.
  cbn. unfold setActionInProgress. cbn. rewrite get_set_same. cbn.
  split; [reflexivity|]. rewrite get_set_same. eauto.
Qed.

Lemma completeAction_terminal now a m st :
  activeAction m = Some a ->
  get a (actionStates m) = Some st ->
  let m' := fst (completeAction now a m) in
  activeAction m' = None
  /\ exists st', getActionState a m' = Some st' /\ status st' = completed.
Proof.
  intros Ha Hg. cbn. unfold completeAction, getActionState. rewrite Hg.
  rewrite notify_active, notify_states. cbn. rewrite Ha. cbn.
  rewrite String.eqb_refl, get_set_same. eauto.
Qed.

Lemma failAction_terminal now a msg m st :
  activeAction m = Some a ->
  get a (actionStates m) = Some st ->
  let m' := fst (failAction now a msg m) in
  activeAction m' = None
  /\ exists st', getActionState a m' = Some st' /\ status st' = failed
                 /\ error st' = Some msg.
Proof.
  intros Ha Hg. cbn. unfold failAction, getActionState. rewrite Hg.
  rewrite notify_active, notify_states. cbn. rewrite Ha. cbn.
  rewrite String.eqb_refl, get_set_same. eauto.
Qed.

(** C10.  Whatever the action type, the payload, the state of the tracker
    and the answers of browser, page and executor, the promise returned by
    [callDOMAction] resolves (it never rejects) with a result that carries
    [success], the action id and the measured duration.  If the executor
    resolved, the tracked action has been marked [completed] and the
    result has [success = true]; if the executor threw, the tracked
    action has been marked [failed] with the constructed error string,
    and the result has [success = false] and carries that same string.
    Either way no action is left active. *)
Theorem callDOMAction_never_rejects
    (type : ScriptingMode.ActionName) (p : ScriptingMode.payload)
    (w : ScriptingMode.world) (m : manager) :
  exists (m' : manager) (r : ScriptingMode.ActionResult),
    callDOMAction type p w m = (m', Resolved r)
    /\ ScriptingMode.actionId r = ScriptingMode.makeActionId type w
    /\ ScriptingMode.duration r
       = (ScriptingMode.clockAtEnd w - ScriptingMode.clockAtStart w)%Z
    /\ activeAction m' = None
    /\ match ScriptingMode.domActions w type p with
       | Resolved _ =>
           ScriptingMode.success r = true
           /\ ScriptingMode.error r = None
           /\ exists st, getActionState (ScriptingMode.actionId r) m' = Some st
                         /\ status st = completed
       | Rejected err =>
           ScriptingMode.success r = false
           /\ exists msg st,
               msg = buildErrorMessage type p
                       (ScriptingMode.detContext (ScriptingMode.details r)) err
               /\ ScriptingMode.error r = Some msg
               /\ getActionState (ScriptingMode.actionId r) m' = Some st
               /\ status st = failed
               /\ error st = Some msg
       end.
Proof.
  unfold callDOMAction, ScriptingMode.callDOMAction.
  destruct (ScriptingMode.gatherContext w) as [url ua].
  unfold ScriptingMode.tryBody, ScriptingMode.catchBlock.
  set (id := ScriptingMode.makeActionId type w).
  destruct (tracked_in_progress (ScriptingMode.clockInStartAction w) id
              (ScriptingMode.nameOf type) m) as [Hact [st Hst]].
  destruct (ScriptingMode.domActions w type p) as [[]|err].
  - destruct (completeAction_terminal (ScriptingMode.clockInFinish w) id _ st
                Hact Hst) as [Hnone [st' [Hg Hs]]].
    do 2 eexists. split; [reflexivity|]. cbn.
    repeat (split; try reflexivity); try assumption. eauto.
  - eexists. eexists. split; [reflexivity|]. cbn.
    match goal with
    | |- context [failAction ?now id ?msg ?m1] =>
        destruct (failAction_terminal now id msg m1 st Hact Hst)
          as [Hnone [st' [Hg [Hs He]]]]
    end.
    repeat (split; try reflexivity); try assumption.
    do 2 eexists. repeat (split; try reflexivity); eassumption.
Qed.

End Gateway.

(** *** The model at work *)

(** A failed click on element 7: the consolidated message, recorded in the
    tracker and returned. *)
Example failed_click_message :
  let w := {| ScriptingMode.clockForId := 1700;
              ScriptingMode.randomSuffix := "p0q1r2s3t";
              ScriptingMode.clockAtStart := 1700;
              ScriptingMode.clockInStartAction := 1701;
              ScriptingMode.tabId := 12;
              ScriptingMode.tabsQuery :=
                Resolved (Some (Some "https://example.com/cart"%string));
              ScriptingMode.userAgentScript :=
                Resolved (Some "Mozilla/5.0 Chrome/125.0 Safari/537.36"%string);
              ScriptingMode.domActions := fun _ _ =>
                Rejected (ScriptingMode.ErrorObject
                  "Click operation failed for element 7. Scroll: Not attempted. ");
              ScriptingMode.clockAtEnd := 1800;
              ScriptingMode.clockInFinish := 1801 |} in
  let '(m, r) :=
    ScriptingMode.callDOMAction (fun _ => "{}"%string) (fun _ => "7"%string)
      (fun _ => Some "example.com"%string)
      ScriptingMode.click (ScriptingMode.ElementPayload 7%float) w empty in
  option_map (fun st => (status st, error st))
             (getActionState "click_1700_p0q1r2s3t" m)
  = Some (failed,
          Some "DOM Action failed: CLICK operation unsuccessful. Duration: 100ms. Tab ID: 12. Domain: example.com. Element ID: 7. Browser: Chrome. Details: Click operation failed for element 7. Scroll: Not attempted. "%string)
  /\ match r with
     | Resolved res =>
         ScriptingMode.success res = false
         /\ ScriptingMode.actionId res = "click_1700_p0q1r2s3t"%string
         /\ ScriptingMode.duration res = 100%Z
     | Rejected _ => False
     end.
Proof. cbn. repeat split. Qed.

End GatewayProps.

(* ------------------------------------------------------------------ *)
(** ** Element identities *)

Module GetAnnotatedDOMProps.
Import GetAnnotatedDOM.

(** Once an element carries a non-empty identity, every later call reads
    it back. *)
Lemma identity_read_back id e u random36 c :
  nth_error (currentElements c) id = Some e ->
  identity c e = Some u -> JS.nonEmpty u = true ->
  getUniqueElementSelectorId id random36 c = (c, Resolved u).
Proof.
  intros He Hu Ht. unfold getUniqueElementSelectorId.
  now rewrite He, Hu, Ht.
Qed.

(** Identity assignment is idempotent whenever the first call answers a
    non-empty identity. *)
Lemma resolveTwice_same id random1 random2 c u :
  (id < List.length (currentElements c))%nat ->
  fst (resolveTwice id random1 random2 c) = Resolved u ->
  JS.nonEmpty u = true ->
  snd (resolveTwice id random1 random2 c) = Resolved u.
Proof.
  intros Hid. unfold resolveTwice.
  destruct (nth_error (currentElements c) id) as [e|] eqn:He;
    [|apply nth_error_None in He; lia].
  assert (Hassign : forall v, JS.nonEmpty v = true ->
            getUniqueElementSelectorId id random2 (setIdentity e v c)
            = (setIdentity e v c, Resolved v)).
  { intros v Hv. apply identity_read_back with (e := e); cbn; auto.
    now rewrite Nat.eqb_refl. }
  assert (Hfirst : exists c1 v,
            getUniqueElementSelectorId id random1 c = (c1, Resolved v)
            /\ (JS.nonEmpty v = true ->
                getUniqueElementSelectorId id random2 c1 = (c1, Resolved v))).
  { unfold getUniqueElementSelectorId at 1. rewrite He.
    destruct (identity c e) as [v|] eqn:Hv; [destruct (JS.nonEmpty v) eqn:Htv|];
      do 2 eexists; (split; [reflexivity|]); auto.
    intros _. now apply identity_read_back with (e := e). }
  destruct Hfirst as [c1 [v [H1 H2]]]. rewrite H1.
  destruct (getUniqueElementSelectorId id random2 c1) as [c2 r2] eqn:E2.
  cbn. intros [= ->] Ht. specialize (H2 Ht). congruence.
Qed.

(** C9 fails when the draw behind the first call is [Math.random() = 0]:
    ["0".substring(2, 10)] is the empty string, it is stored and returned,
    and being falsy it is not read back: the second call draws again and
    returns a different identity. *)
Theorem resolveTwice_differs_on_zero_draw :
  let page := {| currentElements := [7%nat]; identity := fun _ => None |} in
  snd (getUniqueElementSelectorId 0 "0" page) = Resolved EmptyString
  /\ identity (fst (getUniqueElementSelectorId 0 "0" page)) 7%nat
     = Some EmptyString
  /\ resolveTwice 0 "0" "0.i" page = (Resolved EmptyString, Resolved "i"%string).
Proof. repeat split. Qed.

(** *** The model at work *)

(** [getAnnotatedDOM] numbers the elements in document order, and the
    first lookup of an index stamps the element it names. *)
Example annotate_then_resolve :
  let html := ElementNode 1 [ElementNode 2 [OtherNode];
                             ElementNode 3 [ElementNode 4 []; OtherNode]] in
  let c := getAnnotatedDOM html {| currentElements := [];
                                   identity := fun _ => None |} in
  currentElements c = [1; 2; 3; 4]%nat
  /\ resolveTwice 2 "0.4fzyo82mvyr" "0.zzzzzzzzzzz" c
     = (Resolved "4fzyo82m"%string, Resolved "4fzyo82m"%string)
  /\ snd (getUniqueElementSelectorId 9 "0.4fzyo82mvyr" c) = Rejected TypeError.
Proof. repeat split. Qed.

End GetAnnotatedDOMProps.

(* ------------------------------------------------------------------ *)
(** ** The coordinate engine *)

Module CoordinatesProps.
Import DOM Coordinates.

Lemma not_invalid_withinBounds cx cy :
  invalid cx cy = false -> withinBounds cx = true /\ withinBounds cy = true.
Proof.
  unfold invalid. intros H.
  apply orb_false_iff in H. destruct H as [H Hcy1].
  apply orb_false_iff in H. destruct H as [H Hcx1].
  apply orb_false_iff in H. destruct H as [H Hcy0].
  apply orb_false_iff in H. destruct H as [H Hcx0].
  apply orb_false_iff in H. destruct H as [Hnx Hny].
  assert (Hbound : forall v, JS.isNaN v = false -> (v <? 0)%float = false ->
            (MAX_COORDINATE_VALUE <? v)%float = false -> withinBounds v = true).
  { intros v Hn H0 H1. unfold withinBounds. rewrite Hn. cbn [negb andb].
    rewrite (JSFacts.not_ltb_leb v 0%float Hn eq_refl H0).
    exact (JSFacts.not_ltb_leb MAX_COORDINATE_VALUE v eq_refl Hn H1). }
  split; apply Hbound; assumption.
Qed.

(** Whatever [tryBody] returns has passed the validation. *)
Lemma tryBody_returns_valid attempts a st st' c :
  tryBody attempts a st = (st', Resolved (Returned c)) ->
  withinBounds (x c) = true /\ withinBounds (y c) = true.
Proof.
  unfold tryBody.
  destruct (lookup a); [|discriminate].
  destruct (script a) as [[pg|]|]; try discriminate;
    [|destruct (isLastAttempt attempts); discriminate].
  destruct (coordinateScript VIEWPORT_MARGIN pg)
    as [err ex rect style | cx cy vis rect vp].
  - destruct (isLastAttempt attempts); discriminate.
  - destruct vis; cbn [negb].
    + destruct (invalid cx cy) eqn:Hinv.
      * destruct (isLastAttempt attempts); discriminate.
      * intros [= _ <-]. cbn. now apply not_invalid_withinBounds.
    + destruct (scrollScript a); discriminate.
Qed.

Lemma loop_settles remaining attempts observe st sleeps :
  (remaining + attempts = MAX_RETRIES)%nat ->
  settles_within attempts (loop remaining attempts observe st sleeps).
Proof.
  revert attempts st sleeps.
  induction remaining as [|remaining IH]; intros attempts st sleeps Hsum.
  - cbn. unfold settles_within. cbn. exact Hsum.
  - cbn [loop].
    assert (Hnext : forall st' sl,
              (remaining <> 0)%nat ->
              settles_within attempts
                (loop remaining (S attempts) observe st' sl)).
    { intros st' sl _.
      specialize (IH (S attempts) st' sl ltac:(lia)).
      unfold settles_within in *.
      destruct (result (loop remaining (S attempts) observe st' sl));
        [|assumption].
      intuition lia. }
    destruct (tryBody attempts (observe attempts) st) as [st' [[c|ms]|msg]]
      eqn:Htry.
    + unfold settles_within. cbn.
      destruct (tryBody_returns_valid _ _ _ _ _ Htry). repeat split; auto; lia.
    + destruct remaining as [|remaining'].
      * cbn. unfold settles_within. cbn. lia.
      * apply Hnext. discriminate.
    + unfold isLastAttempt. destruct (Nat.eqb_spec attempts (MAX_RETRIES - 1)).
      * unfold settles_within. cbn. unfold MAX_RETRIES in *. lia.
      * apply Hnext. unfold MAX_RETRIES in *. lia.
Qed.

(** C2.  For every element handle and whatever the page answers at each
    attempt (so in particular for a valid handle whose element has a
    non-zero bounding box), [getCenterCoordinates] either returns
    coordinates whose two components are not NaN and lie within
    [[0, MAX_COORDINATE_VALUE]] = [[0, 10000]], having entered the retry loop
    at most 3 times, or it throws, and then it has made exactly
    [MAX_RETRIES] = 3 attempts. *)
Theorem getCenterCoordinates_bounded (observe : nat -> attempt) :
  match result (getCenterCoordinates observe) with
  | Resolved c =>
      JS.isNaN (x c) = false /\ JS.isNaN (y c) = false
      /\ (0 <=? x c)%float = true /\ (x c <=? 10000)%float = true
      /\ (0 <=? y c)%float = true /\ (y c <=? 10000)%float = true
      /\ (1 <= attemptsMade (getCenterCoordinates observe) <= 3)%nat
  | Rejected _ => attemptsMade (getCenterCoordinates observe) = 3%nat
  end.
Proof.
  pose proof (loop_settles MAX_RETRIES 0 observe
                {| lastError := NoReason; lastRect := None;
                   elementFound := false |} [] eq_refl) as H.
  unfold settles_within in H. fold (getCenterCoordinates observe) in H.
  destruct (result (getCenterCoordinates observe)) as [c|e]; [|exact H].
  destruct H as [Hx [Hy Hn]]. unfold withinBounds in Hx, Hy.
  apply andb_prop in Hx, Hy. destruct Hx as [Hx Hx2], Hy as [Hy Hy2].
  apply andb_prop in Hx, Hy. destruct Hx as [Hx0 Hx1], Hy as [Hy0 Hy1].
  apply negb_true_iff in Hx0, Hy0.
  unfold MAX_RETRIES in Hn. repeat split; auto; lia.
Qed.

(** *** The model at work *)

Example center_of_button :
  getCenterCoordinates (fun _ => shows buttonRect)
  = {| result := Resolved {| x := 20; y := 25 |}%float;
       attemptsMade := 1; slept := [] |}.
Proof. reflexivity. Qed.

(** Scrolled into view before the third attempt. *)
Example center_after_scrolling :
  getCenterCoordinates
    (fun i => if Nat.eqb i 2 then shows buttonRect else shows farBelowRect)
  = {| result := Resolved {| x := 20; y := 25 |}%float;
       attemptsMade := 3; slept := [75; 75]%Z |}.
Proof. reflexivity. Qed.

(** Never in the viewport: the error after the loop, three attempts. *)
Example never_in_viewport :
  let r := getCenterCoordinates (fun _ => shows farBelowRect) in
  result r
  = Rejected (FailedAfterMultipleAttempts
                (NotInViewport farBelowRect
                   {| innerWidth := 800; innerHeight := 600 |}%float))
  /\ attemptsMade r = 3%nat /\ slept r = [75; 75; 75]%Z.
Proof. repeat split. Qed.

(** No dimensions: retried with growing delay, then thrown on the third
    attempt. *)
Example no_dimensions_thrice :
  let r := getCenterCoordinates (fun _ => shows emptyRect) in
  (exists e, result r = Rejected e)
  /\ attemptsMade r = 3%nat /\ slept r = [75; 150]%Z.
Proof. cbn. split; [eexists; reflexivity | split; reflexivity]. Qed.

End CoordinatesProps.

(* ------------------------------------------------------------------ *)
(** ** The scroll engine *)

Module ScrollProps.
Import DOM Scroll.

(** The main-path script refuses an element without dimensions. *)
Lemma scrollScript_no_dimensions tolerance pg t :
  target pg = Some t -> noDimensions (initialRect t) = true ->
  success (scrollScript tolerance pg) = false.
Proof. intros Ht Hd. unfold scrollScript. now rewrite Ht, Hd. Qed.

Lemma scrollScript_success_dimensions tolerance pg :
  success (scrollScript tolerance pg) = true ->
  exists t, target pg = Some t /\ noDimensions (initialRect t) = false.
Proof.
  unfold scrollScript. destruct (target pg) as [t|]; [|discriminate].
  destruct (noDimensions (initialRect t)) eqn:Hd; [discriminate|].
  eauto.
Qed.

Lemma loop_by_attempt remaining i observe lr st sleeps n :
  via (loop remaining i observe lr st sleeps) = ByAttempt n ->
  Returned.success (returned (loop remaining i observe lr st sleeps)) = true
  /\ exists rect,
       rectAtAttempt observe lr (ByAttempt n) = Some rect
       /\ noDimensions rect = false.
Proof.
  revert i st sleeps.
  induction remaining as [|remaining IH]; intros i st sleeps; cbn [loop].
  - discriminate.
  - destruct (lookup (observe i)).
    + destruct (script (observe i)) as [[pg|]|] eqn:Hs.
      * destruct (success (scrollScript VIEWPORT_TOLERANCE pg)) eqn:Hok.
        -- cbn. intros [= <-]. split; [reflexivity|].
           destruct (scrollScript_success_dimensions _ _ Hok) as [t [Ht Hd]].
           exists (initialRect t). cbn. now rewrite Hs, Ht.
        -- apply IH.
      * apply IH.
      * destruct (Nat.eqb i (MAX_RETRIES - 1) && lastResortSucceeds lr);
          [discriminate | apply IH].
    + destruct (Nat.eqb i (MAX_RETRIES - 1) && lastResortSucceeds lr);
        [discriminate | apply IH].
Qed.

(** In the main path the property of the specification holds: a success
    returned from inside the [try] read a rectangle with positive width and
    height. *)
Lemma main_path_needs_dimensions observe lr n :
  via (scrollIntoView observe lr) = ByAttempt n ->
  exists rect, rectAtAttempt observe lr (ByAttempt n) = Some rect
               /\ noDimensions rect = false.
Proof. intros H. now apply loop_by_attempt in H. Qed.

(** C4 fails in the last-resort path.  With a collapsed target (width and
    height 0) and a third attempt whose element lookup is rejected, the
    forced-scroll block checks only that the rectangle is within 100 px of
    the window, and [scrollIntoView] returns [success: true]. *)
Theorem last_resort_ignores_dimensions :
  returned (scrollIntoView collapsedThenLookupFails lastResortOnCollapsed)
  = {| Returned.success := true; Returned.partialSuccess := true;
       Returned.reason := None |}
  /\ via (scrollIntoView collapsedThenLookupFails lastResortOnCollapsed)
     = ByLastResort
  /\ rectAtAttempt collapsedThenLookupFails lastResortOnCollapsed ByLastResort
     = Some collapsedRect
  /\ noDimensions collapsedRect = true
  /\ ~ success_needs_dimensions collapsedThenLookupFails lastResortOnCollapsed.
Proof.
  repeat split.
  intros H. destruct (H eq_refl) as [rect [Hr Hd]].
  vm_compute in Hr. injection Hr as <-. vm_compute in Hd. discriminate.
Qed.

(** *** The model at work *)

Example already_visible :
  scrollIntoView (fun _ => finds inViewPage) lastResortOnCollapsed
  = {| returned := {| Returned.success := true; Returned.partialSuccess := true;
       Returned.reason := None |};
       via := ByAttempt 0; slept := [WaitTime] |}.
Proof. reflexivity. Qed.

Example scrolled_on_second_attempt :
  scrollIntoView (fun i => finds (belowFoldPage (Nat.eqb i 0)))
                 lastResortOnCollapsed
  = {| returned := {| Returned.success := true; Returned.partialSuccess := true;
       Returned.reason := None |};
       via := ByAttempt 1; slept := [RetryDelay 0; WaitTime] |}.
Proof. reflexivity. Qed.

(** A page that does not scroll: three attempts, no progress, failure. *)
Example page_does_not_scroll :
  scrollIntoView (fun _ => finds (belowFoldPage true)) lastResortOnCollapsed
  = {| returned := {| Returned.success := false;
                      Returned.partialSuccess := false;
                      Returned.reason := Some "Still not visible"%string |};
       via := Exhausted;
       slept := [RetryDelay 0; RetryDelay 1; RetryDelay 2] |}.
Proof. reflexivity. Qed.

End ScrollProps.

(* ------------------------------------------------------------------ *)
(** ** The stability monitor *)

Module StabilityProps.
Import Stability.

(** The polling promise is never rejected. *)
Lemma checkStability_never_fails startTime polls st lg timers e :
  promise (checkStability startTime polls st lg timers) <> Failed e.
Proof.
  revert st lg timers. induction polls as [|p polls IH]; intros st lg timers;
    cbn [checkStability]; [discriminate|].
  destruct (domSnapshot p) as [[pg|]|]; try apply IH.
  repeat match goal with
         | |- context [if ?b then _ else _] => destruct b
         end; try discriminate; apply IH.
Qed.

(** Neither is the promise of [ensurePageStability]. *)
Lemma ensurePageStability_never_fails c now setup startTime polls e :
  promise (snd (ensurePageStability c now setup startTime polls)) <> Failed e.
Proof.
  unfold ensurePageStability.
  destruct (lastStabilityOk c && _); [discriminate|].
  pose proof (checkStability_never_fails startTime polls
                {| lastStableTime := 0; consistentStableChecks := 0;
                   lastStabilityResult := None |} [] 0 e) as H.
  fold (checkPageLoadingAndStability startTime polls) in H.
  destruct (promise (checkPageLoadingAndStability startTime polls)) eqn:E;
    cbn; congruence.
Qed.

(** A poll that answers after the timeout ends the wait. *)
Lemma checkStability_answer_after_timeout startTime polls st lg timers :
  existsb (fun p => match domSnapshot p with
                    | Resolved (Some _) =>
                        (TIMEOUT <? currentTime p - startTime)%Z
                    | _ => false
                    end) polls = true ->
  promise (checkStability startTime polls st lg timers) = Fulfilled.
Proof.
  revert st lg timers. induction polls as [|p polls IH]; intros st lg timers;
    cbn [checkStability existsb]; [discriminate|].
  destruct (domSnapshot p) as [[pg|]|]; cbn [orb]; try apply IH.
  intros H.
  destruct (_ && _ && _)%bool; [reflexivity|].
  destruct (TIMEOUT <? currentTime p - startTime)%Z; [reflexivity|].
  apply IH. exact H.
Qed.

(** When the polls answer, the wait is over within 82 polls: the page was
    found stable before, or the poll that passes the 2-second timeout ends
    it. *)
Lemma answering_polls_resolve startTime polls :
  answering startTime polls ->
  (82 <= List.length polls)%nat ->
  promise (checkPageLoadingAndStability startTime polls) = Fulfilled.
Proof.
  intros Hans Hlen.
  destruct (nth_error polls 81) as [p|] eqn:Hp;
    [|apply nth_error_None in Hp; lia].
  destruct (Hans 81%nat p Hp) as [[pg Hpg] Ht].
  apply checkStability_answer_after_timeout.
  apply existsb_exists. exists p. split; [eapply nth_error_In, Hp|].
  rewrite Hpg. apply Z.ltb_lt. unfold TIMEOUT, POLL_INTERVAL in *. lia.
Qed.

(** While every poll throws, the promise stays pending, whatever the clock
    reads. *)
Lemma checkStability_rejected_polls startTime times st lg timers :
  promise (checkStability startTime (rejectedPolls times) st lg timers)
  = Unsettled.
Proof.
  revert lg timers. induction times as [|t times IH]; intros lg timers;
    cbn; [reflexivity | apply IH].
Qed.

(** C8 fails when the polls throw.  On a tab where every [executeScript] is
    rejected the [catch] block re-arms the poll without looking at the
    clock: the wait is still pending after any number of polls, also when
    they are an hour past the 2-second timeout; the promise neither resolves
    nor rejects, and the timeout warning is never logged. *)
Theorem stability_wait_hangs_when_polls_throw (startTime : Z) (times : list Z) :
  promise (checkPageLoadingAndStability startTime (rejectedPolls times))
  = Unsettled
  /\ promise (snd (ensurePageStability
                     {| lastStabilityCheck := 0; lastStabilityOk := false |}
                     startTime (Resolved tt) startTime (rejectedPolls times)))
     = Unsettled
  /\ ~ resolves_by_timeout 0 (rejectedPolls [25; 3600000])%Z.
Proof.
  split; [apply checkStability_rejected_polls|]. split.
  - unfold ensurePageStability. cbn [lastStabilityOk andb].
    unfold checkPageLoadingAndStability.
    rewrite checkStability_rejected_polls. cbn [snd].
    apply checkStability_rejected_polls.
  - intros H. specialize (H eq_refl). vm_compute in H. discriminate.
Qed.

(** *** The model at work *)

(** Stable once two consecutive polls agree, 100 ms apart. *)
Example stable_after_fetches :
  checkPageLoadingAndStability 0
    [answers fetchingPage 5; answers calmPage 35; answers calmPage 135]
  = {| promise := Fulfilled;
       log := [NotStable (Some pending_fetch_requests); StabilityAchieved];
       timersArmed := 2 |}.
Proof. reflexivity. Qed.

(** Two calm polls 30 ms apart are not enough. *)
Example not_yet_stable :
  promise (checkPageLoadingAndStability 0
             [answers calmPage 5; answers calmPage 35])
  = Unsettled.
Proof. reflexivity. Qed.

(** Never stable: best effort after the timeout, with the reason logged. *)
Example proceeds_after_timeout :
  checkPageLoadingAndStability 0
    [answers fetchingPage 5; answers fetchingPage 2000;
     answers fetchingPage 2001]
  = {| promise := Fulfilled;
       log := [NotStable (Some pending_fetch_requests);
               NotStable (Some pending_fetch_requests);
               NotStable (Some pending_fetch_requests);
               TimeoutExceeded (Some pending_fetch_requests)];
       timersArmed := 2 |}.
Proof. reflexivity. Qed.

(** A check within 500 ms of a stable one is skipped. *)
Example recent_check_is_skipped :
  ensurePageStability {| lastStabilityCheck := 1000; lastStabilityOk := true |}
                      1400 (Resolved tt) 1400 []
  = ({| lastStabilityCheck := 1000; lastStabilityOk := true |},
     {| promise := Fulfilled; log := []; timersArmed := 0 |}).
Proof. reflexivity. Qed.

End StabilityProps.

(* ------------------------------------------------------------------ *)
(** ** The click executor *)

Module ClickProps.
Import Click.

Lemma outerCatch_flags w c thrown :
  backupClickAttempted (fst (outerCatch w c thrown)) = backupClickAttempted c
  /\ primaryClickAttempted (fst (outerCatch w c thrown))
     = primaryClickAttempted c.
Proof.
  unfold outerCatch. destruct (hideCursorOnError w); [|now split].
  destruct thrown as [c'|message]; [now split|].
  destruct (JS.includes _ message); now split.
Qed.

Local Ltac through_catch :=
  match goal with
  | |- context [outerCatch ?w ?c ?t] =>
      let Hb := fresh "Hb" in
      let Hp := fresh "Hp" in
      destruct (outerCatch_flags w c t) as [Hb Hp];
      rewrite Hb, Hp; now split
  end.

(** Once entered, the backup method is on record, and the record of the
    primary method is kept. *)
Lemma backupPhase_flags w c :
  backupClickAttempted (fst (backupPhase w c)) = true
  /\ primaryClickAttempted (fst (backupPhase w c)) = primaryClickAttempted c.
Proof.
  unfold backupPhase.
  destruct (elementLookup w); [|through_catch].
  destruct (backupClick w) as [[pg|]|]; try through_catch.
  destruct (success (backupClickScript pg)); [|through_catch].
  destruct (hideCursorAfterBackup w); [now split | through_catch].
Qed.

Lemma primaryPhase_attempted w xy c :
  primaryClickAttempted (fst (primaryPhase w xy c)) = true.
Proof.
  unfold primaryPhase. destruct (moveCursor w xy); [|reflexivity].
  destruct (primaryClick w xy) as [[hit|]|]; try reflexivity.
  destruct (primaryClickScript hit); [|reflexivity].
  now destruct (hideCursorAfterPrimary w).
Qed.

Lemma primaryPhase_succeeds w xy c :
  primarySucceedsAt w xy = true ->
  exists hit, snd (primaryPhase w xy c) = Resolved hit
              /\ backupClickAttempted (fst (primaryPhase w xy c))
                 = backupClickAttempted c.
Proof.
  unfold primarySucceedsAt, primaryPhase.
  destruct (moveCursor w xy); [|discriminate].
  destruct (primaryClick w xy) as [[hit|]|]; try discriminate.
  destruct (hideCursorAfterPrimary w);
    [|now destruct (primaryClickScript hit)].
  intros ->. eexists. split; reflexivity.
Qed.

Lemma primaryPhase_fails w xy c :
  primarySucceedsAt w xy = false ->
  exists message, snd (primaryPhase w xy c) = Rejected message.
Proof.
  unfold primarySucceedsAt, primaryPhase.
  destruct (moveCursor w xy); [|intros _; eexists; reflexivity].
  destruct (primaryClick w xy) as [[hit|]|];
    try (intros _; eexists; reflexivity).
  destruct (hideCursorAfterPrimary w).
  - intros ->. eexists; reflexivity.
  - intros _. destruct (primaryClickScript hit); eexists; reflexivity.
Qed.

Lemma coordinateRetries_backup n k partial get c :
  backupClickAttempted (coordinateRetries n k partial get c)
  = backupClickAttempted c.
Proof.
  revert k c. induction n as [|n IH]; intros k c; cbn [coordinateRetries];
    [reflexivity|].
  destruct (get k) as [new|message].
  - destruct (coordinates c) as [old|]; [destruct (isStableAt old new)|];
      rewrite ?IH; reflexivity.
  - destruct partial; rewrite ?IH; reflexivity.
Qed.

(** The scroll phase in the situation of C1: the mismatch is noted, the
    coordinates are kept, and neither the re-scroll nor the backup flag is
    set. *)
Lemma scrollPhase_different_element w sr xy pg :
  scroll w = Resolved sr ->
  Scroll.Returned.partialSuccess sr = true ->
  coordinates
    (coordinateRetries MAX_COORDINATE_RETRIES 0 true (coordinatesAt w)
       (noteScroll true (Scroll.Returned.success sr) true initialContext)) = Some xy ->
  visibilityCheck w xy = Resolved (Some pg) ->
  targetFound pg = true ->
  elementFromPoint pg = DifferentElement ->
  let ph := scrollPhase w initialContext in
  coordinates (context ph) = Some xy
  /\ lastError (context ph) = Some NotVisibleAtCoordinates
  /\ backupClickAttempted (context ph) = false
  /\ useBackupMethod ph = false
  /\ reScrolled ph = false.
Proof.
  intros Hs Hp Hxy Hv Ht He. cbn zeta. unfold scrollPhase.
  rewrite Hs, Hp, andb_false_r.
  change (noteScroll true (Scroll.Returned.success sr) true
            (noteScroll true (scrollSuccess initialContext)
               (scrollPartialSuccess initialContext) initialContext))
    with (noteScroll true (Scroll.Returned.success sr) true initialContext).
  rewrite Hxy, Hv. unfold visibilityScript. rewrite Ht, He.
  cbn [negb context useBackupMethod reScrolled noteError coordinates
       lastError backupClickAttempted].
  rewrite coordinateRetries_backup. repeat split. exact Hxy.
Qed.

(** C1, as amended.  When the scroll reported partial success, coordinates
    were obtained, and the element-at-point check finds a different element
    at them, [click] neither fails nor re-scrolls: it notes the mismatch and
    goes on to the primary method at those coordinates.  If the primary
    method goes through (the cursor moves, some element is at the point and
    receives the mouse events, the cursor is hidden), [click] resolves and
    the backup method is never attempted; the backup method is attempted
    exactly when the primary method fails. *)
Theorem different_element_goes_to_primary (w : world) :
  differentElementAfterPartialScroll w ->
  exists xy,
    coordinates (context (scrollPhase w initialContext)) = Some xy
    /\ didReScroll (click w) = false
    /\ primaryClickAttempted (final (click w)) = true
    /\ (primarySucceedsAt w xy = true ->
        result (click w) = Resolved tt
        /\ backupClickAttempted (final (click w)) = false)
    /\ (primarySucceedsAt w xy = false ->
        backupClickAttempted (final (click w)) = true).
Proof.
  intros [sr [xy [pg [Hi [Hs [Hp [Hxy [Hv [Ht He]]]]]]]]].
  destruct (scrollPhase_different_element w sr xy pg Hs Hp Hxy Hv Ht He)
    as [Hc [_ [Hb [Hu Hr]]]].
  exists xy. split; [exact Hc|].
  unfold click. rewrite Hi, Hc, Hu.
  pose proof (primaryPhase_attempted w xy (context (scrollPhase w initialContext)))
    as Hatt.
  destruct (primarySucceedsAt w xy) eqn:Hprim.
  - destruct (primaryPhase_succeeds w xy (context (scrollPhase w initialContext))
                Hprim) as [hit [Hres Hback]].
    destruct (primaryPhase w xy (context (scrollPhase w initialContext)))
      as [c r]. cbn in Hres, Hback, Hatt. subst r. cbn.
    repeat split; try assumption; try discriminate.
    congruence.
  - destruct (primaryPhase_fails w xy (context (scrollPhase w initialContext))
                Hprim) as [message Hres].
    destruct (primaryPhase w xy (context (scrollPhase w initialContext)))
      as [c r]. cbn in Hres, Hatt. subst r.
    destruct (backupPhase_flags w (noteError (PrimaryClickFailed message) c))
      as [Hb' Hp'].
    destruct (backupPhase w (noteError (PrimaryClickFailed message) c))
      as [c' r'] eqn:Hbp. cbn in Hb', Hp' |- *.
    repeat split; try assumption; try discriminate.
    + rewrite Hp'. exact Hatt.
    + intros _. exact Hb'.
Qed.

Lemma different_element_goes_to_primary_witness :
  exists xy,
    coordinates (context (scrollPhase coveredTarget initialContext)) = Some xy
    /\ didReScroll (click coveredTarget) = false
    /\ primaryClickAttempted (final (click coveredTarget)) = true
    /\ (primarySucceedsAt coveredTarget xy = true ->
        result (click coveredTarget) = Resolved tt
        /\ backupClickAttempted (final (click coveredTarget)) = false)
    /\ (primarySucceedsAt coveredTarget xy = false ->
        backupClickAttempted (final (click coveredTarget)) = true).
Proof.
  apply (different_element_goes_to_primary coveredTarget).
  unfold differentElementAfterPartialScroll.
  do 3 eexists. repeat split; reflexivity.
Defined.

(** C1 as stated fails on a covered target: the primary method dispatches
    its mouse events to the covering element, [click] resolves, and the
    backup method is never reached. *)
Lemma covered_target_never_reaches_backup : ~ proceeds_to_backup coveredTarget.
Proof.
  intros H.
  assert (Hsit : differentElementAfterPartialScroll coveredTarget).
  { unfold differentElementAfterPartialScroll.
    do 3 eexists. repeat split; reflexivity. }
  specialize (H Hsit). vm_compute in H. discriminate.
Qed.

(** *** The model at work *)

(** On the covered target the click lands on the covering element. *)
Example covered_target_run :
  click coveredTarget
  = {| result := Resolved tt;
       final := {| scrollAttempted := true; scrollSuccess := false;
                   scrollPartialSuccess := true; coordinatesObtained := true;
                   coordinates :=
                     Some {| Coordinates.x := 120; Coordinates.y := 340 |}%float;
                   cursorMoved := true; primaryClickAttempted := true;
                   backupClickAttempted := false;
                   lastError := Some NotVisibleAtCoordinates |};
       didReScroll := false;
       primaryLandedOn := Some DifferentElement |}.
Proof. reflexivity. Qed.

(** With nothing at the point the primary method fails and the backup
    method clicks the live element. *)
Example backup_after_primary_failure :
  let r := click coveredThenGone in
  result r = Resolved tt
  /\ primaryClickAttempted (final r) = true
  /\ backupClickAttempted (final r) = true
  /\ lastError (final r)
     = Some (PrimaryClickFailed
               "No element found at the specified coordinates").
Proof. repeat split. Qed.

End ClickProps.

(* ------------------------------------------------------------------ *)
(** ** The setValue executor *)

Module SetValueProps.
Import SetValue.

(** *** Enter in the typing script *)

Lemma enterKeyEvents_no_submission el :
  existsb isSubmission (enterKeyEvents el) = false.
Proof. unfold enterKeyEvents. now destruct (keydownPrevented el). Qed.

(** In a text area Enter splices a line break into the value, at the
    position the script reads for the caret, and submits nothing. *)
Lemma typeNewline_textarea el :
  kind el = TextArea ->
  let pos := orElse (selectionStart el) (String.length (value el)) in
  value (fst (typeNewline el)) = spliceNewline pos pos (value el)
  /\ selectionStart (fst (typeNewline el)) = (pos + 1)%nat
  /\ existsb isSubmission (snd (typeNewline el)) = false.
Proof.
  intros Hk. unfold typeNewline. rewrite Hk.
  cbn [fst snd value selectionStart setText]. repeat split.
  rewrite existsb_app, enterKeyEvents_no_submission. reflexivity.
Qed.

(** That position is the caret, unless the caret is at offset 0 of a
    non-empty value. *)
Lemma typeNewline_textarea_at_caret el :
  kind el = TextArea ->
  selectionStart el <> 0%nat \/ value el = EmptyString ->
  value (fst (typeNewline el)) = lineBreakAtCaret el.
Proof.
  intros Hk Hc. destruct (typeNewline_textarea el Hk) as [Hv _].
  rewrite Hv. unfold lineBreakAtCaret, orElse.
  destruct (Nat.eqb_spec (selectionStart el) 0) as [H0|H0]; [|reflexivity].
  destruct Hc as [Hc|Hc]; [contradiction|]. now rewrite H0, Hc.
Qed.

(** In a plain input, with the Enter keydown not cancelled, the enclosing
    form receives a submission attempt: the [submit] event is dispatched on
    it, and unless a listener cancels it [form.submit()] is called, or the
    submit button clicked when that call throws. *)
Lemma typeNewline_input_submits el f :
  kind el = InputElement ->
  isContentEditable el = false ->
  keydownPrevented el = false ->
  enclosingForm el = Some f ->
  In (DispatchEvent OnForm "submit") (snd (typeNewline el))
  /\ (submitNotCancelled f = true -> submitCallThrows f = false ->
      In FormSubmit (snd (typeNewline el)))
  /\ (submitNotCancelled f = true -> submitCallThrows f = true ->
      hasSubmitButton f = true ->
      In ClickSubmitButton (snd (typeNewline el)))
  /\ value (fst (typeNewline el)) = value el.
Proof.
  intros Hk He Hp Hf. unfold typeNewline, enterKeyEvents, submitForm.
  rewrite Hk, He, Hp, Hf. cbn. repeat split.
  - auto 6.
  - intros -> ->. cbn. auto 6.
  - intros -> -> ->. cbn. auto 6.
Qed.

(** C6 fails for a caret at offset 0.  [selectionStart || value.length]
    takes the caret position 0 for a missing one: with the caret in front
    of [ab], Enter appends the line break at the end of the value instead of
    inserting it at the caret; [handleEnterKey] does the same. *)
Theorem enter_at_caret_zero_appends :
  value (fst (typeNewline caretAtStart))
  = String "a" (String "b" (String newline EmptyString))
  /\ value (fst (handleEnterKey false caretAtStart))
     = String "a" (String "b" (String newline EmptyString))
  /\ lineBreakAtCaret caretAtStart
     = String newline (String "a" (String "b" EmptyString))
  /\ value (fst (typeNewline caretAtStart)) <> lineBreakAtCaret caretAtStart
  /\ existsb isSubmission (snd (typeNewline caretAtStart)) = false.
Proof. repeat split. discriminate. Qed.

(** *** Completion timing *)

(** Every event the typing script schedules happens within
    [length * 50] ms of its start. *)
Lemma typing_within index total chars el :
  (index + List.length chars = total)%nat ->
  Forall (fun e => (fst e <= Z.of_nat total * 50)%Z)
         (snd (typing index total chars el)).
Proof.
  revert index el. induction chars as [|c chars IH]; intros index el Hlen;
    cbn [typing]; [constructor|].
  destruct (keystroke c el) as [el1 fx].
  specialize (IH (S index) el1 ltac:(cbn in Hlen; lia)).
  destruct (typing (S index) total chars el1) as [el2 rest]. cbn [snd] in *.
  cbn in Hlen.
  apply Forall_app. split; [|apply Forall_app; split; [|exact IH]].
  - apply Forall_forall. intros [t e] Hin. apply in_map_iff in Hin.
    destruct Hin as [e' [[= <- _] _]]. cbn. lia.
  - destruct (index =? total - 1)%nat; constructor; [cbn; lia | constructor].
Qed.

Lemma length_list_ascii_of_string s :
  List.length (list_ascii_of_string s) = String.length s.
Proof. induction s as [|c s IH]; cbn; [reflexivity | now rewrite IH]. Qed.

(** A text without a backslash reaches the typing script unchanged. *)
Lemma processValue_plain raw :
  JS.includes (String "092"%char EmptyString) raw = false ->
  processValue raw = raw.
Proof.
  induction raw as [|c raw IH]; [reflexivity|].
  cbn [JS.includes String.prefix].
  destruct (ascii_dec "092"%char c) as [<-|Hc].
  - destruct raw; cbn; discriminate.
  - intros H. cbn [processValue]. destruct raw as [|c' raw']; [reflexivity|].
    destruct (Ascii.eqb_spec c "092"%char) as [->|_]; [congruence|].
    cbn [andb]. f_equal. apply IH. exact H.
Qed.

(** C5, as amended.  For a [setValue] call under non-failing conditions (the
    element is found, the typing script reports success, the cursor can be
    hidden), let [L] be the length of the text handed to the typing script:
    the value with every backslash-[n] pair replaced by one line break, which
    is the value itself when it holds no backslash.  The promise resolves
    from a timer armed, when the typing script has returned, with the delay
    [L * 50 + 100] ms.  So with time running forward it does not resolve
    before [L * 50] ms have elapsed since the typing script started, by when
    every event the script scheduled has happened; and it resolves before
    [L * 50 + 500] ms exactly when the round trip of the script, the lateness
    of the timer and the hiding of the cursor together take less than
    400 ms. *)
Theorem setValue_completion_window (rawValue : string) (w : world)
    (k : clock) (el : element) :
  nonFailing w -> forward k ->
  let text := processValue rawValue in
  let L := Z.of_nat (String.length text) in
  exists t : Z,
    executeSetValueWithCompletion text w
    = SettlesByTimer (L * 50 + 100) (Some (Resolved tt))
    /\ settledAt k (executeSetValueWithCompletion text w) = Some t
    /\ (scriptStart k + L * 50 <= t)%Z
    /\ (t < scriptStart k + L * 50 + 500 <-> overhead k < 400)%Z
    /\ Forall (fun e => (fst e <= L * 50)%Z)
              (snd (enhancedSetValueScript text el))
    /\ (JS.includes (String "092"%char EmptyString) rawValue = false ->
        text = rawValue).
Proof.
  intros [[u Hu] [[r [Hr Hs]] Hh]] [Hk1 [Hk2 Hk3]] text L.
  assert (Hrun : executeSetValueWithCompletion text w
                 = SettlesByTimer (L * 50 + 100) (Some (Resolved tt))).
  { unfold executeSetValueWithCompletion. now rewrite Hu, Hr, Hs, Hh. }
  rewrite Hrun. cbn [settledAt]. eexists. split; [reflexivity|].
  split; [reflexivity|].
  split; [lia|]. split; [unfold overhead; lia|].
  split; [|apply processValue_plain].
  apply typing_within. cbn. apply length_list_ascii_of_string.
Qed.

Lemma setValue_completion_window_witness :
  exists t : Z,
    executeSetValueWithCompletion (processValue "hello") promptWorld
    = SettlesByTimer
        (Z.of_nat (String.length (processValue "hello")) * 50 + 100)
        (Some (Resolved tt))
    /\ settledAt promptClock
         (executeSetValueWithCompletion (processValue "hello") promptWorld)
       = Some t
    /\ (scriptStart promptClock
        + Z.of_nat (String.length (processValue "hello")) * 50 <= t)%Z
    /\ (t < scriptStart promptClock
            + Z.of_nat (String.length (processValue "hello")) * 50 + 500
        <-> overhead promptClock < 400)%Z
    /\ Forall (fun e => (fst e
                         <= Z.of_nat (String.length (processValue "hello"))
                            * 50)%Z)
              (snd (enhancedSetValueScript (processValue "hello")
                                           caretAtStart))
    /\ (JS.includes (String "092"%char EmptyString) "hello" = false ->
        processValue "hello" = "hello"%string).
Proof.
  apply (setValue_completion_window "hello" promptWorld promptClock caretAtStart).
  - unfold nonFailing. repeat split; eexists; repeat split; reflexivity.
  - unfold forward. cbn. lia.
Defined.

(** C5, as stated, fails on both sides of the window.  The floor: a value
    of three backslash-[n] pairs has six characters and no line break, but
    three characters are typed and the timer is armed with 250 ms, so with
    everything answering at once the promise settles 256 ms after the typing
    script started, before the 300 ms of the floor.  The ceiling: when the
    result of the typing script needs 400 ms to come back, the promise for
    [hello] settles 750 ms after the script started, not before that. *)
Lemma setValue_outside_the_window :
  ~ completes_in_window threeEscapes promptWorld promptClock
  /\ ~ completes_in_window "hello" promptWorld slowClock.
Proof.
  assert (Hw : nonFailing promptWorld)
    by (unfold nonFailing; repeat split; eexists; repeat split; reflexivity).
  split; intros H.
  - destruct (H eq_refl Hw ltac:(unfold forward; cbn; lia)) as [t [Ht Hin]].
    vm_compute in Ht. injection Ht as <-. vm_compute in Hin.
    destruct Hin as [Hfloor _]. now apply Hfloor.
  - destruct (H eq_refl Hw ltac:(unfold forward; cbn; lia)) as [t [Ht Hin]].
    vm_compute in Ht. injection Ht as <-. vm_compute in Hin.
    destruct Hin as [_ Hceiling]. discriminate.
Qed.

(** *** The model at work *)

(** Typing [hi] and Enter into the search box: one character every 50 ms,
    the form submitted by the Enter at 100 ms, [change] at 150 ms. *)
Example typing_hi_enter :
  enhancedSetValueScript (String "h" (String "i" (String newline EmptyString)))
                         searchBox
  = (setText "hi" 2 searchBox,
     [(0, DispatchEvent OnElement "keydown");
      (0, DispatchEvent OnElement "keypress");
      (0, DispatchEvent OnElement "keyup");
      (0, DispatchEvent OnElement "input");
      (50, DispatchEvent OnElement "keydown");
      (50, DispatchEvent OnElement "keypress");
      (50, DispatchEvent OnElement "keyup");
      (50, DispatchEvent OnElement "input");
      (100, DispatchEvent OnElement "keydown");
      (100, DispatchEvent OnElement "keypress");
      (100, DispatchEvent OnElement "keyup");
      (100, DispatchEvent OnForm "submit");
      (100, FormSubmit);
      (100, DispatchEvent OnElement "input");
      (150, DispatchEvent OnElement "change")]%Z).
Proof. reflexivity. Qed.

Example processValue_escapes :
  processValue (String "a" (String "092" (String "n" (String "b" EmptyString))))
  = String "a" (String newline (String "b" EmptyString)).
Proof. reflexivity. Qed.

End SetValueProps.

(* ------------------------------------------------------------------ *)
(** ** Text search *)

Module TextFacts.

Lemma append_assoc (a b c : string) : ((a ++ b) ++ c = a ++ (b ++ c))%string.
Proof. induction a as [|x a IH]; cbn; [reflexivity | now rewrite IH]. Qed.

Lemma append_nil_r (a : string) : (a ++ EmptyString = a)%string.
Proof. induction a as [|x a IH]; cbn; [reflexivity | now rewrite IH]. Qed.

Lemma prefix_nil (s : string) : String.prefix EmptyString s = true.
Proof. now destruct s. Qed.

Lemma prefix_app (p s : string) : String.prefix p (p ++ s) = true.
Proof.
  induction p as [|a p IH]; cbn; [apply prefix_nil|].
  destruct (ascii_dec a a); [exact IH | contradiction].
Qed.

Lemma prefix_app_l (p s t : string) :
  String.prefix p s = true -> String.prefix p (s ++ t) = true.
Proof.
  revert p. induction s as [|b s IH]; intros p; cbn.
  - destruct p; [intros _; apply prefix_nil | discriminate].
  - destruct p as [|a p]; [reflexivity|].
    destruct (ascii_dec a b); [apply IH | discriminate].
Qed.

Lemma includes_prefix (n s : string) :
  String.prefix n s = true -> JS.includes n s = true.
Proof. intros H. destruct s; cbn in *; now rewrite H. Qed.

Lemma includes_app_r (n a s : string) :
  JS.includes n s = true -> JS.includes n (a ++ s) = true.
Proof.
  intros H. induction a as [|c a IH]; cbn; [exact H|].
  destruct n as [|c' n]; [reflexivity|].
  destruct (ascii_dec c' c); [|exact IH].
  destruct (String.prefix n (a ++ s)); [reflexivity | exact IH].
Qed.

Lemma includes_app_l (n s b : string) :
  JS.includes n s = true -> JS.includes n (s ++ b) = true.
Proof.
  induction s as [|c s IH].
  - destruct n; [intros _; apply includes_prefix, prefix_nil | discriminate].
  - intros H. cbn [JS.includes] in H.
    destruct (String.prefix n (String c s)) eqn:Hp.
    + apply includes_prefix. now apply prefix_app_l.
    + specialize (IH H). change (String c s ++ b)%string with (String c (s ++ b)).
      cbn [JS.includes]. rewrite IH.
      now destruct (String.prefix n (String c (s ++ b))).
Qed.

(** [needle] occurs in [a ++ needle ++ b]. *)
Lemma includes_middle (n a b : string) : JS.includes n (a ++ n ++ b) = true.
Proof. apply includes_app_r, includes_prefix, prefix_app. Qed.

End TextFacts.

(* ------------------------------------------------------------------ *)
(** ** Polling and retrying helpers *)

Module PageUtilsProps.
Import ScriptingMode PageUtils.

Lemma seq_snoc (n : nat) : seq 0 (S n) = seq 0 n ++ [n].
Proof. now rewrite seq_S. Qed.

Lemma retryLoop_shape {T : Type} remaining attempt maxRetries description
      (fn : nat -> outcome thrown T) lastError :
  (attempt + remaining = Z.to_nat maxRetries)%nat ->
  let r := retryLoop remaining attempt maxRetries description fn lastError
                     (seq 0 (Nat.min attempt (Z.to_nat maxRetries - 1))) in
  (attempt <= callsMade r <= Z.to_nat maxRetries)%nat
  /\ backoffs r = seq 0 (callsMade r - 1).
Proof.
  revert attempt lastError.
  induction remaining as [|remaining IH]; intros attempt lastError Hsum;
    cbn [retryLoop].
  - cbn [callsMade backoffs]. split; [lia|]. f_equal. lia.
  - destruct (fn attempt) as [v|e]; cbn [callsMade backoffs].
    + split; [lia|]. f_equal. lia.
    + pose proof (IH (S attempt) (Some e) ltac:(lia)) as IH'.
      cbv zeta in IH'.
      destruct (Z.ltb_spec (Z.of_nat attempt) (maxRetries - 1)).
      * replace (Nat.min attempt (Z.to_nat maxRetries - 1)) with attempt by lia.
        rewrite <- seq_snoc.
        replace (Nat.min (S attempt) (Z.to_nat maxRetries - 1))
          with (S attempt) in IH' by lia.
        split; [lia | apply IH'].
      * replace (Nat.min (S attempt) (Z.to_nat maxRetries - 1))
          with (Nat.min attempt (Z.to_nat maxRetries - 1)) in IH' by lia.
        split; [lia | apply IH'].
Qed.

(** [retryWithBackoff] calls [fn] at most [maxRetries] times, and it sleeps
    the backoff delay between two consecutive calls only: after attempt
    [0], [1], ... up to the last but one call made, never after the last
    call. *)
Theorem retryWithBackoff_calls_and_sleeps {T : Type}
    (fn : nat -> outcome thrown T) (maxRetries : Z) (description : string) :
  (callsMade (retryWithBackoff fn maxRetries description)
   <= Z.to_nat maxRetries)%nat
  /\ backoffs (retryWithBackoff fn maxRetries description)
     = seq 0 (callsMade (retryWithBackoff fn maxRetries description) - 1).
Proof.
  pose proof (retryLoop_shape (Z.to_nat maxRetries) 0 maxRetries description
                fn None eq_refl) as H.
  cbv zeta in H.
  change (seq 0 (Nat.min 0 (Z.to_nat maxRetries - 1))) with (@nil nat) in H.
  unfold retryWithBackoff. split; [lia | apply H].
Qed.

Lemma retryLoop_first_success {T : Type} remaining attempt maxRetries
      description (fn : nat -> outcome thrown T) lastError slept k v :
  (attempt <= k < attempt + remaining)%nat ->
  (forall i, (attempt <= i < k)%nat -> exists e, fn i = Rejected e) ->
  fn k = Resolved v ->
  let r := retryLoop remaining attempt maxRetries description fn lastError
                     slept in
  settled r = Resolved v /\ callsMade r = S k.
Proof.
  revert attempt lastError slept.
  induction remaining as [|remaining IH]; intros attempt lastError slept Hk
    Hfail Hok; [lia|].
  cbn. destruct (Nat.eq_dec attempt k) as [->|Hne].
  - rewrite Hok. cbn. auto.
  - destruct (Hfail attempt ltac:(lia)) as [e He]. rewrite He.
    apply IH; [lia | intros i Hi; apply Hfail; lia | assumption].
Qed.

(** The first call that succeeds settles [retryWithBackoff]: if the calls
    before call [k] fail and call [k] (with [k < maxRetries]) resolves
    with [v], the result is [v] and [fn] has been called [k + 1] times. *)
Theorem retryWithBackoff_first_success {T : Type}
    (fn : nat -> outcome thrown T) (maxRetries : Z) (description : string)
    (k : nat) (v : T) :
  (Z.of_nat k < maxRetries)%Z ->
  (forall i, (i < k)%nat -> exists e, fn i = Rejected e) ->
  fn k = Resolved v ->
  settled (retryWithBackoff fn maxRetries description) = Resolved v
  /\ callsMade (retryWithBackoff fn maxRetries description) = S k.
Proof.
  intros Hk Hfail Hok. unfold retryWithBackoff.
  apply retryLoop_first_success; [lia | intros i Hi; apply Hfail; lia | assumption].
Qed.

Lemma retryWithBackoff_first_success_witness :
  let fn := fun i : nat =>
    if Nat.eqb i 2 then Resolved 42%Z
    else Rejected (ErrorObject "busy") in
  settled (retryWithBackoff fn 3 "lookup") = Resolved 42%Z
  /\ callsMade (retryWithBackoff fn 3 "lookup") = 3%nat.
Proof.
  apply (retryWithBackoff_first_success
           (fun i : nat => if Nat.eqb i 2 then Resolved 42%Z
                           else Rejected (ErrorObject "busy"))
           3 "lookup" 2 42%Z).
  - lia.
  - intros i Hi. exists (ErrorObject "busy").
    destruct i as [|[|i]]; [reflexivity | reflexivity | lia].
  - reflexivity.
Defined.

Lemma retryLoop_exhausted {T : Type} remaining attempt maxRetries description
      (fn : nat -> outcome thrown T) (errs : nat -> thrown) lastError slept :
  (forall i, (attempt <= i < attempt + remaining)%nat ->
             fn i = Rejected (errs i)) ->
  let r := retryLoop remaining attempt maxRetries description fn lastError
                     slept in
  settled r
  = Rejected (description ++ " failed after " ++ decimal maxRetries
              ++ " attempts. Last error: "
              ++ lastErrorText
                   (if Nat.eqb remaining 0 then lastError
                    else Some (errs (attempt + remaining - 1)%nat)))%string
  /\ callsMade r = (attempt + remaining)%nat.
Proof.
  revert attempt lastError slept.
  induction remaining as [|remaining IH]; intros attempt lastError slept Hfail;
    cbn [retryLoop].
  - cbn. split; [reflexivity | lia].
  - rewrite (Hfail attempt) by lia.
    destruct (IH (S attempt) (Some (errs attempt))
                 (if (Z.of_nat attempt <? maxRetries - 1)%Z
                  then slept ++ [attempt] else slept)) as [Hs Hc].
    { intros i Hi. apply Hfail. lia. }
    rewrite Hs, Hc. split; [|lia].
    cbn [Nat.eqb].
    destruct remaining as [|remaining]; cbn [Nat.eqb].
    + now replace (attempt + 1 - 1)%nat with attempt by lia.
    + now replace (S attempt + S remaining - 1)%nat
        with (attempt + S (S remaining) - 1)%nat by lia.
Qed.

(** When every one of the [maxRetries] calls fails, [retryWithBackoff]
    has called [fn] exactly [maxRetries] times and throws an error that
    names the operation, the number of attempts and the message of the
    last failure. *)
Theorem retryWithBackoff_exhausted {T : Type}
    (fn : nat -> outcome thrown T) (errs : nat -> thrown) (maxRetries : Z)
    (description : string) :
  (1 <= maxRetries)%Z ->
  (forall i, (Z.of_nat i < maxRetries)%Z -> fn i = Rejected (errs i)) ->
  settled (retryWithBackoff fn maxRetries description)
  = Rejected (description ++ " failed after " ++ decimal maxRetries
              ++ " attempts. Last error: "
              ++ errorText (errs (Z.to_nat maxRetries - 1)%nat))%string
  /\ callsMade (retryWithBackoff fn maxRetries description)
     = Z.to_nat maxRetries.
Proof.
  intros Hpos Hfail. unfold retryWithBackoff.
  destruct (retryLoop_exhausted (Z.to_nat maxRetries) 0 maxRetries description
              fn errs None []) as [Hs Hc].
  { intros i Hi. apply Hfail. lia. }
  rewrite Hs, Hc. split; [|reflexivity].
  destruct (Z.to_nat maxRetries) eqn:E; [lia|]. reflexivity.
Qed.

Lemma retryWithBackoff_exhausted_witness :
  let fn := fun i : nat =>
    @Rejected thrown Z (ErrorObject (if Nat.eqb i 2 then "gone" else "busy")) in
  settled (retryWithBackoff fn 3 "lookup")
  = Rejected "lookup failed after 3 attempts. Last error: gone"%string
  /\ callsMade (retryWithBackoff fn 3 "lookup") = 3%nat.
Proof.
  apply (retryWithBackoff_exhausted
           (fun i : nat => @Rejected thrown Z
              (ErrorObject (if Nat.eqb i 2 then "gone" else "busy")))
           (fun i : nat => ErrorObject (if Nat.eqb i 2 then "gone" else "busy"))
           3 "lookup").
  - lia.
  - reflexivity.
Defined.

(** *** [waitForCondition] *)

Lemma waitLoop_true startTime timeout clock conditionFn i :
  answer (waitLoop startTime timeout clock conditionFn i) = Some true ->
  exists k now,
    nth_error clock k = Some now
    /\ (now - startTime < timeout)%Z
    /\ conditionFn (i + k)%nat = Resolved true
    /\ checks (waitLoop startTime timeout clock conditionFn i) = S (i + k)
    /\ naps (waitLoop startTime timeout clock conditionFn i) = (i + k)%nat.
Proof.
  revert i. induction clock as [|now clock IH]; intros i; cbn; [discriminate|].
  destruct (Z.ltb_spec (now - startTime) timeout); [|discriminate].
  destruct (conditionFn i) as [[|]|e] eqn:Hc.
  - intros _. exists 0%nat, now. rewrite Nat.add_0_r. cbn. auto.
  - intros H'. destruct (IH (S i) H') as [k [t [Hn [Ht [Hk [Hch Hnp]]]]]].
    exists (S k), t. replace (i + S k)%nat with (S i + k)%nat by lia. auto.
  - intros H'. destruct (IH (S i) H') as [k [t [Hn [Ht [Hk [Hch Hnp]]]]]].
    exists (S k), t. replace (i + S k)%nat with (S i + k)%nat by lia. auto.
Qed.

(** [waitForCondition] answers [true] only for a check that itself
    answered [true] and that started before the timeout; it has then slept
    once after each earlier check and not after this one. *)
Theorem waitForCondition_true_is_observed
    (conditionFn : nat -> outcome thrown bool) (timeout startTime : Z)
    (clock : list Z) :
  answer (waitForCondition conditionFn timeout startTime clock) = Some true ->
  exists k now,
    nth_error clock k = Some now
    /\ (now - startTime < timeout)%Z
    /\ conditionFn k = Resolved true
    /\ checks (waitForCondition conditionFn timeout startTime clock) = S k
    /\ naps (waitForCondition conditionFn timeout startTime clock) = k.
Proof. intros H. exact (waitLoop_true _ _ _ _ 0%nat H). Qed.

Lemma waitForCondition_true_is_observed_witness :
  let conditionFn := fun i : nat =>
    if Nat.eqb i 1 then Resolved true else Rejected (ErrorObject "not yet") in
  exists k now,
    nth_error [1000; 1100; 1200]%Z k = Some now
    /\ (now - 1000 < 5000)%Z
    /\ conditionFn k = Resolved true
    /\ checks (waitForCondition conditionFn 5000 1000 [1000; 1100; 1200]%Z)
       = S k
    /\ naps (waitForCondition conditionFn 5000 1000 [1000; 1100; 1200]%Z) = k.
Proof.
  apply (waitForCondition_true_is_observed
           (fun i : nat => if Nat.eqb i 1 then Resolved true
                           else Rejected (ErrorObject "not yet"))
           5000 1000 [1000; 1100; 1200]%Z).
  reflexivity.
Defined.

Lemma waitLoop_bounded startTime timeout pollInterval clock conditionFn i n :
  (forall j now, nth_error clock j = Some now ->
                 startTime + pollInterval * Z.of_nat (i + j) <= now)%Z ->
  (timeout <= pollInterval * Z.of_nat n)%Z ->
  (0 < pollInterval)%Z ->
  (i <= n)%nat ->
  (n - i < List.length clock)%nat ->
  let r := waitLoop startTime timeout clock conditionFn i in
  answer r <> None /\ (checks r <= n)%nat.
Proof.
  revert i. induction clock as [|now clock IH]; intros i Hpace Hn Hpos Hi Hlen;
    cbn in *; [lia|].
  destruct (Z.ltb_spec (now - startTime) timeout) as [Hlt|Hge].
  - pose proof (Hpace 0%nat now eq_refl) as H0. rewrite Nat.add_0_r in H0.
    assert (i < n)%nat by nia.
    destruct (conditionFn i) as [[|]|e]; cbn.
    + split; [discriminate | lia].
    + apply IH; try assumption; try lia.
      intros j t Hj. specialize (Hpace (S j) t Hj).
      now replace (S i + j)%nat with (i + S j)%nat by lia.
    + apply IH; try assumption; try lia.
      intros j t Hj. specialize (Hpace (S j) t Hj).
      now replace (S i + j)%nat with (i + S j)%nat by lia.
  - cbn. split; [discriminate | lia].
Qed.

(** [waitForCondition] gives up in time: when each round of the loop
    takes at least [pollInterval > 0] ms and [n] poll intervals cover the
    timeout, the call has returned by the test of round [n] and has checked
    the condition at most [n] times; with a timeout of zero or less it
    returns [false] without checking at all. *)
Theorem waitForCondition_gives_up
    (conditionFn : nat -> outcome thrown bool)
    (timeout pollInterval startTime : Z) (clock : list Z) (n : nat) :
  paced startTime pollInterval clock ->
  (0 < pollInterval)%Z ->
  (timeout <= pollInterval * Z.of_nat n)%Z ->
  (n < List.length clock)%nat ->
  answer (waitForCondition conditionFn timeout startTime clock) <> None
  /\ (checks (waitForCondition conditionFn timeout startTime clock) <= n)%nat.
Proof.
  intros Hpace Hpos Hn Hlen. unfold waitForCondition.
  apply waitLoop_bounded with (pollInterval := pollInterval);
    try assumption; try lia.
Qed.

Lemma waitForCondition_gives_up_witness :
  answer (waitForCondition (fun _ => Resolved false) 250 1000
            [1000; 1100; 1201; 1302]%Z) <> None
  /\ (checks (waitForCondition (fun _ => Resolved false) 250 1000
                [1000; 1100; 1201; 1302]%Z) <= 3)%nat.
Proof.
  apply (waitForCondition_gives_up (fun _ => Resolved false) 250 100 1000
           [1000; 1100; 1201; 1302]%Z 3).
  - intros i now Hi.
    destruct i as [|[|[|[|i]]]]; cbn in Hi;
      try (injection Hi as <-; lia).
    destruct i; discriminate.
  - lia.
  - lia.
  - cbn. lia.
Defined.

End PageUtilsProps.

(* ------------------------------------------------------------------ *)
(** ** Messages to the content script *)

Module PageRPCProps.
Import ScriptingMode PageRPC.

Lemma tries_shape {R : Type} remaining i maxTries tabId
      (send : nat -> outcome thrown R) err messaged :
  (i + remaining = Z.to_nat maxTries)%nat ->
  List.length messaged = i ->
  Forall (eq tabId) messaged ->
  let r := tries remaining i maxTries tabId send err messaged
                 (Nat.min i (Z.to_nat maxTries - 1)) in
  (List.length (sent r) <= Z.to_nat maxTries)%nat
  /\ sleeps r = (List.length (sent r) - 1)%nat
  /\ Forall (eq tabId) (sent r).
Proof.
  revert i err messaged.
  induction remaining as [|remaining IH]; intros i err messaged Hsum Hlen Hall;
    cbn [tries].
  - cbn [sent sleeps]. repeat split; [lia | lia | assumption].
  - assert (Hall' : Forall (eq tabId) (messaged ++ [tabId])).
    { apply Forall_app. split; [assumption | now constructor]. }
    assert (Hlen' : List.length (messaged ++ [tabId]) = S i).
    { rewrite length_app. cbn. lia. }
    destruct (send i) as [v|e]; cbn [sent sleeps].
    + repeat split; [lia | lia | assumption].
    + pose proof (IH (S i) (Some e) _ ltac:(lia) Hlen' Hall') as IH1.
      pose proof (IH (S i) err _ ltac:(lia) Hlen' Hall') as IH2.
      cbv zeta in IH1, IH2.
      destruct (Z.eqb_spec (Z.of_nat i) (maxTries - 1)).
      * replace (Nat.min (S i) (Z.to_nat maxTries - 1))
          with (Nat.min i (Z.to_nat maxTries - 1)) in IH1 by lia.
        exact IH1.
      * replace (Nat.min (S i) (Z.to_nat maxTries - 1))
          with (S (Nat.min i (Z.to_nat maxTries - 1))) in IH2 by lia.
        exact IH2.
Qed.

(** Whenever [callRPC] gets as far as sending, it sends to the tab
    [chosenTab] names. *)
Lemma messageTab_unfold {R : Type} (maxTries : Z) (w : world R)
      (o : option tab) :
  (exists e, messageTab maxTries w o = failed e)
  \/ (exists tb t, o = Some tb /\ id tb = Some t /\ t <> 0%Z
        /\ messageTab maxTries w o
           = tries (Z.to_nat maxTries) 0 maxTries t (sendMessage w t)
                   None [] 0).
Proof.
  unfold messageTab. destruct o as [[u [i|]]|]; [|left; eauto|left; eauto].
  destruct (Z.eqb_spec i 0); [left; eauto|].
  right. exists {| url := u; id := Some i |}, i. cbn. auto.
Qed.

(** Whenever [callRPC] gets as far as sending, it sends to the tab
    [chosenTab] names. *)
Lemma callRPC_unfold {R : Type} (maxTries : Z) (w : world R) :
  (exists e, callRPC maxTries w = failed e)
  \/ (exists tb t, chosenTab w = Some tb /\ id tb = Some t /\ t <> 0%Z
        /\ callRPC maxTries w
           = tries (Z.to_nat maxTries) 0 maxTries t (sendMessage w t)
                   None [] 0).
Proof.
  unfold callRPC, chosenTab.
  destruct (activeQuery w) as [[t|]|e]; [|left; eauto|left; eauto].
  destruct (onChromePage t).
  - destruct (otherQuery w) as [other|e]; [apply messageTab_unfold | left; eauto].
  - apply messageTab_unfold.
Qed.

Lemma callRPC_chosen {R : Type} (maxTries : Z) (w : world R) tb t :
  chosenTab w = Some tb -> id tb = Some t -> t <> 0%Z ->
  callRPC maxTries w
  = tries (Z.to_nat maxTries) 0 maxTries t (sendMessage w t) None [] 0.
Proof.
  unfold callRPC, chosenTab. intros Hc Hid Hne.
  assert (G : messageTab maxTries w (Some tb)
              = tries (Z.to_nat maxTries) 0 maxTries t (sendMessage w t)
                      None [] 0).
  { unfold messageTab. destruct tb as [u i]. cbn in Hid. subst i.
    now destruct (Z.eqb_spec t 0). }
  destruct (activeQuery w) as [[a|]|]; try discriminate.
  destruct (onChromePage a).
  - destruct (otherQuery w) as [other|]; [|discriminate]. now subst other.
  - now injection Hc as ->.
Qed.

(** [callRPC] sends at most [maxTries] messages, all of them to one tab:
    the active tab, or on a [chrome...] page the first other tab of the
    window, and only if that tab has an id.  It sleeps 300 ms between two
    tries and not after the last one. *)
Theorem callRPC_tries_and_sleeps {R : Type} (maxTries : Z) (w : world R) :
  (List.length (sent (callRPC maxTries w)) <= Z.to_nat maxTries)%nat
  /\ sleeps (callRPC maxTries w)
     = (List.length (sent (callRPC maxTries w)) - 1)%nat
  /\ forall t, In t (sent (callRPC maxTries w)) ->
       t <> 0%Z /\ exists tb, chosenTab w = Some tb /\ id tb = Some t.
Proof.
  destruct (callRPC_unfold maxTries w) as [[e ->]|[tb [t [Hc [Hid [Hne ->]]]]]].
  - cbn. repeat split; try lia; contradiction.
  - pose proof (tries_shape (Z.to_nat maxTries) 0 maxTries t (sendMessage w t)
                  None [] eq_refl eq_refl (Forall_nil _)) as H.
    cbv zeta in H. change (Nat.min 0 (Z.to_nat maxTries - 1)) with 0%nat in H.
    destruct H as [H1 [H2 H3]]. repeat split; try assumption.
    + rewrite Forall_forall in H3. now rewrite <- (H3 _ H).
    + rewrite Forall_forall in H3. rewrite <- (H3 _ H). eauto.
Qed.

Lemma tries_first_answer {R : Type} remaining i maxTries tabId
      (send : nat -> outcome thrown R) err messaged slept k v :
  (i <= k < i + remaining)%nat ->
  (Z.of_nat k < maxTries)%Z ->
  (forall j, (i <= j < k)%nat -> exists e, send j = Rejected e) ->
  send k = Resolved v ->
  let r := tries remaining i maxTries tabId send err messaged slept in
  result r = Resolved v
  /\ sent r = messaged ++ repeat tabId (S k - i)
  /\ sleeps r = (slept + (k - i))%nat.
Proof.
  revert i err messaged slept.
  induction remaining as [|remaining IH];
    intros i err messaged slept Hk Hmax Hfail Hok; [lia|].
  cbn [tries]. destruct (Nat.eq_dec i k) as [->|Hne].
  - rewrite Hok. cbn [result sent sleeps].
    replace (S k - k)%nat with 1%nat by lia.
    replace (k - k)%nat with 0%nat by lia. cbn. split; [|split]; auto.
  - destruct (Hfail i ltac:(lia)) as [e He]. rewrite He.
    destruct (Z.eqb_spec (Z.of_nat i) (maxTries - 1)); [lia|].
    destruct (IH (S i) err (messaged ++ [tabId]) (S slept)) as [H1 [H2 H3]];
      try assumption; try lia.
    { intros j Hj. apply Hfail. lia. }
    split; [exact H1|]. split.
    + rewrite H2, <- app_assoc. f_equal.
      replace (S k - i)%nat with (S (S k - S i)) by lia. reflexivity.
    + rewrite H3. lia.
Qed.

(** The first try that is answered settles [callRPC]: when the tries before
    try [k] are rejected and try [k] (with [k < maxTries]) is answered, the
    answer is returned as it is, after [k + 1] messages and [k] sleeps. *)
Theorem callRPC_first_answer {R : Type} (maxTries : Z) (w : world R)
    (tb : tab) (t : Z) (k : nat) (v : R) :
  chosenTab w = Some tb -> id tb = Some t -> t <> 0%Z ->
  (Z.of_nat k < maxTries)%Z ->
  (forall j, (j < k)%nat -> exists e, sendMessage w t j = Rejected e) ->
  sendMessage w t k = Resolved v ->
  result (callRPC maxTries w) = Resolved v
  /\ sent (callRPC maxTries w) = repeat t (S k)
  /\ sleeps (callRPC maxTries w) = k.
Proof.
  intros Hc Hid Hne Hk Hfail Hok.
  rewrite (callRPC_chosen maxTries w tb t Hc Hid Hne).
  destruct (tries_first_answer (Z.to_nat maxTries) 0 maxTries t
              (sendMessage w t) None [] 0 k v) as [H1 [H2 H3]];
    try assumption; try lia.
  { intros j Hj. apply Hfail. lia. }
  cbn in H2, H3. rewrite Nat.sub_0_r in H3. auto.
Qed.

Lemma callRPC_first_answer_witness :
  let w := {| activeQuery :=
                Resolved (Some {| url := Some "https://example.com/"%string;
                                  id := Some 7%Z |});
              otherQuery := Resolved None;
              sendMessage := fun _ i =>
                if Nat.eqb i 2 then Resolved "<html>"%string
                else Rejected (ErrorObject "Receiving end does not exist") |} in
  result (callRPC 3 w) = Resolved "<html>"%string
  /\ sent (callRPC 3 w) = [7; 7; 7]%Z
  /\ sleeps (callRPC 3 w) = 2%nat.
Proof.
  apply (callRPC_first_answer 3
           {| activeQuery :=
                Resolved (Some {| url := Some "https://example.com/"%string;
                                  id := Some 7%Z |});
              otherQuery := Resolved None;
              sendMessage := fun _ i =>
                if Nat.eqb i 2 then Resolved "<html>"%string
                else Rejected (ErrorObject "Receiving end does not exist") |}
           {| url := Some "https://example.com/"%string; id := Some 7%Z |}
           7%Z 2 "<html>"%string).
  - reflexivity.
  - reflexivity.
  - discriminate.
  - lia.
  - intros j Hj. exists (ErrorObject "Receiving end does not exist").
    destruct j as [|[|j]]; [reflexivity | reflexivity | lia].
  - reflexivity.
Defined.

(** *** The model at work *)

(** With the default of one try a failure is thrown at once, and on an
    extension page the message goes to the other tab. *)
Example callRPC_default_try :
  let w := {| activeQuery :=
                Resolved (Some {| url := Some "chrome-extension://abc/panel.html"%string;
                                  id := Some 3%Z |});
              otherQuery :=
                Resolved (Some {| url := Some "https://example.com/"%string;
                                  id := Some 9%Z |});
              sendMessage := fun _ _ =>
                @Rejected thrown string (ErrorObject "Receiving end does not exist") |} in
  callRPC 1 w
  = {| result := Rejected (Thrown (ErrorObject "Receiving end does not exist"));
       sent := [9%Z]; sleeps := 0 |}.
Proof. reflexivity. Qed.

(** No tab at all is a [TypeError]; a tab without id is 'No active tab
    found'; zero tries throw [undefined]. *)
Example callRPC_edges :
  let tabless := {| activeQuery := Resolved None; otherQuery := Resolved None;
                    sendMessage := fun _ _ => Resolved "x"%string |} in
  let idless := {| activeQuery := Resolved (Some {| url := None; id := None |});
                   otherQuery := Resolved None;
                   sendMessage := fun _ _ => Resolved "x"%string |} in
  let fine := {| activeQuery := Resolved (Some {| url := None; id := Some 4%Z |});
                 otherQuery := Resolved None;
                 sendMessage := fun _ _ => Resolved "x"%string |} in
  result (callRPC 1 tabless) = Rejected UndefinedTab
  /\ result (callRPC 1 idless) = Rejected NoActiveTabFound
  /\ callRPC 0 fine = {| result := Rejected ThrownUndefined; sent := [];
                         sleeps := 0 |}.
Proof. repeat split. Qed.

End PageRPCProps.

(* ------------------------------------------------------------------ *)
(** ** Element discovery *)

Module ElementProps.
Import ScriptingMode Element TextFacts.
Local Open Scope string_scope.

Section Lookup.
Variable NODE_ID_SELECTOR : string.
Variable numberToString : JS.number -> string.

Let getElementByNodeId := Element.getElementByNodeId NODE_ID_SELECTOR numberToString.
Let notFoundMessage := Element.notFoundMessage NODE_ID_SELECTOR numberToString.

Lemma notFoundMessage_marked elementId uniqueId debug :
  JS.includes "not found in DOM" (notFoundMessage elementId uniqueId debug)
  = true.
Proof.
  unfold notFoundMessage, Element.notFoundMessage.
  assert (H : forall rest,
            JS.includes "not found in DOM"
              ("Element with ID " ++ numberToString elementId
               ++ " not found in DOM using selector " ++ rest) = true).
  { intros rest. do 2 apply includes_app_r.
    change (" not found in DOM using selector " ++ rest)
      with (" " ++ "not found in DOM" ++ (" using selector " ++ rest)).
    apply includes_middle. }
  destruct debug as [d|]; [|apply H].
  apply includes_app_l, H.
Qed.

(** [getElementByNodeId] resolves exactly when the content script answered
    a truthy identity and the lookup script found the element carrying it,
    and it resolves with that identity.  Every error it throws either
    mentions ['not found in DOM'] or starts with
    ['Failed to get element by ID N: ']. *)
Theorem getElementByNodeId_settles (elementId : JS.number)
    (rpc : outcome thrown rpcAnswer)
    (script : string -> outcome thrown (option lookedUp)) :
  match getElementByNodeId elementId rpc script with
  | Resolved uniqueId =>
      rpc = Resolved uniqueId
      /\ truthy uniqueId = true
      /\ script (render uniqueId) = Resolved (Some FoundElement)
  | Rejected message =>
      JS.includes "not found in DOM" message = true
      \/ String.prefix ("Failed to get element by ID "
                        ++ numberToString elementId ++ ": ") message = true
  end.
Proof.
  unfold getElementByNodeId, Element.getElementByNodeId.
  assert (Hwrap : forall m rest,
            String.prefix ("Failed to get element by ID "
                           ++ numberToString elementId ++ ": ")
              ("Failed to get element by ID " ++ numberToString elementId
               ++ ": " ++ m ++ rest) = true).
  { intros m rest.
    replace ("Failed to get element by ID " ++ numberToString elementId
             ++ ": " ++ m ++ rest)
      with (("Failed to get element by ID " ++ numberToString elementId
             ++ ": ") ++ (m ++ rest)).
    - apply prefix_app.
    - now rewrite !append_assoc. }
  destruct (tryBody NODE_ID_SELECTOR numberToString elementId rpc script)
    as [uniqueId|message] eqn:Htry.
  - unfold tryBody in Htry. destruct rpc as [a|e]; [|discriminate].
    destruct (truthy a) eqn:Ht; cbn [negb] in Htry; [|discriminate].
    unfold executeScript in Htry.
    destruct (script (render a)) as [[[|debug]|]|e] eqn:Hs; try discriminate.
    injection Htry as <-. auto.
  - destruct (JS.includes "not found in DOM" message) eqn:Hinc; [now left|].
    right. apply Hwrap.
Qed.

(** A stale index is not detected where the code looks for it.  For an
    index beyond the elements of the last annotation the content script
    answers with an error object; [getElementByNodeId] takes the object for
    an identity, has the page look for the selector value
    [[object Object]], and reports the element as not found in the DOM. *)
Theorem stale_index_reported_as_not_found
    (c : GetAnnotatedDOM.content) (i : nat)
    (documentElement : GetAnnotatedDOM.node) (outerHTML random36 : string)
    (elementId : JS.number)
    (script : string -> outcome thrown (option lookedUp))
    (debug : option debugInfo) :
  (List.length (GetAnnotatedDOM.currentElements c) <= i)%nat ->
  script "[object Object]" = Resolved (Some (NoElement debug)) ->
  let answered :=
    ofResponse (snd (PageRPC.onMessage (PageRPC.GetUniqueElementSelectorId i)
                       documentElement outerHTML random36 c)) in
  answered = ErrorObject PageRPC.typeErrorText
  /\ getElementByNodeId elementId (Resolved answered) script
     = Rejected (notFoundMessage elementId answered debug)
  /\ selectorOf NODE_ID_SELECTOR answered
     = "[" ++ NODE_ID_SELECTOR ++ "=" ++ doubleQuote ++ "[object Object]"
           ++ doubleQuote ++ "]".
Proof.
  intros Hi Hscript answered.
  assert (Ha : answered = ErrorObject PageRPC.typeErrorText).
  { unfold answered, PageRPC.onMessage,
      GetAnnotatedDOM.getUniqueElementSelectorId.
    apply nth_error_None in Hi. now rewrite Hi. }
  split; [exact Ha|]. rewrite Ha. split; [|reflexivity].
  unfold getElementByNodeId, Element.getElementByNodeId, tryBody.
  cbn [truthy negb render]. rewrite Hscript. cbn [executeScript].
  fold (notFoundMessage elementId (ErrorObject PageRPC.typeErrorText) debug).
  now rewrite notFoundMessage_marked.
Qed.

End Lookup.

Lemma stale_index_reported_as_not_found_witness :
  let c := {| GetAnnotatedDOM.currentElements := [1; 2]%nat;
              GetAnnotatedDOM.identity := fun _ => None |} in
  let script := fun _ : string =>
    @Resolved thrown _ (Some (NoElement None)) in
  let answered :=
    ofResponse (snd (PageRPC.onMessage (PageRPC.GetUniqueElementSelectorId 5)
                       GetAnnotatedDOM.OtherNode "<html>" "0.abc" c)) in
  answered = ErrorObject PageRPC.typeErrorText
  /\ Element.getElementByNodeId "data-pe-idx" (fun _ => "5") 5%float
       (Resolved answered) script
     = Rejected (Element.notFoundMessage "data-pe-idx" (fun _ => "5") 5%float
                   answered None)
  /\ selectorOf "data-pe-idx" answered
     = "[" ++ "data-pe-idx" ++ "=" ++ doubleQuote ++ "[object Object]"
           ++ doubleQuote ++ "]".
Proof.
  apply (stale_index_reported_as_not_found "data-pe-idx" (fun _ => "5")
           {| GetAnnotatedDOM.currentElements := [1; 2]%nat;
              GetAnnotatedDOM.identity := fun _ => None |}
           5 GetAnnotatedDOM.OtherNode "<html>" "0.abc" 5%float
           (fun _ : string => @Resolved thrown _ (Some (NoElement None)))
           None).
  - cbn. lia.
  - reflexivity.
Defined.

(** *** The model at work *)

Example lookup_messages :
  Element.getElementByNodeId "data-pe-idx" (fun _ => "12") 12%float
    (Resolved (Text "k3x9q2ab"))
    (fun _ => Resolved (Some (NoElement (Some
       {| totalElementsWithSelector := 2; existingIds := ["aa"; "bb"];
          documentReadyState := "complete"; bodyChildCount := 4 |}))))
  = Rejected ("Element with ID 12 not found in DOM using selector [data-pe-idx="
              ++ doubleQuote ++ "k3x9q2ab" ++ doubleQuote
              ++ "]. Debug info: Document ready state: complete, Total elements with selector: 2, Body children: 4, Existing IDs: aa, bb")
  /\ Element.getElementByNodeId "data-pe-idx" (fun _ => "12") 12%float
       (Resolved (Text EmptyString)) (fun _ => Resolved None)
     = Rejected "Failed to get element by ID 12: Failed to get unique element selector ID for element 12. The element may have been removed from the page or the RPC call failed.. This could be due to network issues, page navigation, or the element being dynamically removed."
  /\ Element.getElementByNodeId "data-pe-idx" (fun _ => "12") 12%float
       (Resolved (Text "k3x9q2ab"))
       (fun _ => Rejected (ScriptingMode.ErrorObject "No tab with id: 5"))
     = Rejected "Failed to get element by ID 12: Script execution failed: No tab with id: 5. This could be due to network issues, page navigation, or the element being dynamically removed.".
Proof. repeat split. Qed.

End ElementProps.

(* ------------------------------------------------------------------ *)
(** ** The simulated cursor *)

Module CursorProps.
Import ScriptingMode Cursor.

Lemma step_decided b c :
  fst (step (Some b) c) = Some b
  /\ ~ In InjectCursor (snd (step (Some b) c))
  /\ (b = false -> snd (step (Some b) c) = []).
Proof.
  destruct c as [s i | s i m | h]; cbn.
  - repeat split; auto.
  - unfold moveCursor. cbn. destruct b; cbn.
    + repeat split; [intros [H|[]]; discriminate | discriminate].
    + repeat split; auto.
  - destruct b; cbn; repeat split; auto.
    + intros [H|[]]; discriminate.
    + discriminate.
Qed.

Lemma session_decided b calls :
  fst (session (Some b) calls) = Some b
  /\ ~ In InjectCursor (snd (session (Some b) calls))
  /\ (b = false -> snd (session (Some b) calls) = []).
Proof.
  revert b. induction calls as [|c calls IH]; intros b; cbn.
  - repeat split; auto.
  - destruct (step_decided b c) as [H1 [H2 H3]].
    destruct (step (Some b) c) as [s1 ran1]. cbn in H1, H2, H3. subst s1.
    destruct (IH b) as [I1 [I2 I3]].
    destruct (session (Some b) calls) as [s2 ran2]. cbn in *.
    repeat split; auto.
    + rewrite in_app_iff. tauto.
    + intros Hb. now rewrite (H3 Hb), (I3 Hb).
Qed.

(** The decision about the cursor is taken once.  After
    [cursorEnabled] has been set, no call changes it and the injection
    script never runs again, whatever the setting and the page are by
    then; and once it is [false], no call runs any script in the page. *)
Theorem cursor_decision_is_final (b : bool) (calls : list call) :
  fst (session (Some b) calls) = Some b
  /\ ~ In InjectCursor (snd (session (Some b) calls))
  /\ snd (session (Some false) calls) = [].
Proof.
  destruct (session_decided b calls) as [H1 [H2 _]].
  destruct (session_decided false calls) as [_ [_ H3]]. auto.
Qed.

(** In a session that starts undecided the injection script runs at most
    once, and as long as no call has taken the decision ([hideCursor]
    before any initialisation) nothing runs in the page. *)
Theorem cursor_injected_at_most_once (calls : list call) :
  (List.length (filter isInjection (snd (session None calls))) <= 1)%nat
  /\ (fst (session None calls) = None -> snd (session None calls) = []).
Proof.
  induction calls as [|c calls IH]; cbn [session].
  - cbn. split; [lia | reflexivity].
  - assert (Hdecided : forall b ran1,
              (List.length (filter isInjection ran1) <= 1)%nat ->
              (List.length
                 (filter isInjection
                    (snd (let '(s2, ran2) := session (Some b) calls in
                          (s2, ran1 ++ ran2)))) <= 1)%nat
              /\ (fst (let '(s2, ran2) := session (Some b) calls in
                       (s2, ran1 ++ ran2)) = None ->
                  snd (let '(s2, ran2) := session (Some b) calls in
                       (s2, ran1 ++ ran2)) = [])).
    { intros b ran1 H1.
      destruct (session_decided b calls) as [Hs [Hno _]].
      destruct (session (Some b) calls) as [s2 ran2]. cbn in Hs, Hno |- *.
      split; [|subst s2; discriminate].
      rewrite filter_app, length_app.
      assert (filter isInjection ran2 = []) as ->; [|cbn; lia].
      clear -Hno. induction ran2 as [|x l IH]; [reflexivity|].
      destruct x; cbn; [exfalso; apply Hno; now left | |];
        apply IH; intros H; apply Hno; now right. }
    destruct c as [s i | s i m | h]; cbn [step].
    + unfold initializeCursor. destruct (negb s); cbn [after ran].
      * apply (Hdecided false []). cbn. lia.
      * apply (Hdecided _ [InjectCursor]). cbn. lia.
    + unfold moveCursor, initializeCursor.
      destruct (negb s); cbn [after ran value negb].
      * apply (Hdecided false []). cbn. lia.
      * destruct (match i with
                  | Resolved (Some b) => b
                  | _ => false
                  end); cbn [negb after ran].
        -- apply (Hdecided true ([InjectCursor] ++ [MoveCursor])). cbn. lia.
        -- apply (Hdecided false [InjectCursor]). cbn. lia.
    + cbn [hideCursor after ran].
      destruct (session None calls) as [s2 ran2]. exact IH.
Qed.

(** *** The model at work *)

(** A failed injection switches the cursor off for good: the later move
    and hide calls run nothing, even though the page would now accept the
    injection. *)
Example cursor_stays_off :
  session None
    [Hide (Resolved tt);
     Initialize true (Rejected (ErrorObject "Cannot access a chrome:// URL"));
     Move true (Resolved (Some true)) (Resolved (Some true));
     Hide (Resolved tt)]
  = (Some false, [InjectCursor]).
Proof. reflexivity. Qed.

Example cursor_moves_when_enabled :
  session None
    [Move true (Resolved (Some true)) (Resolved (Some true));
     Hide (Resolved tt)]
  = (Some true, [InjectCursor; MoveCursor; HideCursor]).
Proof. reflexivity. Qed.

End CursorProps.

(* ------------------------------------------------------------------ *)
(** ** The action state tracker: clean-up and waiters *)

Module ActionStateCleanup.
Import ActionStateManager ActionStateProps.

Definition drop (acc : manager) (e : string * ActionState) : manager :=
  {| actionStates := delete (fst e) (actionStates acc);
     completionCallbacks := delete (fst e) (completionCallbacks acc);
     activeAction := activeAction acc |}.

Lemma insertByEndTime_perm x l : Permutation (insertByEndTime x l) (x :: l).
Proof.
  induction l as [|y l IH]; cbn; [reflexivity|].
  destruct (endTimeOrZero (snd x) <? endTimeOrZero (snd y))%Z; [reflexivity|].
  rewrite IH. apply perm_swap.
Qed.

Lemma sortByEndTime_perm l : Permutation (sortByEndTime l) l.
Proof.
  unfold sortByEndTime.
  assert (G : forall acc,
            Permutation (fold_left (fun a x => insertByEndTime x a) l acc)
                        (acc ++ l)).
  { induction l as [|x l IH]; intros acc; cbn.
    - now rewrite app_nil_r.
    - rewrite IH, insertByEndTime_perm. cbn.
      apply Permutation_cons_app. reflexivity. }
  exact (G []).
Qed.

Section MapCounts.
Context {V : Type}.
Implicit Types (m : jsmap V) (k : string).

Lemma get_delete_same k m : NoDup (keys m) -> get k (delete k m) = None.
Proof.
  induction m as [|[k0 v0] m IH]; cbn; intros Hnd; [reflexivity|].
  inversion Hnd as [|? ? Hnin Hnd']; subst.
  destruct (String.eqb_spec k k0) as [->|Hne].
  - destruct (get k0 m) as [v|] eqn:Hg; [|reflexivity].
    exfalso. apply Hnin. clear -Hg.
    induction m as [|[k1 v1] m IH]; cbn in *; [discriminate|].
    destruct (String.eqb_spec k0 k1); [now left | right; now apply IH].
  - cbn. destruct (String.eqb_spec k k0); [contradiction | now apply IH].
Qed.

Lemma In_delete_other k (e : string * V) m :
  fst e <> k -> In e m -> In e (delete k m).
Proof.
  intros Hne. induction m as [|[k0 v0] m IH]; cbn; [tauto|].
  destruct (String.eqb_spec k k0) as [->|Hk].
  - intros [<-|H]; [cbn in Hne; contradiction | assumption].
  - intros [<-|H]; [now left | right; now apply IH].
Qed.

Lemma filter_delete (f : string * V -> bool) k v m :
  NoDup (keys m) -> In (k, v) m -> f (k, v) = true ->
  S (List.length (filter f (delete k m))) = List.length (filter f m).
Proof.
  induction m as [|[k0 v0] m IH]; cbn; intros Hnd Hin Hf; [contradiction|].
  inversion Hnd as [|? ? Hnin Hnd']; subst.
  destruct (String.eqb_spec k k0) as [->|Hk].
  - destruct Hin as [[= ->]|Hin].
    + now rewrite Hf.
    + exfalso. apply Hnin. change k0 with (fst (k0, v)). now apply in_map.
  - destruct Hin as [[= -> ->]|Hin]; [contradiction|].
    cbn. destruct (f (k0, v0)); cbn; now rewrite <- (IH Hnd' Hin Hf).
Qed.

Lemma NoDup_keys_filter (f : string * V -> bool) m :
  NoDup (keys m) -> NoDup (keys (filter f m)).
Proof.
  induction m as [|e m IH]; cbn; intros Hnd; [constructor|].
  inversion Hnd as [|? ? Hnin Hnd']; subst.
  destruct (f e); cbn; [|now apply IH].
  constructor; [|now apply IH].
  intros Hin. apply Hnin. unfold keys in *.
  apply in_map_iff in Hin. destruct Hin as [e' [He Hin]].
  apply filter_In in Hin. rewrite <- He. now apply in_map.
Qed.

Lemma NoDup_firstn {A : Type} (n : nat) (l : list A) :
  NoDup l -> NoDup (firstn n l).
Proof.
  revert n. induction l as [|x l IH]; intros [|n] Hnd; cbn; try constructor.
  - inversion Hnd; subst. intros Hin. apply In_firstn in Hin. contradiction.
  - inversion Hnd; subst. now apply IH.
Qed.

End MapCounts.

Lemma drop_all_count (toRemove : list (string * ActionState)) (m : manager) :
  NoDup (keys (actionStates m)) ->
  NoDup (keys toRemove) ->
  (forall e, In e toRemove -> In e (actionStates m) /\ finished e = true) ->
  (List.length (filter finished (actionStates (fold_left drop toRemove m)))
   + List.length toRemove
   = List.length (filter finished (actionStates m)))%nat.
Proof.
  revert m. induction toRemove as [|[k v] l IH]; intros m Hm Hl Hin;
    cbn [fold_left List.length].
  - lia.
  - inversion Hl as [|? ? Hnin Hl']; subst.
    destruct (Hin (k, v) (or_introl eq_refl)) as [Hkm Hkf].
    rewrite <- (filter_delete finished k v (actionStates m) Hm Hkm Hkf).
    assert (IH' : (List.length
                     (filter finished
                        (actionStates (fold_left drop l (drop m (k, v)))))
                   + List.length l
                   = List.length
                       (filter finished (delete k (actionStates m))))%nat).
    { apply (IH (drop m (k, v))).
      - cbn. now apply NoDup_delete.
      - assumption.
      - intros e He. destruct (Hin e (or_intror He)) as [Hem Hef].
        split; [|assumption]. cbn. apply In_delete_other; [|assumption].
        intros Heq. apply Hnin. rewrite <- Heq. now apply in_map. }
    lia.
Qed.

Lemma cleanup_count (m : manager) :
  NoDup (keys (actionStates m)) ->
  List.length (filter finished (actionStates (cleanup m)))
  = Nat.min 10 (List.length (filter finished (actionStates m))).
Proof.
  intros Hnd. unfold cleanup.
  change (fun e : string * ActionState => terminal (status (snd e)))
    with finished.
  set (fin := filter finished (actionStates m)).
  destruct (Nat.ltb_spec 10 (List.length fin)) as [Hlt|Hge]; [|fold fin; lia].
  change (fun acc (e : string * ActionState) =>
            {| actionStates := delete (fst e) (actionStates acc);
               completionCallbacks := delete (fst e) (completionCallbacks acc);
               activeAction := activeAction acc |}) with drop.
  set (toRemove := firstn (List.length fin - 10) (sortByEndTime fin)).
  assert (Hlen : List.length toRemove = (List.length fin - 10)%nat).
  { unfold toRemove. rewrite length_firstn.
    rewrite (Permutation_length (sortByEndTime_perm fin)). lia. }
  pose proof (drop_all_count toRemove m Hnd) as H.
  fold fin in H. rewrite Hlen in H.
  assert (List.length (filter finished (actionStates (fold_left drop toRemove m)))
          = 10%nat); [|lia].
  enough (List.length (filter finished
                         (actionStates (fold_left drop toRemove m)))
          + (List.length fin - 10) = List.length fin)%nat by lia.
  apply H.
  - unfold toRemove, keys. 
    assert (Hs : NoDup (map fst (sortByEndTime fin))).
    { eapply Permutation_NoDup.
      - apply Permutation_map, Permutation_sym, sortByEndTime_perm.
      - apply (NoDup_keys_filter finished _ Hnd). }
    rewrite <- firstn_map. now apply NoDup_firstn.
  - intros e He. unfold toRemove in He.
    apply In_firstn, In_sortByEndTime in He.
    unfold fin in He. now apply filter_In in He.
Qed.

(** [cleanup] keeps the tracker small without touching what is in flight.
    After any history of calls, [cleanup()] leaves ten finished actions if
    there were more than ten and all of them otherwise; every action that
    has not finished keeps its entry, and the active action stays what it
    was. *)
Theorem cleanup_keeps_ten_finished (calls : list call) :
  List.length (filter finished (actionStates (cleanup (run calls))))
  = Nat.min 10 (List.length (filter finished (actionStates (run calls))))
  /\ (forall a st, getActionState a (run calls) = Some st ->
                   terminal (status st) = false ->
                   getActionState a (cleanup (run calls)) = Some st)
  /\ getActiveActionId (cleanup (run calls)) = getActiveActionId (run calls).
Proof.
  pose proof (inv_nodup _ (inv_all calls)) as Hnd.
  split; [now apply cleanup_count|]. split.
  - intros a st Hg Ht. now apply cleanup_keeps_unfinished.
  - apply cleanup_active.
Qed.

(** *** Sortedness: what is dropped finished first *)

Definition byEndTime (a b : string * ActionState) : Prop :=
  (endTimeOrZero (snd a) <= endTimeOrZero (snd b))%Z.

Lemma insertByEndTime_sorted x l :
  StronglySorted byEndTime l -> StronglySorted byEndTime (insertByEndTime x l).
Proof.
  induction l as [|y l IH]; cbn; intros Hs.
  - repeat constructor.
  - inversion Hs as [|? ? Hl Hall]; subst.
    destruct (Z.ltb_spec (endTimeOrZero (snd x)) (endTimeOrZero (snd y))).
    + constructor; [assumption|]. constructor; [unfold byEndTime; lia|].
      eapply Forall_impl; [|exact Hall]. unfold byEndTime. intros; lia.
    + constructor; [now apply IH|].
      rewrite Forall_forall. intros z Hz.
      apply In_insertByEndTime in Hz. destruct Hz as [->|Hz].
      * unfold byEndTime. lia.
      * rewrite Forall_forall in Hall. now apply Hall.
Qed.

Lemma sortByEndTime_sorted l : StronglySorted byEndTime (sortByEndTime l).
Proof.
  unfold sortByEndTime.
  assert (G : forall acc, StronglySorted byEndTime acc ->
            StronglySorted byEndTime
              (fold_left (fun a x => insertByEndTime x a) l acc)).
  { induction l as [|x l IH]; intros acc Hacc; cbn; [assumption|].
    apply IH. now apply insertByEndTime_sorted. }
  apply G. constructor.
Qed.

Lemma sorted_firstn_skipn n l x y :
  StronglySorted byEndTime l ->
  In x (firstn n l) -> In y (skipn n l) -> byEndTime x y.
Proof.
  revert n. induction l as [|z l IH]; intros [|n] Hs Hx Hy; cbn in *;
    try contradiction.
  inversion Hs as [|? ? Hl Hall]; subst.
  destruct Hx as [->|Hx].
  - rewrite Forall_forall in Hall. apply Hall.
    rewrite <- (firstn_skipn n l). apply in_or_app. now right.
  - now apply (IH n).
Qed.

Lemma drop_all_get (toRemove : list (string * ActionState)) (m : manager) a :
  NoDup (keys (actionStates m)) ->
  get a (actionStates (fold_left drop toRemove m)) <> None ->
  get a (actionStates m) <> None /\ ~ In a (keys toRemove).
Proof.
  revert m. induction toRemove as [|[k v] l IH]; intros m Hnd H;
    cbn [fold_left] in *.
  - auto.
  - destruct (IH (drop m (k, v))) as [Hg Hnin].
    + cbn. now apply NoDup_delete.
    + assumption.
    + cbn in Hg. destruct (String.eqb_spec k a) as [->|Hne].
      * now rewrite get_delete_same in Hg.
      * rewrite get_delete_other in Hg by assumption.
        split; [assumption|]. cbn. intros [Heq|Hin]; [contradiction | auto].
Qed.

(** The finished actions that [cleanup] drops are the oldest: an action
    that lost its entry finished no later than any finished action that
    kept it. *)
Theorem cleanup_drops_the_oldest (calls : list call) (a b : string)
    (sa sb : ActionState) :
  getActionState a (run calls) = Some sa ->
  getActionState a (cleanup (run calls)) = None ->
  getActionState b (cleanup (run calls)) = Some sb ->
  terminal (status sb) = true ->
  (endTimeOrZero sa <= endTimeOrZero sb)%Z.
Proof.
  pose proof (inv_nodup _ (inv_all calls)) as Hnd.
  set (m := run calls) in *. unfold getActionState, cleanup.
  change (fun e : string * ActionState => terminal (status (snd e)))
    with finished.
  set (fin := filter finished (actionStates m)).
  destruct (Nat.ltb_spec 10 (List.length fin)) as [Hlt|Hge]; [|congruence].
  change (fun acc (e : string * ActionState) =>
            {| actionStates := delete (fst e) (actionStates acc);
               completionCallbacks := delete (fst e) (completionCallbacks acc);
               activeAction := activeAction acc |}) with drop.
  set (n := (List.length fin - 10)%nat).
  intros Ha Hgone Hb Hbt.
  (* [a] was dropped: it is among the first [n] of the sorted list *)
  assert (Hrem : forall e, In e (firstn n (sortByEndTime fin)) ->
                           In e (actionStates m) /\ finished e = true).
  { intros e He. apply In_firstn, In_sortByEndTime in He.
    unfold fin in He. now apply filter_In in He. }
  assert (Hina : In (a, sa) (firstn n (sortByEndTime fin))).
  { destruct (in_dec string_dec a (keys (firstn n (sortByEndTime fin))))
      as [Hin|Hnin].
    - unfold keys in Hin. apply in_map_iff in Hin.
      destruct Hin as [[k v] [Hk Hin]]. cbn in Hk. subst k.
      destruct (Hrem _ Hin) as [Hm _].
      rewrite (In_get _ _ _ Hnd Hm) in Ha. now injection Ha as ->.
    - exfalso.
      rewrite drop_keys_preserves in Hgone; [congruence|].
      intros e He Heq. apply Hnin. rewrite <- Heq. now apply in_map. }
  (* [b] was kept: it is finished and not among them *)
  assert (Hb0 : get b (actionStates m) = Some sb).
  { destruct (drop_all_get (firstn n (sortByEndTime fin)) m b Hnd) as [Hg Hnin];
      [rewrite Hb; discriminate|].
    rewrite drop_keys_preserves in Hb; [assumption|].
    intros e He Heq. apply Hnin. rewrite <- Heq. now apply in_map. }
  assert (Hinb : In (b, sb) (skipn n (sortByEndTime fin))).
  { assert (Hall : In (b, sb) (sortByEndTime fin)).
    { apply (Permutation_in _ (Permutation_sym (sortByEndTime_perm fin))).
      apply filter_In. split; [|exact Hbt].
      clear -Hb0. induction (actionStates m) as [|[k v] l IH]; cbn in *;
        [discriminate|].
      destruct (String.eqb_spec b k) as [->|]; [left; congruence | right; auto]. }
    rewrite <- (firstn_skipn n (sortByEndTime fin)) in Hall.
    apply in_app_or in Hall. destruct Hall as [Hf|Hs]; [|assumption].
    exfalso.
    destruct (drop_all_get (firstn n (sortByEndTime fin)) m b Hnd) as [_ Hnin];
      [rewrite Hb; discriminate|].
    apply Hnin. change b with (fst (b, sb)). now apply in_map. }
  exact (sorted_firstn_skipn n _ _ _ (sortByEndTime_sorted fin) Hina Hinb).
Qed.

Lemma cleanup_drops_the_oldest_witness :
  (endTimeOrZero {| id := "l"; type := "click"; status := completed;
                    startTime := 11; endTime := Some 89; error := None |}
   <= endTimeOrZero {| id := "a"; type := "click"; status := completed;
                       startTime := 0; endTime := Some 100; error := None |})%Z.
Proof.
  apply (cleanup_drops_the_oldest twelveActions "l" "a").
  - reflexivity.
  - reflexivity.
  - reflexivity.
  - reflexivity.
Defined.

(** *** Waiters *)

Lemma callbacks_nodup (calls : list call) :
  NoDup (keys (completionCallbacks (run calls))).
Proof.
  induction calls as [|c calls IH] using rev_ind; [constructor|].
  rewrite run_snoc.
  assert (Hnotify : forall a s e m,
            NoDup (keys (completionCallbacks m)) ->
            NoDup (keys (completionCallbacks (fst (notifyCallbacks a s e m))))).
  { intros a s e m H. unfold notifyCallbacks.
    destruct (get a (completionCallbacks m)); cbn; [now apply NoDup_delete | assumption]. }
  destruct c as [now a t | a | now a | now a e | a cb | a cb | ]; cbn.
  - assumption.
  - unfold setActionInProgress.
    now destruct (get a (actionStates (run calls))).
  - unfold completeAction.
    destruct (get a (actionStates (run calls))); [now apply Hnotify | assumption].
  - unfold failAction.
    destruct (get a (actionStates (run calls))); [now apply Hnotify | assumption].
  - now apply NoDup_set.
  - unfold waitForAction.
    destruct (get a (actionStates (run calls))) as [st|];
      [destruct (terminal (status st))|]; cbn;
      try assumption; now apply NoDup_set.
  - unfold cleanup. destruct (10 <? _)%nat; [|assumption].
    match goal with
    | |- context [fold_left ?f ?l ?m] =>
        generalize l; intros l'; revert IH; generalize m
    end.
    induction l' as [|e l' IHl]; intros m Hm; cbn; [assumption|].
    apply IHl. cbn. now apply NoDup_delete.
Qed.

(** A promise parked on an action in flight is settled by the completion
    of that action, once.  While action [a] is between its start and its
    end, [waitForAction(a)] does not resolve at once; the next
    [completeAction(a)] notifies it with [success = true], a [failAction(a)]
    in its place notifies it with [success = false] and the error; and a
    second completion notifies nobody. *)
Theorem parked_waiter_is_notified_once (calls : list call) (a : string)
    (cb : callback) (now now' : Z) (err : string) :
  in_window calls a = true ->
  let m1 := fst (waitForAction a cb (run calls)) in
  snd (waitForAction a cb (run calls)) = None
  /\ In {| notified := cb; notifiedSuccess := true; notifiedError := None |}
        (snd (completeAction now a m1))
  /\ In {| notified := cb; notifiedSuccess := false;
           notifiedError := Some err |}
        (snd (failAction now a err m1))
  /\ snd (completeAction now' a (fst (completeAction now a m1))) = []
  /\ snd (failAction now' a err (fst (completeAction now a m1))) = [].
Proof.
  intros Hw.
  destruct (inv_state _ (inv_all calls) a Hw) as [st [Hg Ht]].
  pose proof (callbacks_nodup calls) as Hcb.
  set (m := run calls) in *.
  unfold waitForAction. rewrite Hg, Ht. cbn [fst snd].
  split; [reflexivity|].
  assert (Hreg : forall registered,
            In cb (registered ++ [cb])) by (intros; apply in_or_app; right; now left).
  unfold completeAction, failAction, onActionComplete. cbn [actionStates].
  rewrite Hg. unfold notifyCallbacks. cbn [completionCallbacks actionStates].
  rewrite !get_set_same. cbn [fst snd actionStates completionCallbacks].
  rewrite !get_set_same.
  rewrite get_delete_same by (now apply NoDup_set).
  repeat split.
  - apply in_map_iff. eexists; split; [reflexivity | apply Hreg].
  - apply in_map_iff. eexists; split; [reflexivity | apply Hreg].
Qed.

Lemma parked_waiter_is_notified_once_witness :
  let calls := [StartAction 0 "a" "click"; SetActionInProgress "a"] in
  let m1 := fst (waitForAction "a" 7 (run calls)) in
  snd (waitForAction "a" 7 (run calls)) = None
  /\ In {| notified := 7%nat; notifiedSuccess := true; notifiedError := None |}
        (snd (completeAction 5 "a" m1))
  /\ In {| notified := 7%nat; notifiedSuccess := false;
           notifiedError := Some "boom"%string |}
        (snd (failAction 5 "a" "boom" m1))
  /\ snd (completeAction 6 "a" (fst (completeAction 5 "a" m1))) = []
  /\ snd (failAction 6 "a" "boom" (fst (completeAction 5 "a" m1))) = [].
Proof.
  apply (parked_waiter_is_notified_once
           [StartAction 0 "a" "click"; SetActionInProgress "a"]
           "a" 7%nat 5%Z 6%Z "boom"%string).
  reflexivity.
Defined.

(** A promise may be parked before its action exists.  For an id the
    tracker holds no entry for, [waitForAction] parks the promise, and
    [completeAction]/[failAction] for that id do nothing at all, so the
    promise stays parked; it is notified by the completion that follows a
    [startAction] for the id. *)
Theorem waiter_for_unknown_action (calls : list call) (a type : string)
    (cb : callback) (now now1 now2 : Z) (err : string) :
  getActionState a (run calls) = None ->
  let m1 := fst (waitForAction a cb (run calls)) in
  snd (waitForAction a cb (run calls)) = None
  /\ completeAction now a m1 = (m1, [])
  /\ failAction now a err m1 = (m1, [])
  /\ In {| notified := cb; notifiedSuccess := true; notifiedError := None |}
        (snd (completeAction now2 a (startAction now1 a type m1))).
Proof.
  unfold getActionState. intros Hg.
  unfold waitForAction. rewrite Hg. cbn [fst snd].
  split; [reflexivity|].
  unfold completeAction, failAction, onActionComplete. cbn [actionStates].
  rewrite Hg. repeat split.
  unfold startAction. cbn [actionStates completionCallbacks].
  rewrite get_set_same. unfold notifyCallbacks.
  cbn [completionCallbacks]. rewrite get_set_same. cbn [snd].
  apply in_map_iff. eexists; split; [reflexivity|].
  apply in_or_app. right. now left.
Qed.

Lemma waiter_for_unknown_action_witness :
  let calls := [StartAction 0 "a" "click"; CompleteAction 3 "a"] in
  let m1 := fst (waitForAction "b" 7 (run calls)) in
  snd (waitForAction "b" 7 (run calls)) = None
  /\ completeAction 4 "b" m1 = (m1, [])
  /\ failAction 4 "b" "boom" m1 = (m1, [])
  /\ In {| notified := 7%nat; notifiedSuccess := true; notifiedError := None |}
        (snd (completeAction 6 "b" (startAction 5 "b" "navigate" m1))).
Proof.
  apply (waiter_for_unknown_action
           [StartAction 0 "a" "click"; CompleteAction 3 "a"]
           "b" "navigate" 7%nat 4%Z 5%Z 6%Z "boom"%string).
  reflexivity.
Defined.

End ActionStateCleanup.

(* ------------------------------------------------------------------ *)
(** ** The stability monitor: what a fulfilled wait has seen *)

Module StabilityWait.
Import Stability StabilityProps.

Lemma not_in_snoc (lg : list logEntry) (e : logEntry) :
  ~ In StabilityAchieved lg -> e <> StabilityAchieved ->
  ~ In StabilityAchieved (lg ++ [e]).
Proof.
  intros H He Hin. apply in_app_or in Hin.
  destruct Hin as [Hin|[Hin|[]]]; [contradiction | congruence].
Qed.

Lemma checkStability_achieved startTime polls st lg timers :
  ~ In StabilityAchieved lg ->
  In StabilityAchieved (log (checkStability startTime polls st lg timers)) ->
  (exists i j p q,
      (i < j)%nat /\ nth_error polls i = Some p /\ nth_error polls j = Some q
      /\ stableAnswer p = true /\ stableAnswer q = true
      /\ (MIN_STABLE_TIME <= currentTime q - currentTime p)%Z)
  \/ (wasStable st = true
      /\ exists j q,
           nth_error polls j = Some q /\ stableAnswer q = true
           /\ (MIN_STABLE_TIME <= currentTime q - lastStableTime st)%Z).
Proof.
  revert st lg timers.
  induction polls as [|p polls IH]; intros st lg timers Hlg;
    cbn [checkStability]; [cbn; contradiction|].
  assert (Hshift : forall st' lg' timers',
            ~ In StabilityAchieved lg' ->
            In StabilityAchieved
               (log (checkStability startTime polls st' lg' timers')) ->
            (wasStable st' = true ->
             (MIN_STABLE_TIME <= MIN_STABLE_TIME)%Z ->
             (wasStable st = true /\ lastStableTime st' = lastStableTime st)
             \/ (stableAnswer p = true
                 /\ lastStableTime st' = currentTime p)) ->
            (exists i j p0 q,
                (i < j)%nat /\ nth_error (p :: polls) i = Some p0
                /\ nth_error (p :: polls) j = Some q
                /\ stableAnswer p0 = true /\ stableAnswer q = true
                /\ (MIN_STABLE_TIME <= currentTime q - currentTime p0)%Z)
            \/ (wasStable st = true
                /\ exists j q,
                     nth_error (p :: polls) j = Some q /\ stableAnswer q = true
                     /\ (MIN_STABLE_TIME <= currentTime q - lastStableTime st)%Z)).
  { intros st' lg' timers' Hlg' Hin Hlink.
    destruct (IH st' lg' timers' Hlg' Hin)
      as [[i [j [p0 [q [Hij [Hi [Hj H]]]]]]]|[Hws [j [q [Hj [Hq Ht]]]]]].
    - left. exists (S i), (S j), p0, q. cbn. repeat split; try tauto. lia.
    - destruct (Hlink Hws ltac:(lia)) as [[Hst Heq]|[Hp Heq]].
      + right. split; [assumption|]. exists (S j), q. cbn.
        rewrite <- Heq. auto.
      + left. exists 0%nat, (S j), p, q. cbn. rewrite <- Heq.
        repeat split; auto. lia. }
  destruct (domSnapshot p) as [[pg|]|e] eqn:Hp.
  - set (result := stabilityScript MAX_MUTATION_COUNT pg).
    assert (Hsp : stableAnswer p = isStable result).
    { unfold stableAnswer. now rewrite Hp. }
    destruct (isStable result) eqn:Hres; cbn [andb negb].
    + destruct (wasStable st) eqn:Hws; cbn [negb].
      * destruct ((CONSISTENT_CHECKS_REQUIRED <=? consistentStableChecks st + 1)%Z
                  && (MIN_STABLE_TIME <=? currentTime p - lastStableTime st)%Z)
          eqn:Hcond.
        -- intros _. right. split; [reflexivity|].
           exists 0%nat, p. cbn. apply andb_prop in Hcond.
           destruct Hcond as [_ Ht]. apply Z.leb_le in Ht. auto.
        -- destruct (TIMEOUT <? currentTime p - startTime)%Z.
           ++ cbn [log]. intros Hin. exfalso.
              revert Hin. apply not_in_snoc; [assumption | discriminate].
           ++ intros Hin. apply (Hshift _ _ _ Hlg Hin).
              intros _ _. left. cbn. auto.
      * replace ((CONSISTENT_CHECKS_REQUIRED <=? 1)%Z) with false by reflexivity.
        cbn [andb].
        destruct (TIMEOUT <? currentTime p - startTime)%Z.
        -- cbn [log]. intros Hin. exfalso.
           revert Hin. apply not_in_snoc; [assumption | discriminate].
        -- intros Hin. apply (Hshift _ _ _ Hlg Hin).
           intros _ _. right. cbn. auto.
    + destruct (TIMEOUT <? currentTime p - startTime)%Z.
      * cbn [log]. intros Hin. exfalso. revert Hin.
        apply not_in_snoc; [|discriminate].
        apply not_in_snoc; [assumption | discriminate].
      * intros Hin. refine (Hshift _ _ _ _ Hin _).
        -- apply not_in_snoc; [assumption | discriminate].
        -- cbn. fold result. rewrite Hres. discriminate.
  - intros Hin. refine (Hshift _ _ _ _ Hin _).
    + apply not_in_snoc; [assumption | discriminate].
    + intros Hws _. left. auto.
  - intros Hin. refine (Hshift _ _ _ _ Hin _).
    + apply not_in_snoc; [assumption | discriminate].
    + intros Hws _. left. auto.
Qed.

(** Stability is never declared on one look.  Whenever the wait logs
    'Page stability achieved', two different polls answered with a stable
    page, and the later one ran at least [MIN_STABLE_TIME] = 100 ms after
    the earlier one. *)
Theorem stability_needs_two_stable_polls (startTime : Z) (polls : list poll) :
  In StabilityAchieved (log (checkPageLoadingAndStability startTime polls)) ->
  exists i j p q,
    (i < j)%nat /\ nth_error polls i = Some p /\ nth_error polls j = Some q
    /\ stableAnswer p = true /\ stableAnswer q = true
    /\ (100 <= currentTime q - currentTime p)%Z.
Proof.
  intros H. unfold checkPageLoadingAndStability in H.
  apply checkStability_achieved in H; [|intros []].
  destruct H as [H|[Hws _]]; [exact H | discriminate].
Qed.

Lemma stability_needs_two_stable_polls_witness :
  exists i j p q,
    (i < j)%nat
    /\ nth_error [answers fetchingPage 5; answers calmPage 35;
                  answers calmPage 135] i = Some p
    /\ nth_error [answers fetchingPage 5; answers calmPage 35;
                  answers calmPage 135] j = Some q
    /\ stableAnswer p = true /\ stableAnswer q = true
    /\ (100 <= currentTime q - currentTime p)%Z.
Proof.
  apply (stability_needs_two_stable_polls 0
           [answers fetchingPage 5; answers calmPage 35; answers calmPage 135]).
  cbn. auto.
Defined.

(** *** The result cache *)

(** A wait that has settled vouches for the page for half a second, counted
    from the moment the call began, and it does so whether the page was
    found stable or the wait ran into its timeout.  A call that begins less
    than [SKIP_STABILITY_THRESHOLD] = 500 ms after that moment returns at
    once, with no poll; a call that begins later polls again. *)
Theorem stability_check_is_cached (c : cache) (now startTime : Z)
    (setup : outcome string unit) (polls : list poll)
    (now' startTime' : Z) (setup' : outcome string unit)
    (polls' : list poll) :
  lastStabilityOk c && (now - lastStabilityCheck c <? 500)%Z = false ->
  promise (snd (ensurePageStability c now setup startTime polls)) = Fulfilled ->
  let c1 := fst (ensurePageStability c now setup startTime polls) in
  c1 = {| lastStabilityCheck := now; lastStabilityOk := true |}
  /\ ((now' - now < 500)%Z ->
      ensurePageStability c1 now' setup' startTime' polls'
      = (c1, {| promise := Fulfilled; log := []; timersArmed := 0 |}))
  /\ ((500 <= now' - now)%Z ->
      snd (ensurePageStability c1 now' setup' startTime' polls')
      = checkPageLoadingAndStability startTime' polls').
Proof.
  intros Hskip. unfold ensurePageStability at 1 2.
  unfold SKIP_STABILITY_THRESHOLD. rewrite Hskip.
  destruct (promise (checkPageLoadingAndStability startTime polls)) eqn:Hp;
    cbn [fst snd]; try (rewrite Hp; discriminate).
  intros _. split; [reflexivity|]. unfold ensurePageStability.
  cbn [lastStabilityOk lastStabilityCheck andb]. unfold SKIP_STABILITY_THRESHOLD.
  split; intros Ht.
  - now apply Z.ltb_lt in Ht as ->.
  - apply Z.ltb_ge in Ht. rewrite Ht.
    now destruct (promise (checkPageLoadingAndStability startTime' polls')).
Qed.

Lemma stability_check_is_cached_witness :
  let polls := [answers fetchingPage 1005; answers fetchingPage 3002] in
  let c1 := fst (ensurePageStability initialCache 1000 (Resolved tt) 1001
                   polls) in
  c1 = {| lastStabilityCheck := 1000; lastStabilityOk := true |}
  /\ ((1400 - 1000 < 500)%Z ->
      ensurePageStability c1 1400 (Resolved tt) 1400 []
      = (c1, {| promise := Fulfilled; log := []; timersArmed := 0 |}))
  /\ ((500 <= 1400 - 1000)%Z ->
      snd (ensurePageStability c1 1400 (Resolved tt) 1400 [])
      = checkPageLoadingAndStability 1400 []).
Proof.
  apply (stability_check_is_cached initialCache 1000 1001 (Resolved tt)
           [answers fetchingPage 1005; answers fetchingPage 3002]
           1400 1400 (Resolved tt) []).
  - reflexivity.
  - reflexivity.
Defined.

(** *** A bound on the wait *)

Lemma checkStability_bounded startTime polls st lg timers k :
  (k <= 81)%nat ->
  (81 - k < List.length polls)%nat ->
  (forall i p, nth_error polls i = Some p ->
     (exists pg, domSnapshot p = Resolved (Some pg))
     /\ (startTime + POLL_INTERVAL * Z.of_nat (k + i) <= currentTime p)%Z) ->
  promise (checkStability startTime polls st lg timers) = Fulfilled
  /\ (timersArmed (checkStability startTime polls st lg timers)
      <= timers + (81 - k))%nat.
Proof.
  revert st lg timers k.
  induction polls as [|p polls IH]; intros st lg timers k Hk Hlen Hans;
    cbn [List.length] in Hlen; [lia|].
  cbn [checkStability].
  destruct (Hans 0%nat p eq_refl) as [[pg Hpg] Ht]. rewrite Hpg.
  destruct (_ && _ && _)%bool; [cbn; split; [reflexivity | lia]|].
  destruct (Z.ltb_spec TIMEOUT (currentTime p - startTime)) as [Hto|Hto];
    [cbn; split; [reflexivity | lia]|].
  assert (k < 81)%nat.
  { unfold TIMEOUT, POLL_INTERVAL in *. rewrite Nat.add_0_r in Ht. lia. }
  match goal with
  | |- context [checkStability startTime polls ?st' ?lg' (S timers)] =>
      destruct (IH st' lg' (S timers) (S k)) as [H1 H2]
  end; try lia.
  - intros i q Hq. destruct (Hans (S i) q Hq) as [Hx Hy].
    split; [exact Hx|]. now replace (S k + i)%nat with (k + S i)%nat by lia.
  - split; [exact H1 | lia].
Qed.

(** When the polls are answered, the wait is short.  With every poll
    answered, and poll [i] running no earlier than [i] poll intervals of
    25 ms after the start, the wait is over by poll 81 (the first one that
    can run more than 2000 ms after the start): it has armed at most 81
    timers. *)
Theorem stability_wait_is_bounded (startTime : Z) (polls : list poll) :
  answering startTime polls ->
  (82 <= List.length polls)%nat ->
  promise (checkPageLoadingAndStability startTime polls) = Fulfilled
  /\ (timersArmed (checkPageLoadingAndStability startTime polls) <= 81)%nat.
Proof.
  intros Hans Hlen. unfold checkPageLoadingAndStability.
  apply (checkStability_bounded startTime polls _ [] 0%nat 0%nat); try lia.
  exact Hans.
Qed.

Lemma stability_wait_is_bounded_witness :
  let polls := map (fun i => answers fetchingPage (25 * Z.of_nat i + 3))
                   (seq 0 82) in
  promise (checkPageLoadingAndStability 0 polls) = Fulfilled
  /\ (timersArmed (checkPageLoadingAndStability 0 polls) <= 81)%nat.
Proof.
  apply (stability_wait_is_bounded 0
           (map (fun i => answers fetchingPage (25 * Z.of_nat i + 3))
                (seq 0 82))).
  - intros i p Hp. rewrite nth_error_map in Hp.
    destruct (nth_error (seq 0 82) i) as [n|] eqn:Hn; [|discriminate].
    assert (Hpeq : p = answers fetchingPage (25 * Z.of_nat n + 3))
      by (cbn [option_map] in Hp; congruence).
    subst p. clear Hp.
    assert (n = i).
    { assert (Hi : (i < List.length (seq 0 82))%nat).
      { apply nth_error_Some. rewrite Hn. discriminate. }
      rewrite length_seq in Hi.
      apply (nth_error_nth _ _ 0%nat) in Hn.
      rewrite seq_nth in Hn by assumption. lia. }
    subst n. split; [eexists; reflexivity|].
    unfold answers, POLL_INTERVAL. cbn [currentTime]. lia.
  - rewrite length_map, length_seq. lia.
Defined.

End StabilityWait.

(* ------------------------------------------------------------------ *)
(** ** The scroll engine: the three ways out *)

Module ScrollPaths.
Import DOM Scroll.

Lemma retryDelays_snoc n : retryDelays (S n) = retryDelays n ++ [RetryDelay n].
Proof. unfold retryDelays. now rewrite seq_S, map_app. Qed.

Lemma loop_paths remaining i observe lr st :
  (i + remaining = MAX_RETRIES)%nat ->
  let r := loop remaining i observe lr st (retryDelays i) in
  match via r with
  | ByAttempt n =>
      (i <= n < MAX_RETRIES)%nat
      /\ reportedSuccess (observe n) = true
      /\ returned r = succeededResult
      /\ slept r = retryDelays n ++ [WaitTime]
  | ByLastResort =>
      threw (observe 2%nat) = true
      /\ lastResortSucceeds lr = true
      /\ returned r = succeededResult
      /\ slept r = retryDelays 2 ++ [WaitTime]
  | Exhausted =>
      Returned.success (returned r) = false
      /\ slept r = retryDelays MAX_RETRIES
  end.
Proof.
  revert i st. induction remaining as [|remaining IH]; intros i st Hsum;
    cbn [loop].
  - cbn. replace i with MAX_RETRIES by lia. auto.
  - assert (Hnext : forall st',
              let r := loop remaining (S i) observe lr st'
                            (retryDelays i ++ [RetryDelay i]) in
              match via r with
              | ByAttempt n =>
                  (i <= n < MAX_RETRIES)%nat
                  /\ reportedSuccess (observe n) = true
                  /\ returned r = succeededResult
                  /\ slept r = retryDelays n ++ [WaitTime]
              | ByLastResort =>
                  threw (observe 2%nat) = true
                  /\ lastResortSucceeds lr = true
                  /\ returned r = succeededResult
                  /\ slept r = retryDelays 2 ++ [WaitTime]
              | Exhausted =>
                  Returned.success (returned r) = false
                  /\ slept r = retryDelays MAX_RETRIES
              end).
    { intros st'. rewrite <- retryDelays_snoc.
      pose proof (IH (S i) st' ltac:(lia)) as H. cbv zeta in H |- *.
      destruct (via (loop remaining (S i) observe lr st' (retryDelays (S i))));
        try assumption.
      destruct H as [H1 H2]. split; [lia | assumption]. }
    assert (Hcaught :
              threw (observe i) = true ->
              let r := if Nat.eqb i (MAX_RETRIES - 1) && lastResortSucceeds lr
                       then succeeded ByLastResort (retryDelays i)
                       else loop remaining (S i) observe lr st
                                 (retryDelays i ++ [RetryDelay i]) in
              match via r with
              | ByAttempt n =>
                  (i <= n < MAX_RETRIES)%nat
                  /\ reportedSuccess (observe n) = true
                  /\ returned r = succeededResult
                  /\ slept r = retryDelays n ++ [WaitTime]
              | ByLastResort =>
                  threw (observe 2%nat) = true
                  /\ lastResortSucceeds lr = true
                  /\ returned r = succeededResult
                  /\ slept r = retryDelays 2 ++ [WaitTime]
              | Exhausted =>
                  Returned.success (returned r) = false
                  /\ slept r = retryDelays MAX_RETRIES
              end).
    { intros Hthrew.
      destruct (Nat.eqb_spec i (MAX_RETRIES - 1)) as [->|Hne]; cbn [andb].
      - destruct (lastResortSucceeds lr) eqn:Hlr; [|apply Hnext].
        cbn. auto.
      - apply Hnext. }
    unfold threw, reportedSuccess in *.
    destruct (lookup (observe i)) as [uid|e] eqn:Hl; [|now apply Hcaught].
    destruct (script (observe i)) as [[pg|]|e] eqn:Hs;
      [| apply Hnext | now apply Hcaught].
    destruct (success (scrollScript VIEWPORT_TOLERANCE pg)) eqn:Hok;
      [|apply Hnext].
    cbn. rewrite Hl, Hs. unfold MAX_RETRIES in *. repeat split; auto; lia.
Qed.

(** [scrollIntoView] leaves by one of three doors, and each has its
    timing.  It reports success from attempt [n < 3], whose script said so,
    after the retry delays of the attempts before it and the final wait of
    300 ms; or from the last-resort block, which runs only when the third
    attempt threw, after two retry delays and the final wait; or it gives up
    with [success: false] after all three retry delays, the last of them
    slept although no attempt follows.  A success always comes with
    [partialSuccess: true]. *)
Theorem scrollIntoView_paths (observe : nat -> attempt) (lr : lastResort) :
  match via (scrollIntoView observe lr) with
  | ByAttempt n =>
      (n < 3)%nat
      /\ reportedSuccess (observe n) = true
      /\ returned (scrollIntoView observe lr) = succeededResult
      /\ slept (scrollIntoView observe lr) = retryDelays n ++ [WaitTime]
  | ByLastResort =>
      threw (observe 2%nat) = true
      /\ lastResortSucceeds lr = true
      /\ returned (scrollIntoView observe lr) = succeededResult
      /\ slept (scrollIntoView observe lr)
         = [RetryDelay 0; RetryDelay 1; WaitTime]
  | Exhausted =>
      Returned.success (returned (scrollIntoView observe lr)) = false
      /\ slept (scrollIntoView observe lr)
         = [RetryDelay 0; RetryDelay 1; RetryDelay 2]
  end.
Proof.
  pose proof (loop_paths MAX_RETRIES 0 observe lr
                {| bestResult := None; anyProgressMade := false |} eq_refl)
    as H.
  cbv zeta in H. change (retryDelays 0) with (@nil delay) in H.
  fold (scrollIntoView observe lr) in H.
  destruct (via (scrollIntoView observe lr)); try exact H.
  destruct H as [[_ H1] H2]. split; [exact H1 | exact H2].
Qed.

End ScrollPaths.

(* ------------------------------------------------------------------ *)
(** ** The coordinate engine: what is returned, and the error after the
       loop *)

Module CoordinatesPaths.
Import DOM Coordinates.

Lemma tryBody_returned attempts a st st' c :
  tryBody attempts a st = (st', Resolved (Returned c)) ->
  exists rect,
    sawInViewport a rect
    /\ c = {| x := (left rect + width rect / 2)%float;
              y := (top rect + height rect / 2)%float |}.
Proof.
  unfold tryBody, sawInViewport.
  destruct (lookup a) as [uid|] eqn:Hl; [|discriminate].
  destruct (script a) as [[pg|]|] eqn:Hs; try discriminate;
    [|destruct (isLastAttempt attempts); discriminate].
  unfold coordinateScript.
  destruct (target pg) as [[rect style]|] eqn:Ht;
    [|destruct (isLastAttempt attempts); discriminate].
  destruct (noDimensions rect) eqn:Hd;
    [destruct (isLastAttempt attempts); discriminate|].
  match goal with
  | |- context [negb ?v] => destruct v eqn:Hvis; cbn [negb]
  end.
  - destruct (invalid _ _); [destruct (isLastAttempt attempts); discriminate|].
    intros [= _ <-]. exists rect. split; [|reflexivity].
    exists uid, pg, style. repeat split; try reflexivity; assumption.
  - destruct (scrollScript a); discriminate.
Qed.

Lemma loop_returned remaining attempts observe st sleeps c :
  result (loop remaining attempts observe st sleeps) = Resolved c ->
  let r := loop remaining attempts observe st sleeps in
  exists rect,
    sawInViewport (observe (attemptsMade r - 1)%nat) rect
    /\ c = {| x := (left rect + width rect / 2)%float;
              y := (top rect + height rect / 2)%float |}
    /\ (List.length (slept r) + 1
        = List.length sleeps + (attemptsMade r - attempts))%nat
    /\ (attempts < attemptsMade r)%nat.
Proof.
  revert attempts st sleeps.
  induction remaining as [|remaining IH]; intros attempts st sleeps;
    cbn [loop]; [discriminate|].
  assert (Hnext : forall st' ms,
            result (loop remaining (S attempts) observe st' (sleeps ++ [ms]))
            = Resolved c ->
            let r := loop remaining (S attempts) observe st' (sleeps ++ [ms]) in
            exists rect,
              sawInViewport (observe (attemptsMade r - 1)%nat) rect
              /\ c = {| x := (left rect + width rect / 2)%float;
                        y := (top rect + height rect / 2)%float |}
              /\ (List.length (slept r) + 1
                  = List.length sleeps + (attemptsMade r - attempts))%nat
              /\ (attempts < attemptsMade r)%nat).
  { intros st' ms H. destruct (IH _ _ _ H) as [rect [H1 [H2 [H3 H4]]]].
    exists rect. rewrite length_app in H3. cbn in H3.
    repeat split; auto; lia. }
  destruct (tryBody attempts (observe attempts) st) as [st' [[c'|ms]|msg]]
    eqn:Htry.
  - cbn [result attemptsMade slept]. intros [= ->].
    destruct (tryBody_returned _ _ _ _ _ Htry) as [rect [H1 H2]].
    exists rect. replace (S attempts - 1)%nat with attempts by lia.
    repeat split; auto; lia.
  - apply Hnext.
  - destruct (isLastAttempt attempts); [discriminate | apply Hnext].
Qed.

(** What [getCenterCoordinates] returns is the centre of the rectangle
    read in the last attempt it made: [left + width / 2] and
    [top + height / 2] of an element that was found, has positive width and
    height and lies within [VIEWPORT_MARGIN] = 50 px of the window.  It has
    slept once between two consecutive attempts. *)
Theorem getCenterCoordinates_returns_centre (observe : nat -> attempt) :
  match result (getCenterCoordinates observe) with
  | Resolved c =>
      exists rect,
        sawInViewport
          (observe (attemptsMade (getCenterCoordinates observe) - 1)%nat) rect
        /\ x c = (left rect + width rect / 2)%float
        /\ y c = (top rect + height rect / 2)%float
        /\ (List.length (slept (getCenterCoordinates observe)) + 1
            = attemptsMade (getCenterCoordinates observe))%nat
  | Rejected _ => True
  end.
Proof.
  destruct (result (getCenterCoordinates observe)) as [c|e] eqn:Hr; [|exact I].
  unfold getCenterCoordinates in *.
  destruct (loop_returned _ _ _ _ _ _ Hr) as [rect [H1 [H2 [H3 H4]]]].
  exists rect. subst c. cbn in *. repeat split; auto. lia.
Qed.





End CoordinatesPaths.

(* ------------------------------------------------------------------ *)
(** ** Element identities: document order, and re-annotation *)

Module AnnotationOrder.
Import GetAnnotatedDOM GetAnnotatedDOMProps.

(** Induction on trees, children included. *)
Fixpoint node_rect (P : node -> Prop)
    (Helement : forall e childNodes, Forall P childNodes ->
                                     P (ElementNode e childNodes))
    (Hother : P OtherNode) (n : node) : P n :=
  match n with
  | ElementNode e childNodes =>
      Helement e childNodes
        ((fix children (l : list node) : Forall P l :=
            match l with
            | [] => Forall_nil P
            | c :: l' =>
                Forall_cons c (node_rect P Helement Hother c) (children l')
            end) childNodes)
  | OtherNode => Hother
  end.

Lemma traverseDOM_appends n :
  forall pageElements, traverseDOM n pageElements = pageElements ++ elementsOf n.
Proof.
  induction n as [e childNodes IH|] using node_rect; intros pageElements;
    cbn [traverseDOM elementsOf]; [|now rewrite app_nil_r].
  assert (G : forall acc,
            fold_left (fun a child => traverseDOM child a) childNodes acc
            = acc ++ flat_map elementsOf childNodes).
  { induction IH as [|c l Hc Hl IHl]; intros acc; cbn;
      [now rewrite app_nil_r|].
    now rewrite Hc, IHl, app_assoc. }
  rewrite G, <- app_assoc. reflexivity.
Qed.

(** [getAnnotatedDOM] numbers the elements in document order: the index an
    element gets is its position among the elements of the tree, parents
    before children and siblings left to right, and nodes that are not
    elements take no index.  What was annotated before is forgotten, the
    identities set on the page are not. *)
Theorem annotation_in_document_order (documentElement : node) (c : content) :
  currentElements (getAnnotatedDOM documentElement c)
  = elementsOf documentElement
  /\ identity (getAnnotatedDOM documentElement c) = identity c.
Proof.
  unfold getAnnotatedDOM. cbn. split; [|reflexivity].
  now rewrite traverseDOM_appends.
Qed.

Lemma identity_reannotated (documents : list node) (c : content) :
  identity (reannotated documents c) = identity c.
Proof.
  unfold reannotated. revert c.
  induction documents as [|d l IH]; intros c; cbn [fold_left]; [reflexivity|].
  rewrite IH. reflexivity.
Qed.

(** An identity survives re-annotation.  Once [getUniqueElementSelectorId]
    has answered a non-empty identity for an element, every later call that
    names this element answers the same identity, under whatever index the
    element has after any number of new annotations, and without touching
    the page. *)
Theorem identity_survives_reannotation (c : content) (i : nat)
    (e : element) (random1 : string) (u : string)
    (documents : list node) (j : nat) (random2 : string) :
  nth_error (currentElements c) i = Some e ->
  snd (getUniqueElementSelectorId i random1 c) = Resolved u ->
  JS.nonEmpty u = true ->
  nth_error
    (currentElements
       (reannotated documents (fst (getUniqueElementSelectorId i random1 c))))
    j = Some e ->
  getUniqueElementSelectorId j random2
    (reannotated documents (fst (getUniqueElementSelectorId i random1 c)))
  = (reannotated documents (fst (getUniqueElementSelectorId i random1 c)),
     Resolved u).
Proof.
  intros He Hr Hu Hj.
  assert (H1 : identity (fst (getUniqueElementSelectorId i random1 c)) e
               = Some u).
  { revert Hr. unfold getUniqueElementSelectorId. rewrite He.
    destruct (identity c e) as [v|] eqn:Hv;
      [destruct (JS.nonEmpty v) eqn:Hnv|]; cbn.
    - intros [= <-]. exact Hv.
    - intros [= <-]. now rewrite Nat.eqb_refl.
    - intros [= <-]. now rewrite Nat.eqb_refl. }
  apply identity_read_back with (e := e); [assumption | | assumption].
  now rewrite identity_reannotated.
Qed.

Lemma identity_survives_reannotation_witness :
  let c := {| currentElements := [4; 5]%nat; identity := fun _ => None |} in
  let documents :=
    [ElementNode 9 [ElementNode 4 []; OtherNode; ElementNode 5 []]] in
  getUniqueElementSelectorId 2 "0.zzzzzzzzzzz"
    (reannotated documents
       (fst (getUniqueElementSelectorId 1 "0.4fzyo82mvyr" c)))
  = (reannotated documents
       (fst (getUniqueElementSelectorId 1 "0.4fzyo82mvyr" c)),
     Resolved "4fzyo82m"%string).
Proof.
  apply (identity_survives_reannotation
           {| currentElements := [4; 5]%nat; identity := fun _ => None |}
           1 5%nat "0.4fzyo82mvyr" "4fzyo82m"
           [ElementNode 9 [ElementNode 4 []; OtherNode; ElementNode 5 []]]
           2 "0.zzzzzzzzzzz"); reflexivity.
Defined.

End AnnotationOrder.

(* ------------------------------------------------------------------ *)
(** ** The click executor: when it resolves, and what it throws *)

Module ClickOutcome.
Import Click ClickProps ClickMessage TextFacts.
Local Open Scope string_scope.

Lemma outerCatch_rejects w c thrown :
  exists e, snd (outerCatch w c thrown) = Rejected e.
Proof.
  unfold outerCatch. destruct (hideCursorOnError w); [|cbn; eauto].
  destruct thrown as [c'|message]; [cbn; eauto|].
  destruct (JS.includes _ message); cbn; eauto.
Qed.

Lemma backupPhase_resolves w c :
  snd (backupPhase w c) = Resolved tt -> backupClicked w.
Proof.
  unfold backupPhase, backupClicked.
  assert (Hcatch : forall c' t, snd (outerCatch w c' t) = Resolved tt -> False).
  { intros c' t H. destruct (outerCatch_rejects w c' t) as [e He]. congruence. }
  destruct (elementLookup w); [|intros H; now apply Hcatch in H].
  destruct (backupClick w) as [[pg|]|];
    try (intros H; now apply Hcatch in H).
  destruct (success (backupClickScript pg)) eqn:Hok;
    [|intros H; now apply Hcatch in H].
  intros _. eauto.
Qed.

Lemma scrollPhase_backup w c :
  backupClickAttempted (Click.context (scrollPhase w c))
  = backupClickAttempted c.
Proof.
  unfold scrollPhase. destruct (scroll w) as [sr|]; [|reflexivity].
  cbv zeta.
  match goal with
  | |- context [coordinateRetries ?n ?k ?p ?g ?c3] =>
      pose proof (coordinateRetries_backup n k p g c3) as Hc4;
      assert (Hc3 : backupClickAttempted c3 = backupClickAttempted c)
        by (now destruct (negb (Scroll.Returned.success sr)
                          && negb (Scroll.Returned.partialSuccess sr)));
      rewrite Hc3 in Hc4;
      generalize dependent (coordinateRetries n k p g c3)
  end.
  intros c4 Hc4.
  destruct (coordinates c4) as [xy|]; [|exact Hc4].
  destruct (visibilityCheck w xy) as [answer|]; [|exact Hc4].
  destruct (match answer with Some pg => visibilityScript pg | None => false end);
    [exact Hc4|].
  destruct (Scroll.Returned.partialSuccess sr); [exact Hc4|].
  destruct (rescroll w); [|exact Hc4].
  destruct (coordinatesAfterRescroll w); exact Hc4.
Qed.

(** [click] resolves only when a click went out: the primary method
    dispatched its mouse events on an element found at the coordinates, or
    the backup method ran and its script reported success on the live
    element. *)
Theorem click_resolves_only_after_clicking (w : world) :
  result (click w) = Resolved tt ->
  (exists hit, primaryLandedOn (click w) = Some hit
               /\ primaryClickScript hit = true
               /\ backupClickAttempted (final (click w)) = false)
  \/ (primaryLandedOn (click w) = None
      /\ backupClickAttempted (final (click w)) = true
      /\ backupClicked w).
Proof.
  unfold click.
  destruct (initializeCursor w).
  2: { destruct (outerCatch_rejects w initialContext (PassedThrough e))
         as [e' He'].
       destruct (outerCatch w initialContext (PassedThrough e)) as [c r].
       cbn in *. subst r. discriminate. }
  set (ph := scrollPhase w initialContext).
  assert (Hbackup : forall c,
            result (let '(c', r) := backupPhase w c in
                    {| result := r; final := c'; didReScroll := reScrolled ph;
                       primaryLandedOn := None |}) = Resolved tt ->
            primaryLandedOn (let '(c', r) := backupPhase w c in
                    {| result := r; final := c'; didReScroll := reScrolled ph;
                       primaryLandedOn := None |}) = None
            /\ backupClickAttempted
                 (final (let '(c', r) := backupPhase w c in
                    {| result := r; final := c'; didReScroll := reScrolled ph;
                       primaryLandedOn := None |})) = true
            /\ backupClicked w).
  { intros c. pose proof (backupPhase_resolves w c) as Hres.
    destruct (backupPhase_flags w c) as [Hflag _].
    destruct (backupPhase w c) as [c' r]. cbn in *. intros ->. auto. }
  assert (Hscroll : backupClickAttempted (context ph) = false)
    by (unfold ph; now rewrite scrollPhase_backup).
  destruct (coordinates (context ph)) as [xy|]; [|right; now apply Hbackup].
  destruct (useBackupMethod ph); [right; now apply Hbackup|].
  destruct (primaryPhase w xy (context ph)) as [c [hit|message]] eqn:Hprim;
    [|right; now apply Hbackup].
  intros _. left. exists hit. cbn. split; [reflexivity|].
  revert Hprim. unfold primaryPhase.
  destruct (moveCursor w xy) as [moved|]; [|discriminate].
  destruct (primaryClick w xy) as [[h|]|]; try discriminate.
  destruct (primaryClickScript h) eqn:Hh; [|discriminate].
  destruct (hideCursorAfterPrimary w); [|discriminate].
  intros [= <- <-]. split; [exact Hh | exact Hscroll].
Qed.

Lemma click_resolves_only_after_clicking_witness :
  (exists hit, primaryLandedOn (click coveredThenGone) = Some hit
               /\ primaryClickScript hit = true
               /\ backupClickAttempted (final (click coveredThenGone)) = false)
  \/ (primaryLandedOn (click coveredThenGone) = None
      /\ backupClickAttempted (final (click coveredThenGone)) = true
      /\ backupClicked coveredThenGone).
Proof.
  apply (click_resolves_only_after_clicking coveredThenGone). reflexivity.
Defined.

(** *** The detailed error *)

Section Messages.
Variable numberToString : JS.number -> string.

Let buildClickErrorMessage := ClickMessage.buildClickErrorMessage numberToString.
Let messageOf := ClickMessage.messageOf numberToString.

Lemma buildClickErrorMessage_marked elementId c :
  JS.includes "Click operation failed for element"
              (buildClickErrorMessage elementId c) = true
  /\ JS.includes "operation failed for element"
                 (buildClickErrorMessage elementId c) = true.
Proof.
  unfold buildClickErrorMessage, ClickMessage.buildClickErrorMessage.
  set (m0 := "Click operation failed for element "
             ++ numberToString elementId ++ ". ").
  assert (H0 : JS.includes "Click operation failed for element" m0 = true
               /\ JS.includes "operation failed for element" m0 = true).
  { unfold m0. split.
    - change ("Click operation failed for element "
              ++ numberToString elementId ++ ". ")
        with ("Click operation failed for element"
              ++ (" " ++ numberToString elementId ++ ". ")).
      apply includes_prefix, prefix_app.
    - change ("Click operation failed for element "
              ++ numberToString elementId ++ ". ")
        with ("Click " ++ "operation failed for element"
              ++ (" " ++ numberToString elementId ++ ". ")).
      apply includes_middle. }
  destruct H0 as [Ha Hb]. cbv zeta.
  assert (G : forall needle rest,
            JS.includes needle m0 = true ->
            JS.includes needle (m0 ++ rest) = true)
    by (intros; now apply includes_app_l).
  destruct (lastError c) as [e|];
    [destruct (JS.nonEmpty (noteText e))|];
    split; repeat apply includes_app_l; assumption.
Qed.

Lemma outerCatch_error w c thrown e :
  hideCursorOnError w = Resolved tt ->
  snd (outerCatch w c thrown) = Rejected e ->
  (thrown = e /\ exists d, thrown = Detailed d)
  \/ (exists message, thrown = PassedThrough message
        /\ ((e = PassedThrough message
             /\ JS.includes "Click operation failed for element" message = true)
            \/ e = Detailed (noteError (OtherError message) c))).
Proof.
  unfold outerCatch. intros ->. destruct thrown as [d|message].
  - cbn. intros [= <-]. left. eauto.
  - destruct (JS.includes _ message) eqn:Hinc; cbn; intros [= <-];
      right; exists message; auto.
Qed.

Lemma backupPhase_error w c e :
  hideCursorOnError w = Resolved tt ->
  snd (backupPhase w c) = Rejected e ->
  match e with
  | Detailed d => backupClickAttempted d = true
  | PassedThrough message =>
      JS.includes "Click operation failed for element" message = true
  end.
Proof.
  intros Hh. unfold backupPhase.
  set (c1 := noteMethods (cursorMoved c) (primaryClickAttempted c) true c).
  assert (Hc : forall c' t,
            backupClickAttempted c' = true ->
            (forall d, t = Detailed d -> backupClickAttempted d = true) ->
            snd (outerCatch w c' t) = Rejected e ->
            match e with
            | Detailed d => backupClickAttempted d = true
            | PassedThrough message =>
                JS.includes "Click operation failed for element" message = true
            end).
  { intros c' t Hc' Ht Hr.
    destruct (outerCatch_error w c' t e Hh Hr)
      as [[<- [d ->]] | [m [-> [[-> Hinc] | ->]]]]; auto. }
  destruct (elementLookup w) as [uid|m].
  - destruct (backupClick w) as [[pg|]|m].
    + destruct (success (backupClickScript pg)).
      * destruct (hideCursorAfterBackup w); [discriminate|].
        apply Hc; [reflexivity | discriminate].
      * apply Hc; [reflexivity | now intros d [= <-]].
    + apply Hc; [reflexivity | discriminate].
    + apply Hc; [reflexivity | discriminate].
  - apply Hc; [reflexivity | now intros d [= <-]].
Qed.

(** [click] gives up only after the backup method, and then with its own
    detailed error.  With the cursor helpers resolving (they catch their
    own failures), whatever [click] throws mentions
    ['Click operation failed for element'], and it is thrown with the backup
    method on record: the message reads 'Both primary and backup failed' or
    'Primary skipped, backup failed', never the other two. *)
Theorem click_fails_only_after_backup (elementId : JS.number) (w : world)
    (e : clickError) :
  initializeCursor w = Resolved tt ->
  hideCursorOnError w = Resolved tt ->
  result (click w) = Rejected e ->
  JS.includes "Click operation failed for element" (messageOf elementId e)
  = true
  /\ backupClickAttempted (final (click w)) = true
  /\ forall c, e = Detailed c ->
       methodsText c
       = if primaryClickAttempted c
         then "Methods: Both primary and backup failed. "
         else "Methods: Primary skipped, backup failed. ".
Proof.
  intros Hi Hh. unfold click. rewrite Hi.
  set (ph := scrollPhase w initialContext).
  assert (Hbackup : forall c,
            result (let '(c', r) := backupPhase w c in
                    {| result := r; final := c'; didReScroll := reScrolled ph;
                       primaryLandedOn := None |}) = Rejected e ->
            JS.includes "Click operation failed for element"
                        (messageOf elementId e) = true
            /\ backupClickAttempted
                 (final (let '(c', r) := backupPhase w c in
                    {| result := r; final := c'; didReScroll := reScrolled ph;
                       primaryLandedOn := None |})) = true
            /\ forall c0, e = Detailed c0 ->
                 methodsText c0
                 = if primaryClickAttempted c0
                   then "Methods: Both primary and backup failed. "
                   else "Methods: Primary skipped, backup failed. ").
  { intros c. pose proof (backupPhase_error w c e Hh) as Herr.
    destruct (backupPhase_flags w c) as [Hflag _].
    destruct (backupPhase w c) as [c' r]. cbn in *. intros ->.
    specialize (Herr eq_refl). split; [|split; [exact Hflag|]].
    - destruct e as [d|m]; cbn; [|exact Herr].
      apply buildClickErrorMessage_marked.
    - intros c0 ->. unfold methodsText. rewrite Herr.
      now destruct (primaryClickAttempted c0). }
  destruct (coordinates (context ph)) as [xy|]; [|apply Hbackup].
  destruct (useBackupMethod ph); [apply Hbackup|].
  destruct (primaryPhase w xy (context ph)) as [c [hit|message]];
    [discriminate | apply Hbackup].
Qed.

(** *** The same message from the shared helpers *)

(** The message [click] builds for itself is the one the helpers of
    [errorBuilder.ts] give for the operation ['Click'], with the part on the
    two methods put before the last error, as long as coordinates are on
    record whenever they are marked as obtained.  (Without them [click]
    prints ['(undefined, undefined)'] where the helper prints nothing.) *)
Theorem click_message_matches_errorBuilder (elementId : JS.number)
    (c : OperationContext) :
  (coordinatesObtained c = true -> coordinates c <> None) ->
  let b := asBuilderContext numberToString c in
  buildClickErrorMessage elementId c
  = ErrorBuilder.buildOperationContext numberToString "Click" elementId b
    ++ ErrorBuilder.buildScrollStatus b
    ++ ErrorBuilder.buildCoordinateStatus b
    ++ ErrorBuilder.buildCursorStatus b
    ++ methodsText c
    ++ ErrorBuilder.addLastError b.
Proof.
  intros Hxy b.
  unfold buildClickErrorMessage, ClickMessage.buildClickErrorMessage,
    ErrorBuilder.buildOperationContext, ErrorBuilder.buildScrollStatus,
    ErrorBuilder.buildCoordinateStatus, ErrorBuilder.buildCursorStatus,
    ErrorBuilder.addLastError.
  unfold b, asBuilderContext.
  cbn [ErrorBuilder.elementType ErrorBuilder.scrollAttempted
       ErrorBuilder.scrollSuccess ErrorBuilder.scrollPartialSuccess
       ErrorBuilder.coordinatesObtained ErrorBuilder.coordinates
       ErrorBuilder.cursorMoved ErrorBuilder.lastError].
  cbv zeta.
  assert (Hcoord :
    (if coordinatesObtained c then
       "Coordinates: ✓ Obtained ("
       ++ orUndefined (option_map (fun xy => numberToString (Coordinates.x xy))
                                  (coordinates c))
       ++ ", "
       ++ orUndefined (option_map (fun xy => numberToString (Coordinates.y xy))
                                  (coordinates c))
       ++ "). "
     else "Coordinates: ✗ Failed to obtain. ")
    = (if coordinatesObtained c then
         "Coordinates: ✓ Obtained"
         ++ match option_map
                    (fun xy => (numberToString (Coordinates.x xy),
                                numberToString (Coordinates.y xy)))
                    (coordinates c) with
            | Some (x, y) => " (" ++ x ++ ", " ++ y ++ ")"
            | None => EmptyString
            end
         ++ ". "
       else "Coordinates: ✗ Failed to obtain. ")).
  { destruct (coordinatesObtained c); [|reflexivity].
    destruct (coordinates c) as [xy|]; [|now destruct Hxy].
    cbn [option_map orUndefined]. rewrite !append_assoc. reflexivity. }
  rewrite Hcoord. clear Hcoord.
  destruct (scrollAttempted c); cbn [negb];
    (destruct (lastError c) as [e|]; cbn [option_map];
     [destruct (JS.nonEmpty (noteText e))|]);
    rewrite ?append_nil_r, ?append_assoc; reflexivity.
Qed.

End Messages.

Lemma click_fails_only_after_backup_witness :
  let e := Detailed
    {| scrollAttempted := true; scrollSuccess := false;
       scrollPartialSuccess := false; coordinatesObtained := false;
       coordinates := None; cursorMoved := false;
       primaryClickAttempted := false; backupClickAttempted := true;
       lastError := Some (ElementLookupFailed
                            "Element with ID 7 not found in DOM") |} in
  JS.includes "Click operation failed for element"
              (ClickMessage.messageOf (fun _ => "7") 7%float e) = true
  /\ backupClickAttempted (final (click vanished)) = true
  /\ forall c, e = Detailed c ->
       methodsText c
       = if primaryClickAttempted c
         then "Methods: Both primary and backup failed. "
         else "Methods: Primary skipped, backup failed. ".
Proof.
  apply (click_fails_only_after_backup (fun _ => "7") 7%float vanished);
    reflexivity.
Defined.

Lemma click_message_matches_errorBuilder_witness :
  let c := final (click coveredThenGone) in
  let b := asBuilderContext (fun _ => "120") c in
  ClickMessage.buildClickErrorMessage (fun _ => "120") 7%float c
  = ErrorBuilder.buildOperationContext (fun _ => "120") "Click" 7%float b
    ++ ErrorBuilder.buildScrollStatus b
    ++ ErrorBuilder.buildCoordinateStatus b
    ++ ErrorBuilder.buildCursorStatus b
    ++ methodsText c
    ++ ErrorBuilder.addLastError b.
Proof.
  apply (click_message_matches_errorBuilder (fun _ => "120") 7%float
           (final (click coveredThenGone))).
  intros _. discriminate.
Defined.

(** *** The model at work *)

Example vanished_target_message :
  option_map (ClickMessage.messageOf (fun _ => "7") 7%float)
             match result (click vanished) with
             | Rejected e => Some e
             | Resolved _ => None
             end
  = Some "Click operation failed for element 7. Scroll: ✗ Failed. Coordinates: ✗ Failed to obtain. Cursor: ✗ Not moved. Methods: Primary skipped, backup failed. Last error: Element lookup failed in backup method: Element with ID 7 not found in DOM".
Proof. reflexivity. Qed.

End ClickOutcome.

Module TypedTextProps.
Import SetValue SetValueProps TypedText TextFacts.
Local Open Scope string_scope.














(** *** Line breaks typed into an input *)








(** *** The model at work *)

Example typed_into_fields :
  value (fst (enhancedSetValueScript
                (String "a" (String newline (String "b" EmptyString)))
                caretAtStart))
  = String "a" (String newline (String "b" EmptyString))
  /\ value (fst (enhancedSetValueScript
                   (String "a" (String newline (String "b" EmptyString)))
                   searchBox))
     = "ab".
Proof. split; reflexivity. Qed.

End TypedTextProps.

(* ------------------------------------------------------------------ *)
(** ** [setValue] as a whole *)

Module SetValueFlowProps.
Import SetValueFlow TextFacts.
Local Open Scope string_scope.

Lemma prepareElement_resolves w c sr :
  scrollIntoView w = Resolved sr ->
  exists c', prepareElement w c = Resolved c'.
Proof. intros H. unfold prepareElement. rewrite H. eauto. Qed.

Lemma afterPrimary_shape w c :
  afterPrimary w c = c \/ exists t, afterPrimary w c = noteType t c.
Proof.
  unfold afterPrimary. destruct (SetValue.elementLookup w); [|now left].
  destruct (SetValue.typingScript w) as [[r|]|]; try now left.
  destruct (SetValue.success r); [right; eauto | now left].
Qed.

Lemma executeSetValueFallback_spec w c :
  (snd (executeSetValueFallback w c) = Resolved tt
   <-> fallbackSucceeds w = true)
  /\ (fst (executeSetValueFallback w c) = c
      \/ exists t, fst (executeSetValueFallback w c) = noteType t c).
Proof.
  unfold executeSetValueFallback, fallbackSucceeds.
  destruct (fallbackLookup w);
    [|split; [split; discriminate | now left]].
  destruct (fallbackScript w) as [[r|]|];
    try (split; [split; discriminate | now left]).
  destruct (FallbackResult.success r).
  - destruct (hideCursorAfterFallback w) as [[]|]; cbn.
    + split; [split; reflexivity | right; eauto].
    + split; [split; discriminate | right; eauto].
  - cbn. split; [|now left].
    destruct (hideCursorAfterFallback w); split; discriminate.
Qed.

Section Flow.
Variable numberToString : JS.number -> string.

Let setValue := SetValueFlow.setValue numberToString.
Let buildSetValueErrorMessage :=
  SetValueFlow.buildSetValueErrorMessage numberToString.

(** [setValue] does not depend on the click.  With the cursor set up and
    the scroll returning, it resolves exactly when the primary typing
    completes or, after that failed, the fallback goes through (element
    found, script reporting success, cursor hidden): whatever the click,
    the direct focus, the coordinate detection and the cursor movement
    did. *)
Theorem setValue_resolves_iff (elementId : JS.number) (rawValue : string)
    (w : world) (sr : Scroll.Returned.t) :
  initializeCursor w = Resolved tt ->
  scrollIntoView w = Resolved sr ->
  result (setValue elementId rawValue w) = Some (Resolved tt)
  <-> settlement (SetValue.executeSetValueWithCompletion
                    (SetValue.processValue rawValue) (primary w))
      = Some (Resolved tt)
      \/ ((exists primaryError,
             settlement (SetValue.executeSetValueWithCompletion
                           (SetValue.processValue rawValue) (primary w))
             = Some (Rejected primaryError))
          /\ fallbackSucceeds w = true).
Proof.
  intros Hi Hs. unfold setValue, SetValueFlow.setValue. rewrite Hi.
  destruct (prepareElement_resolves w initialContext sr Hs) as [c1 ->].
  cbv zeta.
  destruct (settlement _) as [[[]|primaryError]|].
  - split; [now left | reflexivity].
  - match goal with
    | |- context [executeSetValueFallback w ?c] =>
        destruct (executeSetValueFallback_spec w c) as [Hf _];
        destruct (executeSetValueFallback w c) as [c6 [[]|fallbackError]]
    end; cbn [snd result] in *.
    + split; [|reflexivity]. intros _. right. split; [eauto|].
      now apply Hf.
    + split; [discriminate|]. intros [H|[_ H]]; [discriminate|].
      apply Hf in H. discriminate.
  - split; [discriminate|]. intros [H|[[e H] _]]; discriminate.
Qed.

(** The error of [setValue] keeps the causes to itself.  Once the
    preparation is over, what [setValue] rejects with is the message built
    from the context of the preparation, with both methods marked as
    attempted and possibly another element type: it reads 'Both primary and
    fallback failed', its last error is that of the scroll, the click, the
    focus or the coordinates if there was one, and neither the error of the
    primary method nor the one of the fallback is in it. *)
Theorem setValue_error_is_from_preparation (elementId : JS.number)
    (rawValue : string) (w : world) (sr : Scroll.Returned.t)
    (message : string) :
  initializeCursor w = Resolved tt ->
  scrollIntoView w = Resolved sr ->
  result (setValue elementId rawValue w) = Some (Rejected message) ->
  exists p t,
    prepared w = Some p
    /\ message
       = buildSetValueErrorMessage elementId (noteType t (noteMethods true true p))
    /\ JS.includes "Methods: Both primary and fallback failed. " message
       = true.
Proof.
  intros Hi Hs. unfold setValue, SetValueFlow.setValue, prepared. rewrite Hi.
  destruct (prepareElement_resolves w initialContext sr Hs) as [c1 ->].
  cbv zeta. set (p := attemptCursorMovement w c1).
  assert (Hmarked : forall t,
            JS.includes "Methods: Both primary and fallback failed. "
              (buildSetValueErrorMessage elementId
                 (noteType t (noteMethods true true p))) = true).
  { intros t. unfold buildSetValueErrorMessage,
      SetValueFlow.buildSetValueErrorMessage. cbv zeta.
    cbn [primarySetValueAttempted fallbackSetValueAttempted noteType
         noteMethods andb lastError].
    set (m5 := _ ++ "Cursor: " ++ _ ++ ". ").
    assert (G : JS.includes "Methods: Both primary and fallback failed. "
                  (m5 ++ "Methods: Both primary and fallback failed. ")
                = true)
      by (apply includes_app_r, includes_prefix; reflexivity).
    destruct (lastError p) as [e|]; [destruct (JS.nonEmpty e)|];
      try exact G.
    now apply includes_app_l. }
  destruct (settlement _) as [[[]|primaryError]|]; try discriminate.
  set (c4 := afterPrimary (primary w) _).
  set (c5 := noteMethods (primarySetValueAttempted c4) true c4).
  assert (H5 : exists t, c5 = noteType t (noteMethods true true p)).
  { unfold c5, c4.
    destruct (afterPrimary_shape (primary w)
                (noteMethods true (fallbackSetValueAttempted p) p))
      as [-> | [t ->]].
    - exists (elementType p). now destruct p.
    - exists t. reflexivity. }
  destruct H5 as [t5 H5].
  destruct (executeSetValueFallback_spec w c5) as [_ Hc6].
  destruct (executeSetValueFallback w c5) as [c6 [[]|fallbackError]];
    [discriminate|].
  cbn [fst result] in *. intros [= <-].
  exists p. destruct Hc6 as [-> | [t ->]]; rewrite H5.
  - exists t5. repeat split. apply Hmarked.
  - exists t. repeat split. apply Hmarked.
Qed.

End Flow.

Lemma setValue_resolves_iff_witness :
  result (SetValueFlow.setValue (fun _ => "4") 4%float "hello" fallbackField)
  = Some (Resolved tt)
  <-> settlement (SetValue.executeSetValueWithCompletion
                    (SetValue.processValue "hello") (primary fallbackField))
      = Some (Resolved tt)
      \/ ((exists primaryError,
             settlement (SetValue.executeSetValueWithCompletion
                           (SetValue.processValue "hello")
                           (primary fallbackField))
             = Some (Rejected primaryError))
          /\ fallbackSucceeds fallbackField = true).
Proof.
  apply (setValue_resolves_iff (fun _ => "4") 4%float "hello" fallbackField
           {| Scroll.Returned.success := true;
              Scroll.Returned.partialSuccess := false;
              Scroll.Returned.reason := None |}); reflexivity.
Defined.

Lemma setValue_error_is_from_preparation_witness :
  exists p t,
    prepared stubbornField = Some p
    /\ "SetValue operation failed for element 4. Element type: div. Scroll: ✓ Successful. Click/Focus: ✗ Failed. Coordinates: ✓ Obtained. Cursor: ✓ Moved. Methods: Both primary and fallback failed. Last error: Click failed: Click operation failed for element 4. "
       = SetValueFlow.buildSetValueErrorMessage (fun _ => "4") 4%float
           (noteType t (noteMethods true true p))
    /\ JS.includes "Methods: Both primary and fallback failed. "
         "SetValue operation failed for element 4. Element type: div. Scroll: ✓ Successful. Click/Focus: ✗ Failed. Coordinates: ✓ Obtained. Cursor: ✓ Moved. Methods: Both primary and fallback failed. Last error: Click failed: Click operation failed for element 4. "
       = true.
Proof.
  apply (setValue_error_is_from_preparation (fun _ => "4") 4%float "hello"
           stubbornField
           {| Scroll.Returned.success := true;
              Scroll.Returned.partialSuccess := false;
              Scroll.Returned.reason := None |}); reflexivity.
Defined.

(** *** The model at work *)

Example setValue_on_fields :
  result (SetValueFlow.setValue (fun _ => "4") 4%float "hello" fallbackField)
  = Some (Resolved tt)
  /\ elementType (final (SetValueFlow.setValue (fun _ => "4") 4%float "hello"
                           fallbackField)) = "input"
  /\ fallbackSetValueAttempted
       (final (SetValueFlow.setValue (fun _ => "4") 4%float "hello"
                 fallbackField)) = true.
Proof. repeat split. Qed.

End SetValueFlowProps.
